(** * Marvel Rivals team composition analyzer: scoring and assignment search

    A shallow embedding of [analyze_team.py] and the properties of its
    scoring function, profile queries, option-set construction and
    composition search, followed by the tables that
    [process_data_for_frontend.py] derives from the profiles.

    Modelling conventions.
    - Python [int] is [Z]; Python [float] is idealised as an exact rational
      [Q] (no rounding, no NaN, no infinities).  What [round(x, n)]
      returns depends on the binary representation of [x]; it is the
      parameter [py_round], and no result depends on how it rounds.
    - A raised exception is an explicit result: every function that can
      divide, index or look up a key returns [Res].
    - [hero_stats] is an insertion-ordered dict: an association list whose
      order is the iteration order.  Dicts that are only indexed
      ([player_options], [options], [assignment]) are [gmap]s, the set
      [used_heroes] is a [gset].
    - The iteration order of a Python [set] is not specified; it is the
      field [set_iter] of the class [SetIter], and every result below holds
      for every instance. *)

From Stdlib Require Import ZArith QArith Qminmax Qround Lqa.
From stdpp Require Import base option list sorting strings gmap.

Local Open Scope Z_scope.

(** ** Exceptions *)

Inductive PyExn := ZeroDivisionError | IndexError | KeyError.

Inductive Res (A : Type) : Type :=
| Ok (a : A)
| Raise (e : PyExn).
Arguments Ok {A} a.
Arguments Raise {A} e.

#[global] Instance Res_ret : MRet Res := fun A a => Ok a.
#[global] Instance Res_bind : MBind Res := fun A B f m =>
  match m with
  | Ok a => f a
  | Raise e => Raise e
  end.

#[global] Instance Res_fmap : FMap Res := fun A B f m =>
  match m with
  | Ok a => Ok (f a)
  | Raise e => Raise e
  end.

(** The value of a result, or [d] after an exception. *)
Definition ok_or {A} (d : A) (r : Res A) : A :=
  match r with
  | Ok a => a
  | Raise _ => d
  end.

(** [mapM] for [Res]: the list comprehension that stops at the first
    exception. *)
Fixpoint traverse {A B} (f : A → Res B) (l : list A) : Res (list B) :=
  match l with
  | [] => Ok []
  | x :: l' => y ← f x; ys ← traverse f l'; Ok (y :: ys)
  end.

(** ** Numbers *)

(** [a < b] on floats. *)
Definition Qltb (a b : Q) : bool :=
  match Qcompare a b with Lt => true | _ => false end.

(** [a / b]: true division raises on a zero divisor. *)
Definition py_div (a b : Q) : Res Q :=
  if Qeq_bool b 0 then Raise ZeroDivisionError else Ok (a / b)%Q.

(** [min(a, b)]: the first argument unless the second is strictly smaller. *)
Definition py_min (a b : Q) : Q := if Qltb b a then b else a.

(** [max(a, b)] on ints. *)
Definition py_max (a b : Z) : Z := if a <? b then b else a.

(** ** HeroStats *)

Record HeroStats := mkHeroStats {
  hero_name : string;
  role : string;
  games_played : Z;
  wins : Z;
  losses : Z;
  total_kills : Z;
  total_deaths : Z;
  total_assists : Z;
  total_damage : Q;
  total_healing : Q;
  total_damage_blocked : Q;
  total_time_played_ms : Z;
  mvp_count : Z;
  svp_count : Z
}.

(** [HeroStats(hero_name=..., role=...)]: every counter at its default. *)
Definition new_HeroStats (name r : string) : HeroStats :=
  mkHeroStats name r 0 0 0 0 0 0 0%Q 0%Q 0%Q 0 0 0.

Definition win_rate (h : HeroStats) : Res Q :=
  if 0 <? games_played h
  then py_div (inject_Z (wins h)) (inject_Z (games_played h))
  else Ok 0%Q.

Definition kda (h : HeroStats) : Res Q :=
  py_div (inject_Z (total_kills h + total_assists h))
         (inject_Z (py_max (total_deaths h) 1)).

Definition per_min (total : Q) (h : HeroStats) : Res Q :=
  minutes ← py_div (inject_Z (total_time_played_ms h)) 60000%Q;
  if Qltb 0 minutes then py_div total minutes else Ok 0%Q.

Definition avg_damage_per_min (h : HeroStats) : Res Q :=
  per_min (total_damage h) h.

Definition avg_healing_per_min (h : HeroStats) : Res Q :=
  per_min (total_healing h) h.

Definition avg_blocked_per_min (h : HeroStats) : Res Q :=
  per_min (total_damage_blocked h) h.

Definition role_score (h : HeroStats) : Res Q :=
  if decide (role h = "Vanguard") then
    b ← avg_blocked_per_min h;
    x ← py_div b 3000%Q;
    Ok (py_min x 1 * 30)%Q
  else if decide (role h = "Strategist") then
    b ← avg_healing_per_min h;
    x ← py_div b 2000%Q;
    Ok (py_min x 1 * 30)%Q
  else
    b ← avg_damage_per_min h;
    x ← py_div b 1500%Q;
    Ok (py_min x 1 * 30)%Q.

Definition performance_score (h : HeroStats) : Res Q :=
  w ← win_rate h;
  k ← kda h;
  e ← py_div (py_min k 5) 5%Q;
  let base_score := (w * 40 + e * 30)%Q in
  rs ← role_score h;
  m ← py_div (inject_Z (mvp_count h + svp_count h))
             (inject_Z (py_max (games_played h) 1));
  let mvp_bonus := (m * 5)%Q in
  Ok (base_score + rs + mvp_bonus)%Q.

(** ** Sorting

    [sorted(l, key=..., reverse=True)] and [l.sort(key=..., reverse=True)]
    compute every key once, then sort stably in descending key order.  The
    result of a stable sort is determined by the input, so an insertion
    sort that keeps equal keys in their original order is the same
    function. *)

Fixpoint insert_desc {A} (k : Q) (x : A) (l : list (Q * A)) : list (Q * A) :=
  match l with
  | [] => [(k, x)]
  | (k', y) :: l' =>
      if Qltb k k' then (k', y) :: insert_desc k x l' else (k, x) :: l
  end.

Fixpoint sort_desc {A} (l : list (Q * A)) : list (Q * A) :=
  match l with
  | [] => []
  | (k, x) :: l' => insert_desc k x (sort_desc l')
  end.

Definition sorted_by {A} (key : A → Res Q) (l : list A) : Res (list A) :=
  ks ← traverse (λ x, k ← key x; Ok (k, x)) l;
  Ok (snd <$> sort_desc ks).

(** [l[:n]] for an int [n]: a negative [n] counts from the end. *)
Definition py_take {A} (n : Z) (l : list A) : list A :=
  if 0 <=? n then take (Z.to_nat n) l
  else take (length l - Z.to_nat (- n)) l.

(** ** PlayerProfile *)

Record PlayerProfile := mkPlayerProfile {
  player_name : string;
  hero_stats : list (string * HeroStats);
  total_games : Z;
  total_wins : Z
}.

Definition overall_win_rate (p : PlayerProfile) : Res Q :=
  if 0 <? total_games p
  then py_div (inject_Z (total_wins p)) (inject_Z (total_games p))
  else Ok 0%Q.

Definition get_best_heroes_by_role (p : PlayerProfile) (r : string)
    (min_games : Z) : Res (list (string * HeroStats)) :=
  let role_heroes :=
    filter (λ x, role x.2 = r ∧ min_games ≤ games_played x.2) (hero_stats p) in
  sorted_by (λ x, performance_score x.2) role_heroes.

Definition get_top_heroes (p : PlayerProfile) (n : Z) (min_games : Z)
    : Res (list (string * HeroStats)) :=
  let qualified :=
    filter (λ x, min_games ≤ games_played x.2) (hero_stats p) in
  sorted ← sorted_by (λ x, performance_score x.2) qualified;
  Ok (py_take n sorted).

(** ** Option-set construction (first half of [find_optimal_compositions]) *)

Fixpoint foldlM {A B} (f : A → B → Res A) (a : A) (l : list B) : Res A :=
  match l with
  | [] => Ok a
  | x :: l' => a' ← f a x; foldlM f a' l'
  end.

(** [d[k]] on a dict. *)
Definition py_getitem {V} (d : gmap string V) (k : string) : Res V :=
  match d !! k with
  | Some v => Ok v
  | None => Raise KeyError
  end.

(** [l[i]] for a non-negative index. *)
Definition py_index {A} (l : list A) (i : nat) : Res A :=
  match l !! i with
  | Some x => Ok x
  | None => Raise IndexError
  end.

(** [(name, score) == (name', score')] and [x in l] on such tuples. *)
Definition tuple_eqb (a b : string * Q) : bool :=
  bool_decide (a.1 = b.1) && Qeq_bool a.2 b.2.

Definition py_in (x : string * Q) (l : list (string * Q)) : bool :=
  existsb (tuple_eqb x) l.

(** [{"Vanguard": [], "Duelist": [], "Strategist": []}] and its key order. *)
Definition role_keys : list string := ["Vanguard"; "Duelist"; "Strategist"].

Definition empty_options : gmap string (list (string * Q)) :=
  <["Strategist" := []]> (<["Duelist" := []]> (<["Vanguard" := []]> ∅)).

(** [for hero_name, stats in heroes: options[r].append((hero_name,
    stats.performance_score))] *)
Definition append_scored (r : string) (heroes : list (string * HeroStats))
    (options : gmap string (list (string * Q)))
    : Res (gmap string (list (string * Q))) :=
  foldlM (λ opts x,
            s ← performance_score x.2;
            cur ← py_getitem opts r;
            Ok (<[r := cur ++ [(x.1, s)]]> opts))
         options heroes.

(** The first loop: the top 3 of every role. *)
Definition add_role_top3 (p : PlayerProfile) (min_games : Z)
    (options : gmap string (list (string * Q))) (r : string)
    : Res (gmap string (list (string * Q))) :=
  heroes ← get_best_heroes_by_role p r min_games;
  append_scored r (py_take 3 heroes) options.

(** The second loop: the overall best heroes, when their role is a key. *)
Definition add_top_hero (options : gmap string (list (string * Q)))
    (x : string * HeroStats) : Res (gmap string (list (string * Q))) :=
  match options !! role x.2 with
  | None => Ok options
  | Some cur =>
      s ← performance_score x.2;
      if py_in (x.1, s) cur then Ok options
      else s' ← performance_score x.2;
           Ok (<[role x.2 := cur ++ [(x.1, s')]]> options)
  end.

Definition build_options (p : PlayerProfile) (min_games : Z)
    : Res (gmap string (list (string * Q))) :=
  options ← foldlM (add_role_top3 p min_games) empty_options role_keys;
  top ← get_top_heroes p 5 min_games;
  foldlM add_top_hero options top.

Definition build_player_options (players : list PlayerProfile) (min_games : Z)
    : Res (gmap string (gmap string (list (string * Q)))) :=
  foldlM (λ po p, options ← build_options p min_games;
                  Ok (<[player_name p := options]> po))
         ∅ players.

(** ** Role orderings *)

(** [itertools.permutations(l)]: every arrangement of the positions of
    [l], in lexicographic order of the positions. *)
Fixpoint selections {A} (l : list A) : list (A * list A) :=
  match l with
  | [] => []
  | x :: l' => (x, l') :: ((λ yr, (yr.1, x :: yr.2)) <$> selections l')
  end.

Fixpoint permutations_n {A} (n : nat) (l : list A) : list (list A) :=
  match n with
  | O => [[]]
  | S n' => xr ← selections l; (xr.1 ::.) <$> permutations_n n' xr.2
  end.

Definition itertools_permutations {A} (l : list A) : list (list A) :=
  permutations_n (length l) l.

(** Iterating over [set(s)]: every distinct element of [s] once, in an
    order the language does not fix. *)
Class SetIter := {
  set_iter : list (list string) → list (list string);
  set_iter_NoDup : ∀ l, NoDup (set_iter l);
  set_iter_elem : ∀ l x, x ∈ set_iter l ↔ x ∈ l
}.

(** One possible order. *)
#[global] Instance SetIter_remove_dups : SetIter :=
  {| set_iter := remove_dups;
     set_iter_NoDup := NoDup_remove_dups;
     set_iter_elem := λ l x, elem_of_remove_dups l x |}.

(** [for role, count in target_comp.items(): roles_needed.extend([role] *
    count)] *)
Definition roles_needed (target_comp : list (string * Z)) : list string :=
  rc ← target_comp; replicate (Z.to_nat rc.2) rc.1.

(** ** Composition search *)

(** A candidate: [(total_score, {player_name: (hero_name, role)})]. *)
Abbreviation Candidate := (Q * gmap string (string * string))%type.

(** The innermost loop: the first option whose hero is not used yet. *)
Fixpoint first_available (options : list (string * Q)) (used : gset string)
    : option (string * Q) :=
  match options with
  | [] => None
  | (h, s) :: rest =>
      if decide (h ∉ used) then Some (h, s) else first_available rest used
  end.

Definition enumerate {A} (l : list A) : list (nat * A) :=
  zip (seq 0 (length l)) l.

(** The loop over [enumerate(player_names)] for one role ordering;
    [Ok None] is the [break] with [valid = False]. *)
Fixpoint assign_players
    (player_options : gmap string (gmap string (list (string * Q))))
    (role_assignment : list string) (ps : list (nat * string))
    (assignment : gmap string (string * string)) (total_score : Q)
    (used_heroes : gset string) : Res (option Candidate) :=
  match ps with
  | [] => Ok (Some (total_score, assignment))
  | (i, name) :: ps' =>
      r ← py_index role_assignment i;
      po ← py_getitem player_options name;
      options ← py_getitem po r;
      match first_available options used_heroes with
      | None => Ok None
      | Some (best_hero, best_score) =>
          assign_players player_options role_assignment ps'
            (<[name := (best_hero, r)]> assignment)
            (total_score + best_score)%Q
            ({[best_hero]} ∪ used_heroes)
      end
  end.

Definition try_ordering
    (player_names : list string)
    (player_options : gmap string (gmap string (list (string * Q))))
    (role_assignment : list string) : Res (option Candidate) :=
  assign_players player_options role_assignment (enumerate player_names)
    ∅ 0%Q ∅.

Definition target_comps : list (list (string * Z)) :=
  [ [("Vanguard", 2); ("Duelist", 2); ("Strategist", 1)];
    [("Vanguard", 1); ("Duelist", 2); ("Strategist", 2)];
    [("Vanguard", 2); ("Duelist", 1); ("Strategist", 2)];
    [("Vanguard", 1); ("Duelist", 3); ("Strategist", 1)];
    [("Vanguard", 2); ("Duelist", 1); ("Strategist", 2)] ].

(** [compositions.sort(key=lambda x: x[0], reverse=True)] *)
Definition sort_by_score (compositions : list Candidate) : list Candidate :=
  snd <$> sort_desc ((λ c, (c.1, c)) <$> compositions).

Section Search.
Context `{SetIter}.

Definition role_orderings (target_comp : list (string * Z))
    : list (list string) :=
  set_iter (itertools_permutations (roles_needed target_comp)).

Definition find_best_assignment
    (players : list PlayerProfile)
    (player_options : gmap string (gmap string (list (string * Q))))
    (target_comp : list (string * Z)) : Res (list Candidate) :=
  let player_names := player_name <$> players in
  foldlM (λ results role_assignment,
            c ← try_ordering player_names player_options role_assignment;
            Ok (match c with
                | Some cand => results ++ [cand]
                | None => results
                end))
         [] (role_orderings target_comp).

(** The pool before the final sort. *)
Definition all_compositions (players : list PlayerProfile)
    (player_options : gmap string (gmap string (list (string * Q))))
    : Res (list Candidate) :=
  foldlM (λ compositions target,
            comp_results ← find_best_assignment players player_options target;
            Ok (compositions ++ comp_results))
         [] target_comps.

Definition find_optimal_compositions (players : list PlayerProfile)
    (min_games : Z) (top_n : Z) : Res (list Candidate) :=
  player_options ← build_player_options players min_games;
  compositions ← all_compositions players player_options;
  Ok (py_take top_n (sort_by_score compositions)).

(** A call that may leave out [min_games] and [top_n]: the defaults are 3
    and 5. *)
Definition find_optimal_compositions_call (players : list PlayerProfile)
    (min_games top_n : option Z) : Res (list Candidate) :=
  find_optimal_compositions players (default 3 min_games) (default 5 top_n).
End Search.

(** ** Aggregation ([extract_player_stats]) *)

Definition HERO_ROLES : list (string * string) :=
  [ ("Angela", "Vanguard"); ("Bruce Banner", "Vanguard"); ("Hulk", "Vanguard");
    ("Captain America", "Vanguard"); ("Doctor Strange", "Vanguard");
    ("Groot", "Vanguard"); ("Magneto", "Vanguard"); ("Peni Parker", "Vanguard");
    ("Thor", "Vanguard"); ("Venom", "Vanguard"); ("The Thing", "Vanguard");
    ("Thing", "Vanguard");
    ("Black Panther", "Duelist"); ("Black Widow", "Duelist"); ("Blade", "Duelist");
    ("Daredevil", "Duelist"); ("Hawkeye", "Duelist"); ("Hela", "Duelist");
    ("Human Torch", "Duelist"); ("Iron Fist", "Duelist"); ("Iron Man", "Duelist");
    ("Magik", "Duelist"); ("Mister Fantastic", "Duelist");
    ("Mr. Fantastic", "Duelist"); ("Moon Knight", "Duelist"); ("Namor", "Duelist");
    ("Phoenix", "Duelist"); ("Psylocke", "Duelist"); ("Scarlet Witch", "Duelist");
    ("Spider-Man", "Duelist"); ("Spiderman", "Duelist");
    ("Squirrel Girl", "Duelist"); ("Star-Lord", "Duelist"); ("Storm", "Duelist");
    ("The Punisher", "Duelist"); ("Punisher", "Duelist");
    ("Winter Soldier", "Duelist"); ("Wolverine", "Duelist");
    ("Emma Frost", "Duelist"); ("Rogue", "Duelist");
    ("Adam Warlock", "Strategist"); ("Cloak & Dagger", "Strategist");
    ("Cloak and Dagger", "Strategist"); ("Invisible Woman", "Strategist");
    ("Jeff the Land Shark", "Strategist"); ("Jeff The Land Shark", "Strategist");
    ("Jeff", "Strategist"); ("Loki", "Strategist"); ("Luna Snow", "Strategist");
    ("Mantis", "Strategist"); ("Rocket Raccoon", "Strategist");
    ("Rocket", "Strategist"); ("Gambit", "Strategist"); ("Ultron", "Strategist") ].

(** Lookup in an insertion-ordered dict. *)
Fixpoint assoc {V} (k : string) (d : list (string * V)) : option V :=
  match d with
  | [] => None
  | (k', v) :: d' => if decide (k' = k) then Some v else assoc k d'
  end.

(** In-place update of the entry of [k]. *)
Definition assoc_alter {V} (f : V → V) (k : string) (d : list (string * V))
    : list (string * V) :=
  (λ kv, if decide (kv.1 = k) then (kv.1, f kv.2) else kv) <$> d.

(** [str.lower()] on ASCII text. *)
Definition lower_ascii (c : Ascii.ascii) : Ascii.ascii :=
  let n := Ascii.nat_of_ascii c in
  if ((65 <=? n)%nat && (n <=? 90)%nat)%bool
  then Ascii.ascii_of_nat (n + 32) else c.

Fixpoint lower (s : string) : string :=
  match s with
  | EmptyString => EmptyString
  | String c s' => String (lower_ascii c) (lower s')
  end.

(** One segment of a match, as the lookups of [extract_player_stats] see
    it: [None] is a missing key, and a stat is its value after [int()] or
    [float()]. *)
Record Segment := mkSegment {
  seg_type : option string;
  seg_handle : option string;
  seg_heroes : option (list (option string));
  seg_result : option string;
  seg_isMvp : option bool;
  seg_isSvp : option bool;
  seg_kills : option Z;
  seg_deaths : option Z;
  seg_assists : option Z;
  seg_totalHeroDamage : option Q;
  seg_totalHeroHeal : option Q;
  seg_totalDamageTaken : option Q;
  seg_timePlayed : option Z
}.

(** [data["data"]["matches"]]: every match is its list of segments. *)
Abbreviation MatchData := (list (list Segment)).

(** The name in the first overview segment of the first match that has a
    non-empty handle, else the hint. *)
Fixpoint first_handle (segs : list Segment) : option string :=
  match segs with
  | [] => None
  | seg :: segs' =>
      if decide (seg_type seg = Some "overview") then
        match seg_handle seg with
        | Some handle =>
            if decide (handle = "") then first_handle segs' else Some handle
        | None => first_handle segs'
        end
      else first_handle segs'
  end.

Definition actual_player_name (matches : MatchData) (hint : string) : string :=
  match matches with
  | [] => hint
  | first_match :: _ => default hint (first_handle first_match)
  end.

Definition b2z (b : bool) : Z := if b then 1 else 0.

(** The block "Aggregate stats" on one [HeroStats]. *)
Definition aggregate (seg : Segment) (is_win : bool) (h : HeroStats)
    : HeroStats :=
  {| hero_name := hero_name h;
     role := role h;
     games_played := games_played h + 1;
     wins := wins h + b2z is_win;
     losses := losses h + b2z (negb is_win);
     total_kills := total_kills h + default 0 (seg_kills seg);
     total_deaths := total_deaths h + default 0 (seg_deaths seg);
     total_assists := total_assists h + default 0 (seg_assists seg);
     total_damage := (total_damage h + default 0 (seg_totalHeroDamage seg))%Q;
     total_healing := (total_healing h + default 0 (seg_totalHeroHeal seg))%Q;
     total_damage_blocked :=
       (total_damage_blocked h + default 0 (seg_totalDamageTaken seg))%Q;
     total_time_played_ms :=
       total_time_played_ms h + default 0 (seg_timePlayed seg);
     mvp_count := mvp_count h + b2z (default false (seg_isMvp seg));
     svp_count := svp_count h + b2z (default false (seg_isSvp seg)) |}.

(** The body of the loop over segments. *)
Definition process_segment (name : string) (profile : PlayerProfile)
    (seg : Segment) : PlayerProfile :=
  if decide (seg_type seg ≠ Some "overview") then profile
  else if decide (lower (default "" (seg_handle seg)) ≠ lower name) then profile
  else
    match default [] (seg_heroes seg) with
    | [] => profile
    | hero0 :: _ =>
        let hero := default "Unknown" hero0 in
        let r := default "Unknown" (assoc hero HERO_ROLES) in
        let is_win :=
          bool_decide (lower (default "" (seg_result seg)) = "win") in
        let stats :=
          match assoc hero (hero_stats profile) with
          | Some _ => hero_stats profile
          | None => hero_stats profile ++ [(hero, new_HeroStats hero r)]
          end in
        {| player_name := player_name profile;
           hero_stats := assoc_alter (aggregate seg is_win) hero stats;
           total_games := total_games profile + 1;
           total_wins := total_wins profile + b2z is_win |}
    end.

Definition extract_player_stats (matches : MatchData) (player_name_hint : string)
    : PlayerProfile :=
  let name := actual_player_name matches player_name_hint in
  foldl (λ profile segments, foldl (process_segment name) profile segments)
        (mkPlayerProfile name [] 0 0) matches.

(** ** The scoring formula, as specified

    The values of the derived attributes and the four-term sum of the
    specification, written with the field operations of [Q]; they are
    compared below with the properties of [HeroStats]. *)

Definition win_rate_value (h : HeroStats) : Q :=
  if 0 <? games_played h
  then (inject_Z (wins h) / inject_Z (games_played h))%Q else 0%Q.

Definition kda_value (h : HeroStats) : Q :=
  (inject_Z (total_kills h + total_assists h)
   / inject_Z (Z.max (total_deaths h) 1))%Q.

Definition per_min_value (total : Q) (h : HeroStats) : Q :=
  if 0 <? total_time_played_ms h
  then (total / (inject_Z (total_time_played_ms h) / 60000))%Q else 0%Q.

Definition role_term (h : HeroStats) (damage healing blocked : Q) : Q :=
  if decide (role h = "Vanguard") then (Qmin (blocked / 3000) 1 * 30)%Q
  else if decide (role h = "Strategist") then (Qmin (healing / 2000) 1 * 30)%Q
  else (Qmin (damage / 1500) 1 * 30)%Q.

Definition score_formula (h : HeroStats) (w k damage healing blocked : Q) : Q :=
  (w * 40 + Qmin k 5 / 5 * 30 + role_term h damage healing blocked
   + inject_Z (mvp_count h + svp_count h)
     / inject_Z (Z.max (games_played h) 1) * 5)%Q.

(** The score as a total function of the current fields. *)
Definition score (h : HeroStats) : Q :=
  score_formula h (win_rate_value h) (kda_value h)
    (per_min_value (total_damage h) h) (per_min_value (total_healing h) h)
    (per_min_value (total_damage_blocked h) h).

(** ** Which segments count, as specified *)

(** The segment is one of the player's own overview segments and names at
    least one hero, the first of which resolves to [hero] (a hero entry
    without a name resolves to "Unknown"). *)
Definition aggregated_under (name hero : string) (seg : Segment) : Prop :=
  seg_type seg = Some "overview" ∧
  lower (default "" (seg_handle seg)) = lower name ∧
  (default "Unknown" <$> head (default [] (seg_heroes seg))) = Some hero.

#[global] Instance aggregated_under_dec name hero seg :
  Decision (aggregated_under name hero seg).
Proof. unfold aggregated_under. apply _. Defined.

(** The number of segments of [segs] aggregated under [hero]. *)
Definition games_under (name hero : string) (segs : list Segment) : Z :=
  Z.of_nat (length (filter (aggregated_under name hero) segs)).

(** ** The greedy assignment, as specified *)

(** The option list of a player for a role (empty when there is none). *)
Definition role_options
    (player_options : gmap string (gmap string (list (string * Q))))
    (name r : string) : list (string * Q) :=
  default [] (player_options !! name ≫= (.!! r)).

(** Every player in turn, with the role the ordering gives them, picks the
    first option whose hero none of the [earlier] players has picked; one
    player without such an option and there is no result at all. *)
Fixpoint greedy_picks
    (player_options : gmap string (gmap string (list (string * Q))))
    (earlier : list string) (nrs : list (string * string))
    : option (list (string * Q)) :=
  match nrs with
  | [] => Some []
  | (name, r) :: rest =>
      ip ← list_find (λ hs, hs.1 ∉ earlier) (role_options player_options name r);
      picks ← greedy_picks player_options (earlier ++ [ip.2.1]) rest;
      Some (ip.2 :: picks)
  end.

(** The mapping player → (hero, role) of a list of picks. *)
Definition record_assignment (a : gmap string (string * string))
    (l : list (string * (string * string))) : gmap string (string * string) :=
  foldl (λ a x, <[x.1 := x.2]> a) a l.

(** The sum of the scores, from 0, in the order of the players. *)
Definition sum_scores (t : Q) (scores : list Q) : Q := foldl Qplus t scores.

Definition greedy_candidate (player_names : list string)
    (player_options : gmap string (gmap string (list (string * Q))))
    (role_assignment : list string) : option Candidate :=
  picks ← greedy_picks player_options [] (zip player_names role_assignment);
  Some (sum_scores 0%Q picks.*2,
        record_assignment ∅ (zip player_names (zip picks.*1 role_assignment))).

(** No hero is assigned to two different players. *)
Definition hero_unique (a : gmap string (string * string)) : Prop :=
  ∀ p1 p2 h r1 r2, a !! p1 = Some (h, r1) → a !! p2 = Some (h, r2) → p1 = p2.

(** Descending order of the total score. *)
Definition descending (l : list Candidate) : Prop :=
  ∀ i j ci cj, (i < j)%nat → l !! i = Some ci → l !! j = Some cj →
               (cj.1 <= ci.1)%Q.

(** Every player has an option list for every role of [roles]. *)
Definition options_defined
    (player_options : gmap string (gmap string (list (string * Q))))
    (names roles : list string) : Prop :=
  Forall (λ name,
            Forall (λ r, is_Some (player_options !! name ≫= (.!! r))) roles)
         names.

#[global] Instance options_defined_dec player_options names roles :
  Decision (options_defined player_options names roles).
Proof. unfold options_defined. apply _. Defined.

(** ** Rankings, as specified *)

(** A list of heroes in descending order of score, equal scores in their
    original order. *)
Definition ranked (l : list (string * HeroStats)) : list (string * HeroStats) :=
  snd <$> sort_desc ((λ x, (score x.2, x)) <$> l).

(** Descending keys. *)
Definition key_ge {A} (a b : Q * A) : Prop := (b.1 <= a.1)%Q.

(** A hero with its score, as stored in an option list. *)
Definition scored (x : string * HeroStats) : string * Q := (x.1, score x.2).

(** What one step of the second loop of the option construction leaves. *)
Definition add_top_hero_value (options : gmap string (list (string * Q)))
    (x : string * HeroStats) : gmap string (list (string * Q)) :=
  match options !! role x.2 with
  | None => options
  | Some cur =>
      if py_in (scored x) cur then options
      else <[role x.2 := cur ++ [scored x]]> options
  end.

(** The ranking of the heroes of a role, and of all heroes, that have at
    least [min_games] games. *)
Definition role_ranking (p : PlayerProfile) (r : string) (min_games : Z)
    : list (string * HeroStats) :=
  ranked (filter (λ x, role x.2 = r ∧ min_games ≤ games_played x.2)
                 (hero_stats p)).

Definition global_ranking (p : PlayerProfile) (min_games : Z)
    : list (string * HeroStats) :=
  ranked (filter (λ x, min_games ≤ games_played x.2) (hero_stats p)).

(** ** The records the program holds

    A [HeroStats] is created in one place, with every counter at its
    default ([HeroStats(hero_name=..., role=...)] in
    [extract_player_stats]), and is changed only by the aggregation of a
    segment. *)
Inductive held : HeroStats → Prop :=
| held_new (name r : string) : held (new_HeroStats name r)
| held_aggregate (seg : Segment) (is_win : bool) (h : HeroStats) :
    held h → held (aggregate seg is_win h).

(** ** Further definitions: aggregation *)

(** [sum(...)] over ints: a left fold from 0. *)
Definition py_sum (l : list Z) : Z := foldl Z.add 0 l.

(** The segment is aggregated: one of the player's own overview segments
    with a non-empty hero list. *)
Definition is_aggregated (name : string) (seg : Segment) : Prop :=
  seg_type seg = Some "overview" ∧
  lower (default "" (seg_handle seg)) = lower name ∧
  default [] (seg_heroes seg) ≠ [].

#[global] Instance is_aggregated_dec name seg : Decision (is_aggregated name seg).
Proof. unfold is_aggregated. apply _. Defined.

(** The result flag of a segment, as [extract_player_stats] reads it. *)
Definition is_win (seg : Segment) : Prop :=
  lower (default "" (seg_result seg)) = "win".

(** The four role names a [HeroStats] of the aggregator can carry. *)
Definition known_roles : list string :=
  ["Vanguard"; "Duelist"; "Strategist"; "Unknown"].

(** The counters that one aggregated segment keeps consistent. *)
Definition counters_consistent (h : HeroStats) : Prop :=
  games_played h = wins h + losses h ∧ 0 ≤ wins h ∧ 0 ≤ losses h ∧
  0 ≤ mvp_count h ≤ games_played h ∧ 0 ≤ svp_count h ≤ games_played h.

(** ** Role recommendations ([print_role_recommendations]) *)

(** [sum(...)] over floats: a left fold from 0. *)
Definition py_sumQ (l : list Q) : Q := foldl Qplus 0%Q l.

(** [sum(h[1].performance_score for h in heroes[:2]) / min(len(heroes), 2)] *)
Definition average_top2 (heroes : list (string * HeroStats)) : Res Q :=
  scores ← traverse (λ x, performance_score x.2) (py_take 2 heroes);
  py_div (py_sumQ scores) (inject_Z (Z.min (Z.of_nat (length heroes)) 2)).

(** The dict [role_scores] of one player, in insertion order: a role gets
    a score when the player has a hero of it with 2 games. *)
Definition role_scores (p : PlayerProfile) : Res (list (string * Q)) :=
  foldlM (λ scores r,
            heroes ← get_best_heroes_by_role p r 2;
            match heroes with
            | [] => Ok scores
            | _ :: _ => avg_score ← average_top2 heroes;
                        Ok (scores ++ [(r, avg_score)])
            end)
         [] role_keys.

(** What [print_role_recommendations] prints for one player (the body of
    its loop): nothing without a role score, else the primary role and its
    score, the secondary role if there is one, and the best hero with its
    role. *)
Record RoleReport := mkRoleReport {
  rr_primary : string * Q;
  rr_secondary : option (string * Q);
  rr_best_hero : option (string * string)
}.

Definition role_report (p : PlayerProfile) : Res (option RoleReport) :=
  scores ← role_scores p;
  match scores with
  | [] => Ok None
  | _ :: _ =>
      let sorted_roles := snd <$> sort_desc ((λ x, (x.2, x)) <$> scores) in
      primary ← py_index sorted_roles 0;
      secondary ← (if (1 <? length sorted_roles)%nat
                   then Some <$> py_index sorted_roles 1 else Ok None);
      top ← get_top_heroes p 1 2;
      Ok (Some (mkRoleReport primary secondary
                  ((λ x, (x.1, role x.2)) <$> head top)))
  end.

(** The mean of the scores of the first two heroes of a ranking (of the
    only one when there is one). *)
Definition avg_value (heroes : list (string * HeroStats)) : Q :=
  (py_sumQ ((λ x, score x.2) <$> py_take 2 heroes)
   / inject_Z (Z.min (Z.of_nat (length heroes)) 2))%Q.

(** The score of role [r], when the player has one. *)
Definition role_score_of (p : PlayerProfile) (r : string)
    : option (string * Q) :=
  match role_ranking p r 2 with
  | [] => None
  | _ :: _ => Some (r, avg_value (role_ranking p r 2))
  end.

(** The player has a hero of role [r] with at least [min_games] games. *)
Definition plays_role (r : string) (min_games : Z) (p : PlayerProfile) : Prop :=
  Exists (λ x, role x.2 = r ∧ min_games ≤ games_played x.2) (hero_stats p).

#[global] Instance plays_role_dec r min_games p :
  Decision (plays_role r min_games p).
Proof. unfold plays_role. apply _. Defined.

(** ** Role coverage ([build_role_coverage]) *)

(** The inner loop body: [count] and [players] of the role are updated
    when the player has a hero of it with 3 games. *)
Definition coverage_step (p : PlayerProfile)
    (coverage : gmap string (Z * list string)) (r : string)
    : Res (gmap string (Z * list string)) :=
  heroes ← get_best_heroes_by_role p r 3;
  match heroes with
  | [] => Ok coverage
  | _ :: _ =>
      entry ← py_getitem coverage (lower r);
      Ok (<[lower r := (entry.1 + 1, entry.2 ++ [player_name p])]> coverage)
  end.

Definition empty_coverage : gmap string (Z * list string) :=
  <["strategist" := (0, [])]>
    (<["duelist" := (0, [])]> (<["vanguard" := (0, [])]> ∅)).

Definition build_role_coverage (players : list PlayerProfile)
    : Res (gmap string (Z * list string)) :=
  foldlM (λ coverage p, foldlM (coverage_step p) coverage role_keys)
         empty_coverage players.

(** The entry of a role after one more player. *)
Definition bump (r : string) (p : PlayerProfile) (entry : Z * list string)
    : Z * list string :=
  if decide (plays_role r 3 p)
  then (entry.1 + 1, entry.2 ++ [player_name p]) else entry.

(** The names of the players with a hero of role [r] played 3 times. *)
Definition role_players (r : string) (players : list PlayerProfile)
    : list string :=
  player_name <$> filter (plays_role r 3) players.

(** ** Frontend data ([process_data_for_frontend.py]) *)

(** [round(x, ndigits)]. Python rounds the double it is given, and the
    result depends on its binary representation: [round(23 / 80 * 100, 1)]
    is 28.7, because the product is the double 28.749999999999996 and not
    28.75. With floats idealised as rationals the rounded value is not
    determined by the exact argument, so [py_round] is a parameter: any
    function at all, and every result below holds for each choice of it. *)
Class PyRound := { py_round : Q → nat → Q }.

Section Frontend.
Context `{PyRound}.

(** [round(wins / games * 100, 1) if games > 0 else 0] *)
Definition percentage (wins games : Z) : Res Q :=
  if 0 <? games
  then q ← py_div (inject_Z wins) (inject_Z games);
       Ok (py_round (q * 100) 1)
  else Ok 0%Q.

Record SquadSummary := mkSquadSummary {
  ss_totalGames : Z;
  ss_totalWins : Z;
  ss_winRate : Q;
  ss_totalMvps : Z;
  ss_totalSvps : Z;
  ss_playerCount : Z
}.

Definition build_squad_summary (players : list PlayerProfile)
    : Res SquadSummary :=
  let all_games := py_sum (total_games <$> players) in
  let all_wins := py_sum (total_wins <$> players) in
  let total_mvps :=
    py_sum ((λ p, py_sum ((λ x, mvp_count x.2) <$> hero_stats p))
              <$> players) in
  let total_svps :=
    py_sum ((λ p, py_sum ((λ x, svp_count x.2) <$> hero_stats p))
              <$> players) in
  winRate ← percentage all_wins all_games;
  Ok (mkSquadSummary all_games all_wins winRate total_mvps total_svps
        (Z.of_nat (length players))).

(** *** Leaderboard *)

Record WinRateRow := mkWinRateRow {
  wr_name : string;
  wr_value : Q;
  wr_games : Z
}.

Record KdaRow := mkKdaRow {
  kr_name : string;
  kr_value : Q;
  kr_kills : Z;
  kr_deaths : Z;
  kr_assists : Z
}.

Record TotalRow := mkTotalRow {
  tr_name : string;
  tr_value : Q;
  tr_total : Q
}.

(** The dict of the five boards, one field per key. *)
Record Leaderboard := mkLeaderboard {
  lb_winRate : list WinRateRow;
  lb_kda : list KdaRow;
  lb_damage : list TotalRow;
  lb_healing : list TotalRow;
  lb_blocked : list TotalRow
}.

(** [rows.sort(key=lambda x: x[...], reverse=True)] *)
Definition sort_rows {A} (value : A → Q) (rows : list A) : list A :=
  snd <$> sort_desc ((λ x, (value x, x)) <$> rows).

(** The body of the loop over players. *)
Definition leaderboard_rows (leaderboard : Leaderboard)
    (player : PlayerProfile) : Res Leaderboard :=
  if decide (total_games player = 0) then Ok leaderboard
  else
    let stats := (hero_stats player).*2 in
    let kills := py_sum (total_kills <$> stats) in
    let deaths := py_sum (total_deaths <$> stats) in
    let assists := py_sum (total_assists <$> stats) in
    let time_ms := py_sum (total_time_played_ms <$> stats) in
    let damage := py_sumQ (total_damage <$> stats) in
    let healing := py_sumQ (total_healing <$> stats) in
    let blocked := py_sumQ (total_damage_blocked <$> stats) in
    minutes ← (if 0 <? time_ms then py_div (inject_Z time_ms) 60000
               else Ok 1%Q);
    win ← overall_win_rate player;
    ratio ← py_div (inject_Z (kills + assists)) (inject_Z (py_max deaths 1));
    damage_rate ← py_div damage minutes;
    healing_rate ← py_div healing minutes;
    blocked_rate ← py_div blocked minutes;
    Ok (mkLeaderboard
          (lb_winRate leaderboard
             ++ [mkWinRateRow (player_name player) (py_round (win * 100) 1)
                   (total_games player)])
          (lb_kda leaderboard
             ++ [mkKdaRow (player_name player) (py_round ratio 2)
                   kills deaths assists])
          (lb_damage leaderboard
             ++ [mkTotalRow (player_name player) (py_round damage_rate 0)
                   (py_round damage 0)])
          (lb_healing leaderboard
             ++ [mkTotalRow (player_name player) (py_round healing_rate 0)
                   (py_round healing 0)])
          (lb_blocked leaderboard
             ++ [mkTotalRow (player_name player) (py_round blocked_rate 0)
                   (py_round blocked 0)])).

Definition build_leaderboard (players : list PlayerProfile)
    : Res Leaderboard :=
  leaderboard ← foldlM leaderboard_rows (mkLeaderboard [] [] [] [] []) players;
  Ok (mkLeaderboard
        (sort_rows wr_value (lb_winRate leaderboard))
        (sort_rows kr_value (lb_kda leaderboard))
        (sort_rows tr_value (lb_damage leaderboard))
        (sort_rows tr_value (lb_healing leaderboard))
        (sort_rows tr_value (lb_blocked leaderboard))).

(** A list of rows is in descending order of [value]. *)
Definition descending_by {A} (value : A → Q) (rows : list A) : Prop :=
  ∀ i j a b, (i < j)%nat → rows !! i = Some a → rows !! j = Some b →
             (value b <= value a)%Q.

(** The names of the players with a game, in squad order. *)
Definition active_players (players : list PlayerProfile) : list string :=
  player_name <$> filter (λ p, total_games p ≠ 0) players.

(** *** Hero statistics across players *)

Record HeroPlayerRow := mkHeroPlayerRow {
  hp_name : string;
  hp_gamesPlayed : Z;
  hp_winRate : Q;
  hp_performanceScore : Q
}.

(** An entry of [hero_data]; the key [winRate] is absent until the final
    pass sets it. *)
Record HeroData := mkHeroData {
  hd_name : string;
  hd_role : string;
  hd_totalGames : Z;
  hd_totalWins : Z;
  hd_players : list HeroPlayerRow;
  hd_winRate : option Q
}.

(** The body of the inner loop, for the item [x] of [player.hero_stats]. *)
Definition hero_data_add (player : PlayerProfile)
    (hero_data : list (string * HeroData)) (x : string * HeroStats)
    : Res (list (string * HeroData)) :=
  let hero_data :=
    match assoc x.1 hero_data with
    | Some _ => hero_data
    | None =>
        hero_data
        ++ [(x.1, mkHeroData x.1
                    (if decide (role x.2 ≠ "Unknown") then lower (role x.2)
                     else "unknown")
                    0 0 [] None)]
    end in
  rate ← win_rate x.2;
  perf ← performance_score x.2;
  Ok (assoc_alter
        (λ data, mkHeroData (hd_name data) (hd_role data)
                   (hd_totalGames data + games_played x.2)
                   (hd_totalWins data + wins x.2)
                   (hd_players data
                      ++ [mkHeroPlayerRow (player_name player)
                            (games_played x.2) (py_round (rate * 100) 1)
                            (py_round perf 1)])
                   (hd_winRate data))
        x.1 hero_data).

(** The body of the final loop: the win rate is set and the players are
    sorted. *)
Definition finish_hero (data : HeroData) : Res HeroData :=
  winRate ← percentage (hd_totalWins data) (hd_totalGames data);
  Ok (mkHeroData (hd_name data) (hd_role data) (hd_totalGames data)
        (hd_totalWins data)
        (sort_rows hp_performanceScore (hd_players data)) (Some winRate)).

Definition build_hero_stats (players : list PlayerProfile)
    : Res (list HeroData) :=
  hero_data ← foldlM (λ hero_data player,
                        foldlM (hero_data_add player) hero_data
                               (hero_stats player))
                     [] players;
  result ← traverse (λ kv, finish_hero kv.2) hero_data;
  Ok (sort_rows (λ data, inject_Z (hd_totalGames data)) result).

(** Every (player, hero entry) pair of the squad, in iteration order, and
    those of one hero. *)
Definition hero_pairs (players : list PlayerProfile)
    : list (PlayerProfile * (string * HeroStats)) :=
  players ≫= (λ p, (λ x, (p, x)) <$> hero_stats p).

Definition pairs_of (name : string)
    (pairs : list (PlayerProfile * (string * HeroStats)))
    : list (PlayerProfile * (string * HeroStats)) :=
  filter (λ px, px.2.1 = name) pairs.

(** The value [percentage] returns. *)
Definition percentage_value (wins games : Z) : Q :=
  if 0 <? games
  then py_round (inject_Z wins / inject_Z games * 100) 1 else 0%Q.

(** The row a pair contributes to the hero's [players]. *)
Definition row_of (px : PlayerProfile * (string * HeroStats)) : HeroPlayerRow :=
  mkHeroPlayerRow (player_name px.1) (games_played px.2.2)
    (py_round (win_rate_value px.2.2 * 100) 1) (py_round (score px.2.2) 1).

(** What the inner loop has accumulated for hero [k] after [pairs]. *)
Definition accumulated (pairs : list (PlayerProfile * (string * HeroStats)))
    (k : string) (data : HeroData) : Prop :=
  hd_name data = k ∧
  hd_totalGames data = py_sum ((λ px, games_played px.2.2) <$> pairs_of k pairs) ∧
  hd_totalWins data = py_sum ((λ px, wins px.2.2) <$> pairs_of k pairs) ∧
  hd_players data = row_of <$> pairs_of k pairs ∧
  hd_winRate data = None ∧
  ∃ px, head (pairs_of k pairs) = Some px ∧ hd_role data = lower (role px.2.2).

(** The entry after the final pass. *)
Definition finished (data : HeroData) : HeroData :=
  mkHeroData (hd_name data) (hd_role data) (hd_totalGames data)
    (hd_totalWins data) (sort_rows hp_performanceScore (hd_players data))
    (Some (percentage_value (hd_totalWins data) (hd_totalGames data))).

(** *** Player data *)

(** [d[k] = v] on an insertion-ordered dict. *)
Definition dict_set {V} (k : string) (v : V) (d : list (string * V))
    : list (string * V) :=
  match assoc k d with
  | Some _ => assoc_alter (λ _, v) k d
  | None => d ++ [(k, v)]
  end.

Record TopHeroRow := mkTopHeroRow {
  th_name : string;
  th_role : string;
  th_gamesPlayed : Z;
  th_winRate : Q;
  th_kda : Q;
  th_performanceScore : Q;
  th_avgDamage : Q;
  th_avgHealing : Q;
  th_avgBlocked : Q;
  th_mvpCount : Z;
  th_svpCount : Z
}.

Record BreakdownRow := mkBreakdownRow {
  br_name : string;
  br_gamesPlayed : Z;
  br_winRate : Q;
  br_kda : Q;
  br_performanceScore : Q
}.

Record PlayerData := mkPlayerData {
  pd_name : string;
  pd_totalGames : Z;
  pd_totalWins : Z;
  pd_winRate : Q;
  pd_primaryRole : option string;
  pd_secondaryRole : option string;
  pd_roleScores : list (string * Q);
  pd_topHeroes : list TopHeroRow;
  pd_heroBreakdown : list (string * list BreakdownRow)
}.

(** The first loop: the rounded score of every role, 0 without a hero. *)
Definition data_role_scores (profile : PlayerProfile)
    : Res (list (string * Q)) :=
  foldlM (λ role_scores r,
            heroes ← get_best_heroes_by_role profile r 2;
            match heroes with
            | [] => Ok (dict_set (lower r) 0%Q role_scores)
            | _ :: _ =>
                avg_score ← average_top2 heroes;
                Ok (dict_set (lower r) (py_round avg_score 1) role_scores)
            end)
         [] role_keys.

Definition top_hero_row (x : string * HeroStats) : Res TopHeroRow :=
  rate ← win_rate x.2;
  ratio ← kda x.2;
  perf ← performance_score x.2;
  damage ← avg_damage_per_min x.2;
  healing ← avg_healing_per_min x.2;
  blocked ← avg_blocked_per_min x.2;
  Ok (mkTopHeroRow x.1 (lower (role x.2)) (games_played x.2)
        (py_round (rate * 100) 1) (py_round ratio 2) (py_round perf 1)
        (py_round damage 0) (py_round healing 0) (py_round blocked 0)
        (mvp_count x.2) (svp_count x.2)).

Definition breakdown_row (x : string * HeroStats) : Res BreakdownRow :=
  rate ← win_rate x.2;
  ratio ← kda x.2;
  perf ← performance_score x.2;
  Ok (mkBreakdownRow x.1 (games_played x.2) (py_round (rate * 100) 1)
        (py_round ratio 2) (py_round perf 1)).

(** [hero_breakdown[role.lower()].append(row)] *)
Definition breakdown_append (r : string)
    (hero_breakdown : list (string * list BreakdownRow))
    (x : string * HeroStats) : Res (list (string * list BreakdownRow)) :=
  match assoc (lower r) hero_breakdown with
  | None => Raise KeyError
  | Some _ =>
      row ← breakdown_row x;
      Ok (assoc_alter (λ rows, rows ++ [row]) (lower r) hero_breakdown)
  end.

Definition data_hero_breakdown (profile : PlayerProfile)
    : Res (list (string * list BreakdownRow)) :=
  foldlM (λ hero_breakdown r,
            heroes ← get_best_heroes_by_role profile r 1;
            foldlM (breakdown_append r) hero_breakdown heroes)
         [("vanguard", []); ("duelist", []); ("strategist", [])] role_keys.

Definition build_player_data (profile : PlayerProfile) : Res PlayerData :=
  role_scores ← data_role_scores profile;
  let sorted_roles := sort_rows snd role_scores in
  first ← py_index sorted_roles 0;
  let primary_role := if Qltb 0 first.2 then Some first.1 else None in
  secondary_role ←
    (if (1 <? length sorted_roles)%nat
     then second ← py_index sorted_roles 1;
          Ok (if Qltb 0 second.2 then Some second.1 else None)
     else Ok None);
  top ← get_top_heroes profile 5 2;
  top_heroes ← traverse top_hero_row top;
  hero_breakdown ← data_hero_breakdown profile;
  rate ← overall_win_rate profile;
  Ok (mkPlayerData (player_name profile) (total_games profile)
        (total_wins profile) (py_round (rate * 100) 1)
        primary_role secondary_role role_scores top_heroes hero_breakdown).

(** The rounded score of role [r]: 0 without a hero of it with 2 games. *)
Definition data_role_score (p : PlayerProfile) (r : string) : Q :=
  match role_ranking p r 2 with
  | [] => 0%Q
  | _ :: _ => py_round (avg_value (role_ranking p r 2)) 1
  end.

(** The rows of the two hero tables, as values. *)
Definition top_hero_row_value (x : string * HeroStats) : TopHeroRow :=
  mkTopHeroRow x.1 (lower (role x.2)) (games_played x.2)
    (py_round (win_rate_value x.2 * 100) 1) (py_round (kda_value x.2) 2)
    (py_round (score x.2) 1)
    (py_round (per_min_value (total_damage x.2) x.2) 0)
    (py_round (per_min_value (total_healing x.2) x.2) 0)
    (py_round (per_min_value (total_damage_blocked x.2) x.2) 0)
    (mvp_count x.2) (svp_count x.2).

Definition breakdown_row_value (x : string * HeroStats) : BreakdownRow :=
  mkBreakdownRow x.1 (games_played x.2)
    (py_round (win_rate_value x.2 * 100) 1) (py_round (kda_value x.2) 2)
    (py_round (score x.2) 1).

End Frontend.

(** ** Sample data *)

(** A [HeroStats] that has no game but some time played. *)
Definition idle_hero : HeroStats :=
  mkHeroStats "Hela" "Duelist" 0 0 0 0 0 0 100%Q 0%Q 0%Q 60000 0 0.

(** One of the player's overview segments that lists no hero. *)
Definition heroless_segment : Segment :=
  mkSegment (Some "overview") (Some "alice") None (Some "win") None None
            (Some 7) (Some 2) (Some 3) (Some 1000%Q) None None (Some 600000).

(** A match with one segment whose hero entry has no name. *)
Definition nameless_segment : Segment :=
  mkSegment (Some "overview") (Some "Alice") (Some [None]) (Some "Win") None
            (Some true) (Some 7) (Some 2) (Some 3) (Some 1000%Q) None None
            (Some 600000).

(** A profile with a fourth Duelist that is in the global top 5. *)
Definition duelist_main : PlayerProfile :=
  mkPlayerProfile "alice"
    [ ("Hela", mkHeroStats "Hela" "Duelist" 10 9 1 90 10 20 200000%Q 0%Q 0%Q
                 6000000 2 1);
      ("Storm", mkHeroStats "Storm" "Duelist" 10 8 2 80 10 20 200000%Q 0%Q 0%Q
                  6000000 1 1);
      ("Namor", mkHeroStats "Namor" "Duelist" 10 7 3 70 10 20 200000%Q 0%Q 0%Q
                  6000000 1 0);
      ("Blade", mkHeroStats "Blade" "Duelist" 10 6 4 60 10 20 200000%Q 0%Q 0%Q
                  6000000 0 0);
      ("Thor", mkHeroStats "Thor" "Vanguard" 5 1 4 10 20 5 1000%Q 0%Q 30000%Q
                 3000000 0 0);
      ("Loki", mkHeroStats "Loki" "Strategist" 1 1 0 5 1 9 1000%Q 9000%Q 0%Q
                 600000 0 0) ]
    41 32.

(** Six players without any hero. *)
Definition six_newcomers : list PlayerProfile :=
  (λ name, mkPlayerProfile name [] 0 0) <$> ["a"; "b"; "c"; "d"; "e"; "f"].

(** A pool of heroes, two Vanguards, three Duelists and three
    Strategists, and a squad of players who all play it. *)
Definition sample_pool : list (string * HeroStats) :=
  [ ("Thor", mkHeroStats "Thor" "Vanguard" 8 6 2 60 20 30 50000%Q 0%Q 240000%Q
               4800000 2 1);
    ("Groot", mkHeroStats "Groot" "Vanguard" 6 3 3 30 20 40 30000%Q 0%Q
                150000%Q 3600000 0 1);
    ("Hela", mkHeroStats "Hela" "Duelist" 10 7 3 120 30 20 150000%Q 0%Q 0%Q
               6000000 3 0);
    ("Storm", mkHeroStats "Storm" "Duelist" 5 2 3 40 25 10 60000%Q 0%Q 0%Q
                3000000 0 0);
    ("Namor", mkHeroStats "Namor" "Duelist" 4 2 2 30 12 8 45000%Q 0%Q 0%Q
                2400000 0 1);
    ("Loki", mkHeroStats "Loki" "Strategist" 9 5 4 30 27 90 20000%Q 160000%Q
               0%Q 5400000 1 1);
    ("Mantis", mkHeroStats "Mantis" "Strategist" 4 3 1 16 8 40 9000%Q 70000%Q
                 0%Q 2400000 0 0);
    ("Luna Snow", mkHeroStats "Luna Snow" "Strategist" 3 1 2 9 9 21 5000%Q
                    40000%Q 0%Q 1800000 0 0) ].

Definition sample_player (name : string) : PlayerProfile :=
  mkPlayerProfile name sample_pool 49 29.

Definition sample_squad : list PlayerProfile :=
  sample_player <$> ["ann"; "bo"; "cy"; "di"; "ed"].

Definition sample_pair : list PlayerProfile :=
  sample_player <$> ["ann"; "bo"].

Definition sample_six : list PlayerProfile :=
  sample_player <$> ["ann"; "bo"; "cy"; "di"; "ed"; "flo"].

(** The options of the pair, as [find_optimal_compositions] builds them. *)
Definition sample_pair_options
    : gmap string (gmap string (list (string * Q))) :=
  ok_or ∅ (build_player_options sample_pair 2).

(** The options of the six, likewise. *)
Definition sample_six_options
    : gmap string (gmap string (list (string * Q))) :=
  ok_or ∅ (build_player_options sample_six 2).

(** One hero of the pool. *)
Definition sample_thor : HeroStats :=
  mkHeroStats "Thor" "Vanguard" 8 6 2 60 20 30 50000%Q 0%Q 240000%Q
              4800000 2 1.

(** The pair and a player who has not played yet. *)
Definition sample_with_newcomer : list PlayerProfile :=
  mkPlayerProfile "zed" [] 0 0 :: sample_pair.

(** * Properties *)

(** Decides a closed decidable proposition by evaluation. *)
Ltac decide_by_compute :=
  apply (bool_decide_unpack _); vm_compute; exact I.

(** ** The error monad *)

Lemma bind_Ok {A B} (f : A → Res B) (a : A) : (Ok a ≫= f) = f a.
Proof. reflexivity. Qed.

Lemma traverse_Ok {A B} (f : A → Res B) (g : A → B) (l : list A) :
  (∀ x, x ∈ l → f x = Ok (g x)) → traverse f l = Ok (g <$> l).
Proof.
  induction l as [|x l IH]; intros Hf; [done|].
  cbn. rewrite Hf by left. cbn.
  rewrite IH; [done|]. intros y Hy. apply Hf. by right.
Qed.

(** ** Rates never divide by zero *)

Lemma Qltb_lt (a b : Q) : Qltb a b = true ↔ (a < b)%Q.
Proof.
  unfold Qltb. rewrite Qlt_alt.
  destruct (a ?= b)%Q; split; congruence.
Qed.

Lemma Qltb_ge (a b : Q) : Qltb a b = false ↔ (b <= a)%Q.
Proof.
  rewrite <- not_true_iff_false, Qltb_lt. split.
  - apply Qnot_lt_le.
  - intros Hle Hlt. by apply (Qlt_not_le _ _ Hlt).
Qed.

Lemma py_min_Qmin (a b : Q) : py_min a b = Qmin a b.
Proof.
  unfold py_min, Qltb, Qmin, GenericMinMax.gmin.
  rewrite <- Qcompare_antisym. by destruct (a ?= b)%Q.
Qed.

Lemma py_max_Zmax (a b : Z) : py_max a b = Z.max a b.
Proof. unfold py_max. destruct (Z.ltb_spec a b); lia. Qed.

Lemma py_div_nonzero (a b : Q) : ¬ (b == 0)%Q → py_div a b = Ok (a / b)%Q.
Proof.
  intros Hb. unfold py_div.
  destruct (Qeq_bool b 0) eqn:E; [|done].
  by apply Qeq_bool_iff in E.
Qed.

Lemma py_div_Z_nonzero (a : Q) (z : Z) :
  z ≠ 0 → py_div a (inject_Z z) = Ok (a / inject_Z z)%Q.
Proof.
  intros Hz. apply py_div_nonzero. unfold Qeq, inject_Z. cbn. lia.
Qed.

(** Closes [¬ (c == 0)] for a numeral [c]. *)
Ltac Qnonzero := let E := fresh in intros E; vm_compute in E; discriminate E.

Lemma win_rate_ok (h : HeroStats) : win_rate h = Ok (win_rate_value h).
Proof.
  unfold win_rate, win_rate_value.
  destruct (Z.ltb_spec 0 (games_played h)); [|done].
  apply py_div_Z_nonzero. lia.
Qed.

Lemma kda_ok (h : HeroStats) : kda h = Ok (kda_value h).
Proof.
  unfold kda, kda_value. rewrite py_max_Zmax.
  apply py_div_Z_nonzero. lia.
Qed.

Lemma minutes_pos (t : Z) : Qltb 0 (inject_Z t / 60000) = (0 <? t).
Proof.
  apply eq_true_iff_eq. rewrite Qltb_lt, Z.ltb_lt.
  unfold Qlt, Qdiv, Qmult, Qinv, inject_Z. cbn. lia.
Qed.

Lemma per_min_ok (total : Q) (h : HeroStats) :
  per_min total h = Ok (per_min_value total h).
Proof.
  unfold per_min, per_min_value.
  rewrite py_div_nonzero by Qnonzero. cbn.
  rewrite minutes_pos.
  destruct (0 <? total_time_played_ms h) eqn:E; [|done].
  apply py_div_nonzero. intros H0.
  rewrite <- minutes_pos in E. apply Qltb_lt in E.
  rewrite H0 in E. by apply Qlt_irrefl in E.
Qed.

Lemma role_score_ok (h : HeroStats) :
  role_score h =
  Ok (role_term h (per_min_value (total_damage h) h)
                  (per_min_value (total_healing h) h)
                  (per_min_value (total_damage_blocked h) h)).
Proof.
  unfold role_score, role_term, avg_blocked_per_min, avg_healing_per_min,
    avg_damage_per_min.
  rewrite !per_min_ok.
  repeat case_decide; cbn; rewrite py_div_nonzero by Qnonzero; cbn;
    by rewrite py_min_Qmin.
Qed.

Lemma performance_score_ok (h : HeroStats) :
  performance_score h = Ok (score h).
Proof.
  unfold performance_score, score, score_formula.
  rewrite win_rate_ok, bind_Ok, kda_ok, bind_Ok.
  rewrite (py_div_nonzero _ 5), bind_Ok by Qnonzero.
  rewrite role_score_ok, bind_Ok, py_max_Zmax.
  rewrite py_div_Z_nonzero, bind_Ok by lia.
  by rewrite py_min_Qmin.
Qed.

(** C1: the performance score of every [HeroStats] is returned without an
    exception and is the sum of the win-rate term, the capped KDA term, the
    role term (blocked per minute for a Vanguard, healing per minute for a
    Strategist, damage per minute for every other role) and the MVP/SVP
    bonus, each taken from the current fields; in particular the score read
    after a match has been aggregated is the formula on the updated
    fields. *)
Theorem performance_score_formula (h : HeroStats) :
  ∃ w k damage healing blocked : Q,
    win_rate h = Ok w ∧ kda h = Ok k ∧
    avg_damage_per_min h = Ok damage ∧
    avg_healing_per_min h = Ok healing ∧
    avg_blocked_per_min h = Ok blocked ∧
    performance_score h = Ok (score_formula h w k damage healing blocked) ∧
    ∀ seg is_win,
      performance_score (aggregate seg is_win h)
      = Ok (score (aggregate seg is_win h)).
Proof.
  exists (win_rate_value h), (kda_value h),
    (per_min_value (total_damage h) h), (per_min_value (total_healing h) h),
    (per_min_value (total_damage_blocked h) h).
  unfold avg_damage_per_min, avg_healing_per_min, avg_blocked_per_min.
  rewrite win_rate_ok, kda_ok, !per_min_ok.
  repeat split; try done.
  - apply performance_score_ok.
  - intros. apply performance_score_ok.
Qed.

(** ** Aggregation *)

Lemma assoc_app {V} (k : string) (d1 d2 : list (string * V)) :
  assoc k (d1 ++ d2) = match assoc k d1 with
                       | Some v => Some v
                       | None => assoc k d2
                       end.
Proof.
  induction d1 as [|[k' v] d1 IH]; [done|].
  cbn. by case_decide.
Qed.

Lemma assoc_alter_lookup {V} (f : V → V) (k k' : string) (d : list (string * V)) :
  assoc k (assoc_alter f k' d)
  = if decide (k = k') then f <$> assoc k d else assoc k d.
Proof.
  induction d as [|[k0 v] d IH]; [by case_decide|].
  cbn. repeat case_decide; simplify_eq/=; try done;
    repeat case_decide; simplify_eq/=; done.
Qed.

Lemma extract_player_stats_concat (matches : MatchData) (hint : string) :
  extract_player_stats matches hint
  = foldl (process_segment (actual_player_name matches hint))
          (mkPlayerProfile (actual_player_name matches hint) [] 0 0)
          (concat matches).
Proof.
  unfold extract_player_stats.
  generalize (mkPlayerProfile (actual_player_name matches hint) [] 0 0).
  generalize (actual_player_name matches hint). intros name.
  induction matches as [|m ms IH]; intros p; [done|].
  cbn. by rewrite foldl_app, IH.
Qed.

(** A segment that is not aggregated under any hero leaves the profile as
    it is. *)
Lemma process_segment_skip (name : string) (p : PlayerProfile) (seg : Segment) :
  (∀ hero, ¬ aggregated_under name hero seg) → process_segment name p seg = p.
Proof.
  intros Hno. unfold process_segment.
  destruct (decide (seg_type seg ≠ Some "overview")) as [|Ht]; [done|].
  destruct (decide (lower (default "" (seg_handle seg)) ≠ lower name))
    as [|Hn]; [done|].
  destruct (default [] (seg_heroes seg)) as [|hero0 rest] eqn:Hh; [done|].
  exfalso. apply (Hno (default "Unknown" hero0)).
  unfold aggregated_under. rewrite Hh.
  split_and!; [by apply dec_stable|by apply dec_stable|done].
Qed.

(** The entry of every hero after one more segment. *)
Lemma process_segment_lookup (name hero k : string) (p : PlayerProfile)
    (seg : Segment) :
  aggregated_under name hero seg →
  let is_win := bool_decide (lower (default "" (seg_result seg)) = "win") in
  let r := default "Unknown" (assoc hero HERO_ROLES) in
  assoc k (hero_stats (process_segment name p seg))
  = if decide (k = hero)
    then Some (aggregate seg is_win
                 (default (new_HeroStats hero r) (assoc hero (hero_stats p))))
    else assoc k (hero_stats p).
Proof.
  intros (Ht & Hn & Hh). cbn zeta. unfold process_segment.
  destruct (decide (seg_type seg ≠ Some "overview")) as [|_]; [done|].
  destruct (decide (lower (default "" (seg_handle seg)) ≠ lower name))
    as [|_]; [done|].
  destruct (default [] (seg_heroes seg)) as [|hero0 rest]; [done|].
  cbn in Hh. injection Hh as Hh. rewrite Hh. cbn [hero_stats].
  rewrite assoc_alter_lookup.
  destruct (assoc hero (hero_stats p)) as [h|] eqn:Hp.
  - case_decide; [|done]. subst k. by rewrite Hp.
  - rewrite assoc_app. cbn.
    case_decide.
    + subst k. rewrite Hp. by rewrite decide_True.
    + destruct (assoc k (hero_stats p)); [done|]. by rewrite decide_False.
Qed.

Lemma games_under_snoc (name hero : string) (segs : list Segment) (seg : Segment) :
  games_under name hero (segs ++ [seg])
  = games_under name hero segs
    + (if decide (aggregated_under name hero seg) then 1 else 0).
Proof.
  unfold games_under. rewrite filter_app, length_app, filter_cons, filter_nil.
  case_decide; cbn; lia.
Qed.

Lemma aggregated_under_unique (name hero hero' : string) (seg : Segment) :
  aggregated_under name hero seg → aggregated_under name hero' seg →
  hero = hero'.
Proof. intros (_ & _ & H1) (_ & _ & H2). congruence. Qed.

Lemma aggregated_or_skipped (name : string) (seg : Segment) :
  (∃ hero, aggregated_under name hero seg)
  ∨ (∀ hero, ¬ aggregated_under name hero seg).
Proof.
  unfold aggregated_under.
  destruct (decide (seg_type seg = Some "overview"));
    [|by right; intros ? (? & _)].
  destruct (decide (lower (default "" (seg_handle seg)) = lower name));
    [|by right; intros ? (_ & ? & _)].
  destruct (head (default [] (seg_heroes seg))) as [hero0|];
    [left; by eexists|by right; intros ? (_ & _ & ?)].
Qed.

(** Every hero of the profile has played exactly the segments aggregated
    under it, and carries the role of the table. *)
Lemma aggregation_invariant (name : string) (segs : list Segment) (hero : string) :
  let p := foldl (process_segment name) (mkPlayerProfile name [] 0 0) segs in
  match assoc hero (hero_stats p) with
  | None => games_under name hero segs = 0
  | Some h =>
      hero_name h = hero ∧
      role h = default "Unknown" (assoc hero HERO_ROLES) ∧
      games_played h = games_under name hero segs ∧
      0 < games_played h
  end.
Proof.
  induction segs as [|seg segs IH] using rev_ind; [done|].
  cbn zeta in *. rewrite foldl_app. cbn [foldl].
  rewrite games_under_snoc.
  set (p := foldl (process_segment name) _ segs) in *.
  destruct (aggregated_or_skipped name seg) as [[hero' Hagg]|Hno].
  - rewrite (process_segment_lookup _ hero' _ _ _ Hagg).
    destruct (decide (hero = hero')) as [->|Hne].
    + rewrite decide_True by done.
      destruct (assoc hero' (hero_stats p)) as [h|]; cbn.
      * destruct IH as (? & ? & ? & ?). split_and!; try done; lia.
      * split_and!; try done; lia.
    + rewrite decide_False; [by rewrite Z.add_0_r|].
      intros Hagg'. by apply Hne, (aggregated_under_unique name _ _ seg).
  - rewrite process_segment_skip by done.
    rewrite decide_False by apply Hno. by rewrite Z.add_0_r.
Qed.

(** *** The profile is a dict: one entry per hero name *)

Lemma assoc_None {V} (k : string) (d : list (string * V)) :
  assoc k d = None ↔ k ∉ d.*1.
Proof.
  induction d as [|[k' v] d IH]; [split; [intros _; apply not_elem_of_nil|done]|].
  cbn. rewrite not_elem_of_cons. case_decide.
  - split; [done|]. intros [Hne _]. by destruct Hne.
  - rewrite IH. split; [by split|]. by intros [_ ?].
Qed.

Lemma assoc_alter_keys {V} (f : V → V) (k : string) (d : list (string * V)) :
  (assoc_alter f k d).*1 = d.*1.
Proof.
  unfold assoc_alter. rewrite <- list_fmap_compose.
  apply list_fmap_ext. intros i [k' v] _. cbn. by case_decide.
Qed.

Lemma process_segment_unique_keys (name : string) (p : PlayerProfile)
    (seg : Segment) :
  NoDup (hero_stats p).*1 → NoDup (hero_stats (process_segment name p seg)).*1.
Proof.
  intros Hnd. unfold process_segment.
  destruct (decide (seg_type seg ≠ Some "overview")); [done|].
  destruct (decide (lower (default "" (seg_handle seg)) ≠ lower name)); [done|].
  destruct (default [] (seg_heroes seg)) as [|hero0 rest]; [done|].
  cbn [hero_stats]. rewrite assoc_alter_keys.
  destruct (assoc (default "Unknown" hero0) (hero_stats p)) eqn:Ha; [done|].
  rewrite fmap_app. apply NoDup_app. split_and!; [done| |apply NoDup_singleton].
  intros k Hk. cbn. rewrite list_elem_of_singleton. intros ->.
  by apply assoc_None in Ha.
Qed.

(** The profiles that [extract_player_stats] builds satisfy the
    uniqueness of hero names that the option construction relies on. *)
Lemma extract_player_stats_unique_keys (matches : MatchData) (hint : string) :
  NoDup (hero_stats (extract_player_stats matches hint)).*1.
Proof.
  rewrite extract_player_stats_concat.
  induction (concat matches) as [|seg segs IH] using rev_ind.
  - cbn. constructor.
  - rewrite foldl_app. cbn [foldl]. by apply process_segment_unique_keys.
Qed.

Lemma assoc_elem {V} (k : string) (v : V) (d : list (string * V)) :
  NoDup d.*1 → (k, v) ∈ d → assoc k d = Some v.
Proof.
  induction d as [|[k' v'] d IH]; intros Hnd Hin.
  { by apply elem_of_nil in Hin. }
  rewrite fmap_cons in Hnd. apply NoDup_cons in Hnd as [Hk Hnd].
  cbn. apply elem_of_cons in Hin as [[= <- <-]|Hin].
  - by rewrite decide_True.
  - rewrite decide_False; [by apply IH|].
    intros ->. apply Hk. by apply (list_elem_of_fmap_2 fst _ (k, v)).
Qed.

(** *** The totals of the profile *)

Lemma is_aggregated_iff (name : string) (seg : Segment) :
  is_aggregated name seg ↔ ∃ hero, aggregated_under name hero seg.
Proof.
  unfold is_aggregated, aggregated_under. split.
  - intros (Ht & Hn & Hh).
    destruct (default [] (seg_heroes seg)) as [|hero0 rest]; [done|].
    by exists (default "Unknown" hero0).
  - intros (hero & Ht & Hn & Hh). split_and!; [done..|].
    by destruct (default [] (seg_heroes seg)).
Qed.

(** The totals of the profile after one more aggregated segment. *)
Lemma process_segment_totals (name : string) (p : PlayerProfile) (seg : Segment) :
  is_aggregated name seg →
  player_name (process_segment name p seg) = player_name p ∧
  total_games (process_segment name p seg) = total_games p + 1 ∧
  total_wins (process_segment name p seg)
  = total_wins p + b2z (bool_decide (is_win seg)).
Proof.
  intros (Ht & Hn & Hh). unfold process_segment.
  destruct (decide (seg_type seg ≠ Some "overview")); [done|].
  destruct (decide (lower (default "" (seg_handle seg)) ≠ lower name)); [done|].
  by destruct (default [] (seg_heroes seg)).
Qed.

Lemma process_segment_not_aggregated (name : string) (p : PlayerProfile)
    (seg : Segment) :
  ¬ is_aggregated name seg → process_segment name p seg = p.
Proof.
  intros Hn. apply process_segment_skip. intros hero Hagg.
  apply Hn, is_aggregated_iff. by exists hero.
Qed.

(** The name and the totals of the profile are those of the aggregated
    segments. *)
Lemma profile_totals_fold (name : string) (segs : list Segment) :
  let p := foldl (process_segment name) (mkPlayerProfile name [] 0 0) segs in
  let own := filter (is_aggregated name) segs in
  player_name p = name ∧
  total_games p = Z.of_nat (length own) ∧
  total_wins p = Z.of_nat (length (filter is_win own)).
Proof.
  induction segs as [|seg segs IH] using rev_ind; [done|].
  cbn zeta in *.
  rewrite foldl_app, filter_app, filter_cons, filter_nil. cbn [foldl].
  destruct IH as (IHn & IHg & IHw).
  destruct (decide (is_aggregated name seg)) as [Hagg|Hagg].
  - destruct (process_segment_totals name
                (foldl (process_segment name) (mkPlayerProfile name [] 0 0) segs)
                seg Hagg) as (-> & -> & ->).
    rewrite IHg, IHw, filter_app, filter_cons, filter_nil, !length_app.
    split_and!; [done|cbn [length]; lia|].
    rewrite bool_decide_decide.
    destruct (decide (is_win seg)); cbn [length b2z]; lia.
  - rewrite process_segment_not_aggregated by done.
    by rewrite app_nil_r.
Qed.

(** C7, the claim as stated fails: a segment of the player that names no
    hero is skipped, nothing is aggregated under "Unknown". *)
Lemma heroless_segment_dropped :
  seg_heroes heroless_segment = None ∧
  extract_player_stats [[heroless_segment]] "alice"
  = mkPlayerProfile "alice" [] 0 0.
Proof. split; reflexivity. Qed.

(** C7, amended: a segment of the player whose first hero entry carries no
    name is aggregated under hero "Unknown" with role "Unknown": the entry
    "Unknown" of the profile has played exactly the segments so aggregated
    (this one among them), and the segment is one of those that
    [total_games] and [total_wins] count. Processing it adds 1 to
    [total_games], 1 to [total_wins] if it is a win, and aggregates its
    statistics into the entry "Unknown" (a fresh one if there was none). A
    segment of which the hero list is missing or empty changes nothing. *)
Theorem nameless_hero_is_Unknown (matches : MatchData) (hint : string)
    (seg : Segment) (rest : list (option string)) :
  let name := actual_player_name matches hint in
  let p := extract_player_stats matches hint in
  let own := filter (is_aggregated name) (concat matches) in
  seg ∈ concat matches →
  seg_type seg = Some "overview" →
  lower (default "" (seg_handle seg)) = lower name →
  seg_heroes seg = Some (None :: rest) →
  (∃ h, assoc "Unknown" (hero_stats p) = Some h ∧
        hero_name h = "Unknown" ∧ role h = "Unknown" ∧
        games_played h = games_under name "Unknown" (concat matches) ∧
        1 ≤ games_played h) ∧
  (seg ∈ own ∧
   total_games p = Z.of_nat (length own) ∧
   total_wins p = Z.of_nat (length (filter is_win own)) ∧
   1 ≤ total_games p) ∧
  (∀ p', let q := process_segment name p' seg in
         total_games q = total_games p' + 1 ∧
         total_wins q = total_wins p' + b2z (bool_decide (is_win seg)) ∧
         assoc "Unknown" (hero_stats q)
         = Some (aggregate seg (bool_decide (is_win seg))
                   (default (new_HeroStats "Unknown" "Unknown")
                            (assoc "Unknown" (hero_stats p'))))) ∧
  (∀ p' seg', default [] (seg_heroes seg') = [] →
              process_segment name p' seg' = p').
Proof.
  intros name p own Hin Ht Hn Hh.
  assert (Hagg : aggregated_under name "Unknown" seg).
  { unfold aggregated_under. by rewrite Hh. }
  assert (His : is_aggregated name seg)
    by (apply is_aggregated_iff; by exists "Unknown").
  assert (Hown : seg ∈ own) by by apply list_elem_of_filter.
  split_and!.
  - assert (Hpos : 0 < games_under name "Unknown" (concat matches)).
    { unfold games_under.
      assert (seg ∈ filter (aggregated_under name "Unknown") (concat matches))
        as Hf by by apply list_elem_of_filter.
      destruct (filter (aggregated_under name "Unknown") (concat matches));
        [by apply elem_of_nil in Hf|]. cbn. lia. }
    pose proof (aggregation_invariant name (concat matches) "Unknown") as Hinv.
    cbn zeta in Hinv. subst p. rewrite extract_player_stats_concat.
    fold name. destruct (assoc "Unknown" _) as [h|]; [|lia].
    destruct Hinv as (? & ? & ? & ?). exists h. split_and!; try done. lia.
  - done.
  - subst p. rewrite extract_player_stats_concat.
    by destruct (profile_totals_fold name (concat matches)) as (_ & ? & _).
  - subst p. rewrite extract_player_stats_concat.
    by destruct (profile_totals_fold name (concat matches)) as (_ & _ & ?).
  - subst p. rewrite extract_player_stats_concat.
    destruct (profile_totals_fold name (concat matches)) as (_ & Hg & _).
    cbn zeta in Hg. fold name. rewrite Hg. fold own.
    destruct own; [by apply elem_of_nil in Hown|]. cbn. lia.
  - intros p'. cbn zeta.
    destruct (process_segment_totals name p' seg His) as (_ & Hg & Hw).
    split; [done|]. split; [done|].
    rewrite (process_segment_lookup name "Unknown" "Unknown" p' seg Hagg).
    by rewrite decide_True.
  - intros p' seg' Hnil. apply process_segment_skip.
    intros hero (_ & _ & Hhd). by rewrite Hnil in Hhd.
Qed.

Lemma nameless_hero_is_Unknown_witness :
  let p := extract_player_stats [[nameless_segment]] "alice" in
  (∃ h, assoc "Unknown" (hero_stats p) = Some h ∧ role h = "Unknown" ∧
        games_played h = 1) ∧
  total_games p = 1 ∧ total_wins p = 1.
Proof.
  destruct (nameless_hero_is_Unknown [[nameless_segment]] "alice"
              nameless_segment [])
    as ((h & Hh & _ & Hr & Hg & _) & (_ & Hgames & Hwins & _) & _).
  - vm_compute. left.
  - reflexivity.
  - reflexivity.
  - reflexivity.
  - split; [|split; [exact Hgames|exact Hwins]].
    exists h. split; [exact Hh|]. split; [exact Hr|]. exact Hg.
Defined.

(** ** Rates of the records the program holds *)

(** A record that has been aggregated has played a game; a record without
    a game is the one just created. *)
Lemma held_games (h : HeroStats) :
  held h →
  0 ≤ games_played h ∧
  (games_played h = 0 → h = new_HeroStats (hero_name h) (role h)).
Proof.
  induction 1 as [name r|seg w h Hh [IH0 _]]; [done|].
  cbn. split; lia.
Qed.

(** Every entry of a profile built from match data is such a record. *)
Lemma fold_entries_held (name : string) (segs : list Segment) (k : string)
    (h : HeroStats) :
  assoc k (hero_stats (foldl (process_segment name)
                         (mkPlayerProfile name [] 0 0) segs)) = Some h →
  held h.
Proof.
  revert k h. induction segs as [|seg segs IH] using rev_ind; [done|].
  intros k h. rewrite foldl_app. cbn [foldl].
  set (p := foldl (process_segment name) _ segs) in *.
  destruct (aggregated_or_skipped name seg) as [[hero Hagg]|Hno];
    [|rewrite process_segment_skip by done; apply IH].
  rewrite (process_segment_lookup _ hero _ _ _ Hagg).
  case_decide; [|apply IH]. intros [= <-]. apply held_aggregate.
  destruct (assoc hero (hero_stats p)) as [h0|] eqn:Hh0; cbn.
  - by eapply IH.
  - apply held_new.
Qed.

(** The hypothesis matters: a record with time played but no game, which
    the program never builds, has a damage rate other than 0, since the
    per-minute rates are guarded by the time played. *)
Lemma idle_hero_not_held :
  ¬ held idle_hero ∧ games_played idle_hero = 0 ∧
  ∃ d, avg_damage_per_min idle_hero = Ok d ∧ ¬ (d == 0)%Q.
Proof.
  split; [|split; [done|]].
  - intros [_ Hnew]%held_games. specialize (Hnew eq_refl). discriminate Hnew.
  - eexists. split; [vm_compute; reflexivity|].
    intros Hd. vm_compute in Hd. discriminate.
Qed.

(** C8: every [HeroStats] of the program is created with its defaults and
    changed only by aggregating a segment, which counts a game (the entries
    of every extracted profile are such records). For such a record with
    [games_played = 0] the win rate, the KDA and the three per-minute rates
    are 0, the KDA being (kills + assists) / max(deaths, 1). For every
    record whatsoever, built or not, none of the five rates raises: no zero
    denominator is reached. *)
Theorem rates_without_games (h : HeroStats) :
  held h →
  (games_played h = 0 →
   win_rate h = Ok 0%Q ∧
   avg_damage_per_min h = Ok 0%Q ∧ avg_healing_per_min h = Ok 0%Q ∧
   avg_blocked_per_min h = Ok 0%Q ∧
   ∃ k, kda h = Ok k ∧ (k == 0)%Q) ∧
  (∀ matches hint name h',
     (name, h') ∈ hero_stats (extract_player_stats matches hint) → held h') ∧
  (∀ h' : HeroStats,
     kda h' = Ok (inject_Z (total_kills h' + total_assists h')
                  / inject_Z (Z.max (total_deaths h') 1))%Q ∧
     ∃ w d e b, win_rate h' = Ok w ∧ avg_damage_per_min h' = Ok d ∧
                avg_healing_per_min h' = Ok e ∧
                avg_blocked_per_min h' = Ok b).
Proof.
  intros Hheld. split_and!.
  - intros Hg. destruct (held_games h Hheld) as [_ Hnew].
    rewrite (Hnew Hg). split_and!; try reflexivity.
    eexists. split; [reflexivity|]. reflexivity.
  - intros matches hint name h' Hin.
    apply assoc_elem in Hin; [|apply extract_player_stats_unique_keys].
    rewrite extract_player_stats_concat in Hin.
    by eapply fold_entries_held.
  - intros h'. split; [by rewrite kda_ok|].
    unfold avg_damage_per_min, avg_healing_per_min, avg_blocked_per_min.
    rewrite win_rate_ok, !per_min_ok. by eexists _, _, _, _.
Qed.

Lemma rates_without_games_witness :
  held (new_HeroStats "Thor" "Vanguard") ∧
  win_rate (new_HeroStats "Thor" "Vanguard") = Ok 0%Q ∧
  avg_blocked_per_min (new_HeroStats "Thor" "Vanguard") = Ok 0%Q.
Proof.
  split; [apply held_new|].
  destruct (rates_without_games (new_HeroStats "Thor" "Vanguard"))
    as (Hzero & _); [apply held_new|].
  destruct (Hzero eq_refl) as (Hw & _ & _ & Hb & _).
  split; [exact Hw|exact Hb].
Defined.

(** ** Loops with exceptions *)

Lemma foldlM_app {A B} (f : A → B → Res A) (a : A) (l1 l2 : list B) :
  foldlM f a (l1 ++ l2) = (a' ← foldlM f a l1; foldlM f a' l2).
Proof.
  revert a. induction l1 as [|x l1 IH]; intros a; [done|].
  cbn. destruct (f a x); [apply IH|done].
Qed.

(** A loop whose body never raises is a plain fold. *)
Lemma foldlM_Ok {A B} (f : A → B → Res A) (g : A → B → A) (a : A) (l : list B) :
  (∀ a x, x ∈ l → f a x = Ok (g a x)) → foldlM f a l = Ok (foldl g a l).
Proof.
  revert a. induction l as [|x l IH]; intros a Hf; [done|].
  cbn. rewrite Hf by left. cbn. apply IH.
  intros a' y Hy. apply Hf. by right.
Qed.

(** ** Role orderings are rearrangements of the role list *)

Lemma selections_Permutation {A} (l : list A) (x : A) (r : list A) :
  (x, r) ∈ selections l → l ≡ₚ x :: r.
Proof.
  revert x r. induction l as [|y l IH]; intros x r Hin; cbn in Hin.
  - by apply elem_of_nil in Hin.
  - apply elem_of_cons in Hin as [Heq|Hin].
    + by simplify_eq.
    + apply list_elem_of_fmap in Hin as ([x' r'] & Heq & Hin).
      cbn in Heq. simplify_eq. rewrite (IH _ _ Hin). apply Permutation_swap.
Qed.

Lemma permutations_n_Permutation {A} (n : nat) (l o : list A) :
  length l = n → o ∈ permutations_n n l → o ≡ₚ l.
Proof.
  revert l o. induction n as [|n IH]; intros l o Hlen Hin; cbn in Hin.
  - apply list_elem_of_singleton in Hin as ->.
    by destruct l.
  - apply list_elem_of_bind in Hin as ([x r] & Hin & Hsel).
    apply list_elem_of_fmap in Hin as (o' & -> & Hin). cbn in *.
    pose proof (selections_Permutation _ _ _ Hsel) as Hp.
    rewrite Hp. constructor. apply IH; [|done].
    apply Permutation_length in Hp. cbn in Hp. lia.
Qed.

(** ** One role ordering *)

Lemma first_available_find (options : list (string * Q)) (earlier : list string) :
  first_available options (list_to_set earlier)
  = snd <$> list_find (λ hs, hs.1 ∉ earlier) options.
Proof.
  induction options as [|[h s] options IH]; [done|].
  cbn. destruct (decide (h ∉ earlier)) as [Hn|Hin].
  - rewrite decide_True; [done|]. by rewrite elem_of_list_to_set.
  - rewrite decide_False; [|by rewrite elem_of_list_to_set].
    rewrite IH. by destruct (list_find _ options).
Qed.

Lemma role_options_lookup
    (opts : gmap string (gmap string (list (string * Q))))
    (name r : string) (po : gmap string (list (string * Q)))
    (ol : list (string * Q)) :
  opts !! name = Some po → po !! r = Some ol → role_options opts name r = ol.
Proof. intros Hn Hr. unfold role_options. rewrite Hn. cbn. by rewrite Hr. Qed.

(** The loop over the players, started in the middle: as long as the
    lookups succeed it follows the greedy choice. *)
Lemma assign_players_greedy
    (opts : gmap string (gmap string (list (string * Q))))
    (ra : list string) (names : list string) :
  ∀ (k : nat) (a : gmap string (string * string)) (t : Q)
    (earlier : list string) (ps : list (nat * string)),
  (k + length names ≤ length ra)%nat →
  (∀ name r, name ∈ names → r ∈ ra →
             ∃ po, opts !! name = Some po ∧ is_Some (po !! r)) →
  assign_players opts ra (zip (seq k (length names)) names ++ ps) a t
    (list_to_set earlier)
  = match greedy_picks opts earlier (zip names (drop k ra)) with
    | None => Ok None
    | Some picks =>
        assign_players opts ra ps
          (record_assignment a (zip names (zip picks.*1 (drop k ra))))
          (sum_scores t picks.*2)
          (list_to_set (earlier ++ picks.*1))
    end.
Proof.
  induction names as [|name names IH]; intros k a t earlier ps Hlen Hopts.
  { cbn. by rewrite app_nil_r. }
  cbn in Hlen.
  destruct (lookup_lt_is_Some_2 ra k) as [r Hr]; [lia|].
  rewrite (drop_S _ _ _ Hr). cbn.
  unfold py_index. rewrite Hr. cbn.
  destruct (Hopts name r) as (po & Hpo & [ol Hol]);
    [by left|by eapply list_elem_of_lookup_2|].
  unfold py_getitem. rewrite Hpo. cbn. rewrite Hol. cbn.
  rewrite (role_options_lookup _ _ _ _ _ Hpo Hol).
  rewrite first_available_find.
  destruct (list_find _ ol) as [[i [h s]]|]; cbn; [|done].
  replace ({[h]} ∪ list_to_set earlier : gset string)
    with (list_to_set (earlier ++ [h]) : gset string)
    by (rewrite list_to_set_snoc_L; apply (comm_L _)).
  rewrite IH; [|lia|intros ????; apply Hopts; [by right|done]].
  destruct (greedy_picks opts (earlier ++ [h]) _) as [picks|]; cbn; [|done].
  by rewrite <- (assoc_L (++)).
Qed.

Lemma enumerate_app {A} (l1 l2 : list A) :
  enumerate (l1 ++ l2)
  = zip (seq 0 (length l1)) l1 ++ zip (seq (length l1) (length l2)) l2.
Proof.
  unfold enumerate. rewrite length_app, seq_app.
  by rewrite zip_with_app by by rewrite length_seq.
Qed.

(** With at most as many players as roles in the ordering, and an option
    list for every player and role, the ordering is the greedy
    candidate. *)
Lemma try_ordering_greedy
    (names : list string)
    (opts : gmap string (gmap string (list (string * Q))))
    (ra : list string) :
  (length names ≤ length ra)%nat →
  (∀ name r, name ∈ names → r ∈ ra →
             ∃ po, opts !! name = Some po ∧ is_Some (po !! r)) →
  try_ordering names opts ra = Ok (greedy_candidate names opts ra).
Proof.
  intros Hlen Hopts. unfold try_ordering, greedy_candidate, enumerate.
  pose proof (assign_players_greedy opts ra names 0 ∅ 0%Q [] [] Hlen Hopts)
    as Hg.
  rewrite app_nil_r, drop_0 in Hg. cbn in Hg. rewrite Hg.
  by destruct (greedy_picks opts [] (zip names ra)).
Qed.

(** With more players than roles, the ordering either stops at a player
    without an unused hero, or raises at the first player beyond the
    ordering. *)
Lemma try_ordering_overflow
    (names : list string)
    (opts : gmap string (gmap string (list (string * Q))))
    (ra : list string) :
  (length ra < length names)%nat →
  (∀ name r, name ∈ names → r ∈ ra →
             ∃ po, opts !! name = Some po ∧ is_Some (po !! r)) →
  try_ordering names opts ra
  = match greedy_candidate (take (length ra) names) opts ra with
    | None => Ok None
    | Some _ => Raise IndexError
    end.
Proof.
  intros Hlen Hopts. unfold try_ordering, greedy_candidate.
  rewrite <- (take_drop (length ra) names) at 1.
  rewrite enumerate_app.
  assert (Hlt : length (take (length ra) names) = length ra)
    by (rewrite length_take; lia).
  rewrite (assign_players_greedy opts ra _ 0 ∅ 0%Q []);
    [|lia|intros ?? ?%subseteq_take ?; by apply Hopts].
  rewrite drop_0. cbn. destruct (greedy_picks opts [] _) as [picks|]; cbn; [|done].
  destruct (drop (length ra) names) as [|name rest] eqn:Hd.
  { apply (f_equal length) in Hd. rewrite length_drop in Hd. cbn in Hd. lia. }
  cbn. unfold py_index. rewrite Hlt.
  by rewrite lookup_ge_None_2.
Qed.

(** ** The stable descending sort *)

Section Sort.
Context {A : Type}.
Implicit Types (l : list (Q * A)) (k : Q) (x : A).

Lemma insert_desc_Permutation k x l : insert_desc k x l ≡ₚ (k, x) :: l.
Proof.
  induction l as [|[k' y] l IH]; [done|].
  cbn. destruct (Qltb k k'); [|done].
  rewrite IH. apply Permutation_swap.
Qed.

Lemma sort_desc_Permutation l : sort_desc l ≡ₚ l.
Proof.
  induction l as [|[k x] l IH]; [done|].
  cbn. by rewrite insert_desc_Permutation, IH.
Qed.

Lemma insert_desc_sorted k x l :
  StronglySorted key_ge l → StronglySorted key_ge (insert_desc k x l).
Proof.
  induction l as [|[k' y] l IH]; intros Hs.
  { repeat constructor. }
  apply StronglySorted_inv in Hs as [Hs Hall]. cbn.
  destruct (Qltb k k') eqn:E.
  - constructor; [by apply IH|].
    rewrite insert_desc_Permutation. constructor; [|done].
    unfold key_ge. cbn. apply Qlt_le_weak. by apply Qltb_lt.
  - apply Qltb_ge in E.
    constructor; [by constructor|].
    constructor; [done|].
    eapply Forall_impl; [exact Hall|].
    intros [k'' z]. unfold key_ge. cbn. intros Hle. by eapply Qle_trans.
Qed.

Lemma sort_desc_sorted l : StronglySorted key_ge (sort_desc l).
Proof.
  induction l as [|[k x] l IH]; [constructor|].
  cbn. by apply insert_desc_sorted.
Qed.

(** Stability: selecting elements commutes with sorting. *)
Lemma insert_desc_filter (P : A → Prop) `{!∀ x, Decision (P x)} k x l :
  StronglySorted key_ge l →
  filter (λ kx, P kx.2) (insert_desc k x l)
  = if decide (P x) then insert_desc k x (filter (λ kx, P kx.2) l)
    else filter (λ kx, P kx.2) l.
Proof.
  induction l as [|[k' y] l IH]; intros Hs.
  { cbn [insert_desc]. rewrite filter_cons, !filter_nil. cbn [snd].
    by case_decide. }
  apply StronglySorted_inv in Hs as [Hs Hall]. cbn [insert_desc].
  destruct (Qltb k k') eqn:E.
  - rewrite !(filter_cons _ (k', y)). cbn [snd]. rewrite IH by done.
    repeat case_decide; try done. cbn [insert_desc]. by rewrite E.
  - rewrite (filter_cons _ (k, x)), !(filter_cons _ (k', y)). cbn [snd].
    destruct (decide (P x)) as [HPx|HPx]; [|done].
    destruct (decide (P y)) as [HPy|HPy]; [cbn [insert_desc]; by rewrite E|].
    assert (Hfront : ∀ l', Forall (key_ge (k', y)) l' →
                           insert_desc k x l' = (k, x) :: l').
    { intros [|[k'' z] l'] Hl'; [done|].
      cbn. apply Forall_cons in Hl' as [Hle _]. unfold key_ge in Hle.
      cbn in Hle. rewrite (proj2 (Qltb_ge k k'')); [done|].
      apply Qltb_ge in E. by eapply Qle_trans. }
    rewrite Hfront; [done|].
    rewrite Forall_forall in Hall |- *.
    intros kz Hin. apply Hall. by eapply list_elem_of_filter.
Qed.

Lemma sort_desc_filter (P : A → Prop) `{!∀ x, Decision (P x)} l :
  filter (λ kx, P kx.2) (sort_desc l) = sort_desc (filter (λ kx, P kx.2) l).
Proof.
  induction l as [|[k x] l IH]; [done|].
  cbn [sort_desc]. rewrite insert_desc_filter by apply sort_desc_sorted.
  rewrite filter_cons. cbn [snd]. case_decide; [|done].
  cbn [sort_desc]. by rewrite IH.
Qed.

End Sort.

Lemma filter_fmap {A B} (f : A → B) (P : B → Prop) `{!∀ y, Decision (P y)}
    (l : list A) :
  filter P (f <$> l) = f <$> filter (λ x, P (f x)) l.
Proof.
  induction l as [|x l IH]; [done|].
  rewrite fmap_cons, !filter_cons, IH. by case_decide.
Qed.

(** ** Rankings *)

Lemma ranked_Permutation (l : list (string * HeroStats)) : ranked l ≡ₚ l.
Proof.
  unfold ranked. rewrite sort_desc_Permutation.
  rewrite <- list_fmap_compose. by rewrite list_fmap_id.
Qed.

Lemma ranked_filter (P : string * HeroStats → Prop) `{!∀ x, Decision (P x)}
    (l : list (string * HeroStats)) :
  filter P (ranked l) = ranked (filter P l).
Proof.
  unfold ranked. rewrite filter_fmap.
  rewrite (sort_desc_filter P). by rewrite filter_fmap.
Qed.

(** Sorting by a key puts the keys in descending order. *)
Lemma sort_by_key_descending {A} (f : A → Q) (l : list A) (i j : nat) (a b : A) :
  (i < j)%nat →
  (snd <$> sort_desc ((λ x, (f x, x)) <$> l)) !! i = Some a →
  (snd <$> sort_desc ((λ x, (f x, x)) <$> l)) !! j = Some b →
  (f b <= f a)%Q.
Proof.
  rewrite !list_lookup_fmap. intros Hij Ha Hb.
  destruct (sort_desc _ !! i) as [[ka a']|] eqn:Hi; [|done].
  destruct (sort_desc _ !! j) as [[kb b']|] eqn:Hj; [|done].
  cbn in Ha, Hb. simplify_eq.
  assert (Hk : Forall (λ kx, kx.1 = f kx.2)
                 (sort_desc ((λ x, (f x, x)) <$> l))).
  { rewrite sort_desc_Permutation. apply Forall_fmap. by apply Forall_true. }
  rewrite Forall_lookup in Hk.
  pose proof (Hk _ _ Hi) as Hka. pose proof (Hk _ _ Hj) as Hkb.
  cbn in Hka, Hkb. subst ka kb.
  pose proof (sort_desc_sorted ((λ x, (f x, x)) <$> l)) as Hs.
  rewrite <- (take_drop_middle _ _ _ Hj) in Hs.
  apply StronglySorted_app_1_elem_of with (x1 := (f a, a))
    (x2 := (f b, b)) in Hs; [done| |by left].
  apply elem_of_take. exists i. by split.
Qed.

(** A ranking is in descending order of score. *)
Lemma ranked_descending (l : list (string * HeroStats)) (i j : nat)
    (a b : string * HeroStats) :
  (i < j)%nat → ranked l !! i = Some a → ranked l !! j = Some b →
  (score b.2 <= score a.2)%Q.
Proof. apply (sort_by_key_descending (λ x, score x.2)). Qed.

Lemma sort_by_score_Permutation (l : list Candidate) : sort_by_score l ≡ₚ l.
Proof.
  unfold sort_by_score. rewrite sort_desc_Permutation.
  rewrite <- list_fmap_compose. by rewrite list_fmap_id.
Qed.

Lemma sort_by_score_descending (l : list Candidate) :
  descending (sort_by_score l).
Proof. intros i j ci cj. apply (sort_by_key_descending fst). Qed.

Lemma descending_take (n : nat) (l : list Candidate) :
  descending l → descending (take n l).
Proof.
  intros Hd i j ci cj Hij [Hi _]%lookup_take_Some [Hj _]%lookup_take_Some.
  by eapply Hd.
Qed.

(** ** Profile queries never raise *)

Lemma sorted_by_score (l : list (string * HeroStats)) :
  sorted_by (λ x, performance_score x.2) l = Ok (ranked l).
Proof.
  unfold sorted_by, ranked.
  rewrite (traverse_Ok _ (λ x, (score x.2, x))); [done|].
  intros x _. by rewrite performance_score_ok.
Qed.

Lemma get_best_heroes_by_role_ok (p : PlayerProfile) (r : string) (mg : Z) :
  get_best_heroes_by_role p r mg
  = Ok (ranked (filter (λ x, role x.2 = r ∧ mg ≤ games_played x.2)
                       (hero_stats p))).
Proof. apply sorted_by_score. Qed.

Lemma get_top_heroes_ok (p : PlayerProfile) (n mg : Z) :
  get_top_heroes p n mg
  = Ok (py_take n (ranked (filter (λ x, mg ≤ games_played x.2) (hero_stats p)))).
Proof. unfold get_top_heroes. by rewrite sorted_by_score. Qed.

(** ** Option sets *)

Lemma py_getitem_Some {V} (d : gmap string V) (k : string) (v : V) :
  d !! k = Some v → py_getitem d k = Ok v.
Proof. intros Hk. unfold py_getitem. by rewrite Hk. Qed.

Lemma append_scored_ok (r : string) (heroes : list (string * HeroStats))
    (opts : gmap string (list (string * Q))) (cur : list (string * Q)) :
  opts !! r = Some cur →
  append_scored r heroes opts = Ok (<[r := cur ++ (scored <$> heroes)]> opts).
Proof.
  unfold append_scored.
  revert opts cur. induction heroes as [|x heroes IH]; intros opts cur Hcur.
  { cbn. by rewrite app_nil_r, insert_id. }
  cbn [foldlM]. rewrite performance_score_ok, bind_Ok.
  rewrite (py_getitem_Some _ _ _ Hcur), bind_Ok, bind_Ok.
  rewrite (IH _ (cur ++ [(x.1, score x.2)])) by apply lookup_insert_eq.
  by rewrite insert_insert_eq, <- (assoc_L (++)).
Qed.

Lemma add_role_top3_ok (p : PlayerProfile) (mg : Z)
    (opts : gmap string (list (string * Q))) (r : string) :
  opts !! r = Some [] →
  add_role_top3 p mg opts r
  = Ok (<[r := scored <$> take 3 (ranked (filter
                (λ x, role x.2 = r ∧ mg ≤ games_played x.2) (hero_stats p)))]>
          opts).
Proof.
  intros Hr. unfold add_role_top3.
  rewrite get_best_heroes_by_role_ok, bind_Ok.
  by rewrite (append_scored_ok _ _ _ [] Hr).
Qed.

Lemma elem_of_role_keys (r : string) :
  r ∈ role_keys ↔ r = "Vanguard" ∨ r = "Duelist" ∨ r = "Strategist".
Proof. unfold role_keys. rewrite !elem_of_cons, elem_of_nil. tauto. Qed.

(** After the first loop every role holds its top 3. *)
Lemma top3_loop (p : PlayerProfile) (mg : Z) :
  ∃ opts, foldlM (add_role_top3 p mg) empty_options role_keys = Ok opts ∧
    ∀ r, opts !! r =
         if decide (r ∈ role_keys)
         then Some (scored <$> take 3 (ranked (filter
                      (λ x, role x.2 = r ∧ mg ≤ games_played x.2)
                      (hero_stats p))))
         else None.
Proof.
  eexists. split.
  - unfold role_keys. cbn [foldlM].
    rewrite add_role_top3_ok, bind_Ok by reflexivity.
    rewrite add_role_top3_ok, bind_Ok
      by (by rewrite lookup_insert_ne).
    rewrite add_role_top3_ok, bind_Ok
      by (by rewrite !lookup_insert_ne).
    reflexivity.
  - intros r. unfold empty_options.
    destruct (decide (r ∈ role_keys)) as [Hr|Hr].
    + apply elem_of_role_keys in Hr as [-> | [-> | ->]].
      * do 2 (rewrite lookup_insert_ne by done). by rewrite lookup_insert_eq.
      * rewrite lookup_insert_ne by done. by rewrite lookup_insert_eq.
      * by rewrite lookup_insert_eq.
    + rewrite elem_of_role_keys in Hr.
      rewrite !lookup_insert_ne by (intros <-; tauto). done.
Qed.

Lemma add_top_hero_ok (opts : gmap string (list (string * Q)))
    (x : string * HeroStats) :
  add_top_hero opts x = Ok (add_top_hero_value opts x).
Proof.
  unfold add_top_hero, add_top_hero_value, scored.
  destruct (opts !! role x.2) as [cur|]; [|done].
  rewrite performance_score_ok, bind_Ok.
  by destruct (py_in _ cur).
Qed.

Lemma top_hero_loop_ok (opts : gmap string (list (string * Q)))
    (top : list (string * HeroStats)) :
  foldlM add_top_hero opts top = Ok (foldl add_top_hero_value opts top).
Proof. apply foldlM_Ok. intros. apply add_top_hero_ok. Qed.

(** The second loop keeps the keys, whatever the profile. *)
Lemma add_top_hero_keys (opts : gmap string (list (string * Q)))
    (top : list (string * HeroStats)) (r : string) :
  is_Some (foldl add_top_hero_value opts top !! r) ↔ is_Some (opts !! r).
Proof.
  revert opts. induction top as [|x top IH]; intros opts; [done|].
  cbn [foldl]. rewrite IH. unfold add_top_hero_value.
  destruct (opts !! role x.2) as [cur|] eqn:Hcur; [|done].
  destruct (py_in _ cur); [done|].
  destruct (decide (role x.2 = r)) as [<-|Hne].
  - rewrite lookup_insert_eq, Hcur. by split.
  - by rewrite lookup_insert_ne.
Qed.

(** Building the options of a player never raises, and every role is a
    key of the result. *)
Lemma build_options_keys (p : PlayerProfile) (mg : Z) :
  ∃ opts, build_options p mg = Ok opts ∧
          ∀ r, r ∈ role_keys → is_Some (opts !! r).
Proof.
  unfold build_options.
  destruct (top3_loop p mg) as (o1 & -> & Ho1). rewrite bind_Ok.
  rewrite get_top_heroes_ok, bind_Ok.
  rewrite top_hero_loop_ok. eexists. split; [done|]. intros r Hr.
  rewrite add_top_hero_keys, Ho1. by rewrite decide_True.
Qed.

Lemma build_player_options_keys (players : list PlayerProfile) (mg : Z) :
  ∃ po, build_player_options players mg = Ok po ∧
        ∀ p, p ∈ players →
             ∃ opts, po !! player_name p = Some opts ∧
                     ∀ r, r ∈ role_keys → is_Some (opts !! r).
Proof.
  unfold build_player_options.
  assert (Hgen : ∀ po0 : gmap string (gmap string (list (string * Q))),
    (∀ name opts, po0 !! name = Some opts →
                  ∀ r, r ∈ role_keys → is_Some (opts !! r)) →
    ∃ po, foldlM (λ po p, options ← build_options p mg;
                          Ok (<[player_name p := options]> po)) po0 players
          = Ok po ∧
      (∀ name opts, po !! name = Some opts →
                    ∀ r, r ∈ role_keys → is_Some (opts !! r)) ∧
      (∀ name, is_Some (po0 !! name) ∨ name ∈ player_name <$> players →
               is_Some (po !! name))).
  { induction players as [|p players IH]; intros po0 Hpo0.
    { exists po0. split_and!; [done..|].
      intros name [?|Hin]; [done|]. by apply elem_of_nil in Hin. }
    cbn [foldlM].
    destruct (build_options_keys p mg) as (o & -> & Ho). rewrite bind_Ok.
    destruct (IH (<[player_name p := o]> po0)) as (po & Hf & Hk & Hd).
    { intros name opts. rewrite lookup_insert.
      case_decide; [|by apply Hpo0]. intros [= <-]. exact Ho. }
    exists po. split_and!; [done..|].
    intros name Hname. apply Hd. rewrite lookup_insert.
    case_decide; [left; eauto|].
    rewrite fmap_cons, elem_of_cons in Hname.
    destruct Hname as [?|[?|?]]; [by left|congruence|by right]. }
  destruct (Hgen ∅) as (po & Hf & Hk & Hd).
  { intros ??. by rewrite lookup_empty. }
  exists po. split; [done|]. intros p Hp.
  destruct (Hd (player_name p)) as [opts Hopts].
  { right. by apply list_elem_of_fmap_2. }
  exists opts. split; [done|]. by eapply Hk.
Qed.

(** ** The contents of an option list *)


Lemma NoDup_fst_inj {A B} (l : list (A * B)) (k : A) (a b : B) :
  NoDup l.*1 → (k, a) ∈ l → (k, b) ∈ l → a = b.
Proof.
  induction l as [|[k' c] l IH]; intros Hnd Ha Hb.
  { by apply elem_of_nil in Ha. }
  rewrite fmap_cons in Hnd. apply NoDup_cons in Hnd as [Hk Hnd].
  apply elem_of_cons in Ha as [Ha|Ha], Hb as [Hb|Hb]; simplify_eq.
  - done.
  - destruct Hk. by apply (list_elem_of_fmap_2 fst _ (k', b)).
  - destruct Hk. by apply (list_elem_of_fmap_2 fst _ (k', a)).
  - by apply IH.
Qed.


Lemma tuple_eqb_refl (a : string * Q) : tuple_eqb a a = true.
Proof.
  unfold tuple_eqb. rewrite bool_decide_eq_true_2 by done.
  by apply Qeq_bool_iff.
Qed.

Lemma py_in_true (x : string * Q) (l : list (string * Q)) :
  py_in x l = true ↔ ∃ y, y ∈ l ∧ tuple_eqb x y = true.
Proof.
  unfold py_in. etrans; [apply existsb_exists|].
  split; intros (y & Hy & Heq); exists y; (split; [|done]);
    by apply list_elem_of_In.
Qed.

Section OptionSets.
Context (p : PlayerProfile) (mg : Z).
Hypothesis unique_keys : NoDup (hero_stats p).*1.


Lemma global_ranking_elem (x : string * HeroStats) :
  x ∈ global_ranking p mg ↔ mg ≤ games_played x.2 ∧ x ∈ hero_stats p.
Proof.
  unfold global_ranking. by rewrite ranked_Permutation, list_elem_of_filter.
Qed.

Lemma role_ranking_elem (r : string) (x : string * HeroStats) :
  x ∈ role_ranking p r mg
  ↔ (role x.2 = r ∧ mg ≤ games_played x.2) ∧ x ∈ hero_stats p.
Proof.
  unfold role_ranking. by rewrite ranked_Permutation, list_elem_of_filter.
Qed.

Lemma global_ranking_NoDup : NoDup (global_ranking p mg).*1.
Proof.
  unfold global_ranking. rewrite ranked_Permutation.
  eapply sublist_NoDup; [exact unique_keys|].
  apply fmap_sublist, sublist_filter.
Qed.


(** The membership test of the second loop looks for the hero name. *)
Lemma py_in_scored (x : string * HeroStats) (l : list (string * HeroStats)) :
  x ∈ hero_stats p → (∀ y, y ∈ l → y ∈ hero_stats p) →
  py_in (scored x) (scored <$> l) = true ↔ x.1 ∈ l.*1.
Proof.
  intros Hx Hl. rewrite py_in_true. split.
  - intros (y & Hy & Heq).
    apply list_elem_of_fmap in Hy as (z & -> & Hz).
    unfold tuple_eqb in Heq. apply andb_true_iff in Heq as [Hn _].
    apply bool_decide_eq_true in Hn. cbn in Hn. rewrite Hn.
    by apply list_elem_of_fmap_2.
  - intros Hin. apply list_elem_of_fmap in Hin as (z & Hn & Hz).
    assert (x = z) as <-.
    { destruct x as [k a], z as [k' b]. cbn in Hn. subst k'.
      f_equal. eapply NoDup_fst_inj; [exact unique_keys|done|by apply Hl]. }
    exists (scored x). split; [by apply list_elem_of_fmap_2|].
    apply tuple_eqb_refl.
Qed.

(** The second loop, from the options the first loop has built: every
    role holds its top 3, then the heroes of the role met so far whose
    name is not among those. *)
Lemma top_hero_loop (todo : list (string * HeroStats)) :
  ∀ (seen : list (string * HeroStats))
    (opts : gmap string (list (string * Q))),
  NoDup (seen ++ todo).*1 →
  (∀ x, x ∈ seen ++ todo → x ∈ hero_stats p) →
  (∀ r, opts !! r =
        if decide (r ∈ role_keys)
        then Some (scored <$>
               (take 3 (role_ranking p r mg)
                ++ filter (λ x, role x.2 = r
                                ∧ x.1 ∉ (take 3 (role_ranking p r mg)).*1)
                          seen))
        else None) →
  ∀ r, foldl add_top_hero_value opts todo !! r =
       if decide (r ∈ role_keys)
       then Some (scored <$>
              (take 3 (role_ranking p r mg)
               ++ filter (λ x, role x.2 = r
                               ∧ x.1 ∉ (take 3 (role_ranking p r mg)).*1)
                         (seen ++ todo)))
       else None.
Proof.
  induction todo as [|x todo IH]; intros seen opts Hnd Hsub Hopts r.
  { rewrite app_nil_r. apply Hopts. }
  cbn [foldl]. rewrite (cons_middle x seen todo), (assoc_L (++)).
  rewrite (cons_middle x seen todo), (assoc_L (++)) in Hnd, Hsub.
  apply IH; [done..|]. clear r IH. intros r.
  assert (Hx : x ∈ hero_stats p).
  { apply Hsub. rewrite !elem_of_app, list_elem_of_singleton. tauto. }
  assert (Hxseen : x.1 ∉ seen.*1).
  { rewrite !fmap_app in Hnd. apply NoDup_app in Hnd as [Hnd _].
    apply NoDup_app in Hnd as (_ & Hd & _).
    intros Hin. apply (Hd _ Hin). cbn. by left. }
  rewrite filter_app, filter_cons, filter_nil.
  unfold add_top_hero_value. rewrite (Hopts (role x.2)).
  destruct (decide (role x.2 ∈ role_keys)) as [Hk|Hk].
  - set (T := take 3 (role_ranking p (role x.2) mg)).
    destruct (py_in (scored x) _) eqn:Hpy.
    + apply py_in_scored in Hpy; [|done|].
      2:{ intros y [Hy|Hy]%elem_of_app.
          - by eapply role_ranking_elem, subseteq_take.
          - apply list_elem_of_filter in Hy as [_ Hy].
            apply Hsub. rewrite !elem_of_app. tauto. }
      rewrite fmap_app, elem_of_app in Hpy.
      destruct Hpy as [HT|Hf].
      2:{ destruct Hxseen.
          apply list_elem_of_fmap in Hf as (y & -> & Hy).
          apply list_elem_of_filter in Hy as [_ Hy].
          by apply list_elem_of_fmap_2. }
      rewrite Hopts. case_decide; [|done].
      rewrite decide_False; [by rewrite app_nil_r|].
      intros [<- Hn]. by apply Hn.
    + assert (HnT : x.1 ∉ T.*1).
      { intros HT. apply not_true_iff_false in Hpy. apply Hpy.
        apply py_in_scored; [done| |].
        - intros y [Hy|Hy]%elem_of_app.
          + by eapply role_ranking_elem, subseteq_take.
          + apply list_elem_of_filter in Hy as [_ Hy].
            apply Hsub. rewrite !elem_of_app. tauto.
        - rewrite fmap_app, elem_of_app. by left. }
      destruct (decide (role x.2 = r)) as [<-|Hne].
      * rewrite lookup_insert_eq, decide_True by done.
        rewrite decide_True by done.
        by rewrite !fmap_app, (assoc_L (++)).
      * rewrite lookup_insert_ne, Hopts by done.
        case_decide; [|done].
        rewrite decide_False; [by rewrite app_nil_r|]. by intros [? _].
  - rewrite Hopts. case_decide; [|done].
    rewrite decide_False; [by rewrite app_nil_r|].
    intros [Heq _]. by rewrite Heq in Hk.
Qed.

(** The option list of a role after both loops. *)
Lemma build_options_lookup (r : string) :
  r ∈ role_keys →
  ∃ opts, build_options p mg = Ok opts ∧
    opts !! r =
    Some (scored <$>
      (take 3 (role_ranking p r mg)
       ++ filter (λ x, role x.2 = r ∧ x.1 ∉ (take 3 (role_ranking p r mg)).*1)
                 (take 5 (global_ranking p mg)))).
Proof.
  intros Hr. unfold build_options.
  destruct (top3_loop p mg) as (o1 & -> & Ho1). rewrite bind_Ok.
  rewrite get_top_heroes_ok, bind_Ok, top_hero_loop_ok.
  eexists. split; [done|].
  change (py_take 5 ?l) with (take 5 l).
  fold (global_ranking p mg).
  rewrite (top_hero_loop (take 5 (global_ranking p mg)) []).
  - by rewrite decide_True.
  - rewrite app_nil_l, fmap_take.
    eapply sublist_NoDup; [apply global_ranking_NoDup|apply sublist_take].
  - intros x Hx%subseteq_take. by apply global_ranking_elem in Hx as [_ ?].
  - intros r'. rewrite Ho1, filter_nil, app_nil_r. by case_decide.
Qed.


End OptionSets.



(** The four Duelists of that profile: the top 3 and the fourth, which is
    in the global top 5. *)
Example duelist_main_options :
  fst <$> default [] (ok_or ∅ (build_options duelist_main 2) !! "Duelist")
  = ["Hela"; "Storm"; "Namor"; "Blade"].
Proof. vm_compute. reflexivity. Qed.

(** ** The greedy choice *)

Lemma options_defined_lookup
    (opts : gmap string (gmap string (list (string * Q))))
    (names roles : list string) (name r : string) :
  options_defined opts names roles → name ∈ names → r ∈ roles →
  ∃ po, opts !! name = Some po ∧ is_Some (po !! r).
Proof.
  intros Hd Hn Hr. unfold options_defined in Hd.
  rewrite Forall_forall in Hd. specialize (Hd _ Hn).
  rewrite Forall_forall in Hd. specialize (Hd _ Hr).
  destruct (opts !! name) as [po|]; [by exists po|].
  by destruct Hd.
Qed.

(** Every pick is the first option of the player that is not a hero of an
    earlier pick. *)
Lemma greedy_picks_first_fit
    (opts : gmap string (gmap string (list (string * Q))))
    (nrs : list (string * string)) :
  ∀ earlier picks,
  greedy_picks opts earlier nrs = Some picks →
  length picks = length nrs ∧
  ∀ i name r h s,
    nrs !! i = Some (name, r) → picks !! i = Some (h, s) →
    ∃ j, role_options opts name r !! j = Some (h, s) ∧
         (h ∉ earlier ++ (take i picks).*1) ∧
         ∀ j' y, role_options opts name r !! j' = Some y → (j' < j)%nat →
                 y.1 ∈ earlier ++ (take i picks).*1.
Proof.
  induction nrs as [|[name0 r0] nrs IH]; intros earlier picks Hg.
  { cbn in Hg. simplify_eq. split; [done|]. intros i ?????. done. }
  cbn in Hg.
  destruct (list_find _ (role_options opts name0 r0)) as [[j0 [h0 s0]]|] eqn:Hf;
    [|done].
  cbn in Hg.
  destruct (greedy_picks opts (earlier ++ [h0]) nrs) as [picks'|] eqn:Hg';
    [|done].
  cbn in Hg. simplify_eq.
  destruct (IH _ _ Hg') as [Hlen Hpos].
  split; [cbn; by rewrite Hlen|].
  intros [|i] name r h s Hn Hp; cbn in Hn, Hp; simplify_eq.
  - apply list_find_Some in Hf as (Hj0 & Hnot & Hmin).
    exists j0. cbn. rewrite app_nil_r. split_and!; [done..|].
    intros j' y Hy Hlt. specialize (Hmin _ _ Hy Hlt).
    by apply dec_stable in Hmin.
  - destruct (Hpos _ _ _ _ _ Hn Hp) as (j & Hj & Hnot & Hmin).
    exists j. cbn [take fmap list_fmap].
    rewrite (cons_middle h0), (assoc_L (++)). done.
Qed.

(** When there is no result, some player finds every option taken by the
    picks of the players before. *)
Lemma greedy_picks_None
    (opts : gmap string (gmap string (list (string * Q))))
    (nrs : list (string * string)) :
  ∀ earlier,
  greedy_picks opts earlier nrs = None →
  ∃ i name r picks,
    nrs !! i = Some (name, r) ∧
    greedy_picks opts earlier (take i nrs) = Some picks ∧
    ∀ y, y ∈ role_options opts name r → y.1 ∈ earlier ++ picks.*1.
Proof.
  induction nrs as [|[name0 r0] nrs IH]; intros earlier Hg; [done|].
  cbn in Hg.
  destruct (list_find _ (role_options opts name0 r0)) as [[j0 [h0 s0]]|] eqn:Hf.
  - cbn in Hg.
    destruct (greedy_picks opts (earlier ++ [h0]) nrs) as [picks'|] eqn:Hg';
      [done|].
    destruct (IH _ Hg') as (i & name & r & picks & Hn & Hp & Hall).
    exists (S i), name, r, ((h0, s0) :: picks). split; [done|].
    cbn. rewrite Hf. cbn. rewrite Hp. cbn. split; [done|].
    intros y Hy. rewrite (cons_middle h0), (assoc_L (++)). by apply Hall.
  - exists 0%nat, name0, r0, []. split; [done|]. split; [done|].
    apply list_find_None in Hf. rewrite Forall_forall in Hf.
    intros y Hy. rewrite app_nil_r. specialize (Hf _ Hy).
    by apply dec_stable in Hf.
Qed.

Lemma record_assignment_notin (a : gmap string (string * string))
    (l : list (string * (string * string))) (k : string) :
  k ∉ l.*1 → record_assignment a l !! k = a !! k.
Proof.
  revert a. induction l as [|[k0 v0] l IH]; intros a Hk; [done|].
  rewrite fmap_cons, not_elem_of_cons in Hk. destruct Hk as [Hne Hk].
  cbn. rewrite IH by done. by rewrite lookup_insert_ne.
Qed.

Lemma record_assignment_lookup (a : gmap string (string * string))
    (l : list (string * (string * string))) (k : string) (v : string * string) :
  NoDup l.*1 → (k, v) ∈ l → record_assignment a l !! k = Some v.
Proof.
  revert a. induction l as [|[k0 v0] l IH]; intros a Hnd Hin.
  { by apply elem_of_nil in Hin. }
  rewrite fmap_cons in Hnd. apply NoDup_cons in Hnd as [Hk0 Hnd].
  apply elem_of_cons in Hin as [Heq|Hin].
  - simplify_eq. cbn. rewrite record_assignment_notin by done.
    apply lookup_insert_eq.
  - cbn. by apply IH.
Qed.

Lemma record_assignment_size (a : gmap string (string * string))
    (l : list (string * (string * string))) :
  (size (record_assignment a l) ≤ size a + length l)%nat.
Proof.
  revert a. induction l as [|[k0 v0] l IH]; intros a; [cbn; lia|].
  cbn. etrans; [apply IH|].
  rewrite map_size_insert. destruct (a !! k0); cbn; lia.
Qed.

(** ** The search over the orderings of a template *)

Section SearchLoops.
Context `{SetIter}.

Lemma role_orderings_Permutation (tc : list (string * Z)) (ra : list string) :
  ra ∈ role_orderings tc → ra ≡ₚ roles_needed tc.
Proof.
  unfold role_orderings. rewrite set_iter_elem.
  by apply permutations_n_Permutation.
Qed.

(** The loop over the orderings when no ordering raises. *)
Lemma find_best_assignment_Ok (players : list PlayerProfile)
    (opts : gmap string (gmap string (list (string * Q))))
    (tc : list (string * Z)) (g : list string → option Candidate) :
  (∀ ra, ra ∈ role_orderings tc →
         try_ordering (player_name <$> players) opts ra = Ok (g ra)) →
  find_best_assignment players opts tc = Ok (omap g (role_orderings tc)).
Proof.
  unfold find_best_assignment.
  generalize (role_orderings tc) as os.
  assert (Hgen : ∀ os acc,
    (∀ ra, ra ∈ os →
           try_ordering (player_name <$> players) opts ra = Ok (g ra)) →
    foldlM (λ results ra,
              c ← try_ordering (player_name <$> players) opts ra;
              Ok (match c with
                  | Some cand => results ++ [cand]
                  | None => results
                  end)) acc os
    = Ok (acc ++ omap g os)).
  { induction os as [|ra os IH]; intros acc Hos.
    { cbn. by rewrite app_nil_r. }
    cbn [foldlM]. rewrite Hos, bind_Ok, bind_Ok by left.
    rewrite IH by (intros; apply Hos; by right).
    cbn [omap list_omap]. destruct (g ra); [|done].
    by rewrite <- (assoc_L (++)). }
  intros os Hos. by rewrite Hgen.
Qed.

(** The loop over the orderings when every ordering that does not stop
    early raises. *)
Lemma find_best_assignment_overflow (players : list PlayerProfile)
    (opts : gmap string (gmap string (list (string * Q))))
    (tc : list (string * Z)) (g : list string → option Candidate) :
  (∀ ra, ra ∈ role_orderings tc →
         try_ordering (player_name <$> players) opts ra
         = match g ra with None => Ok None | Some _ => Raise IndexError end) →
  find_best_assignment players opts tc
  = if decide (Exists (λ ra, is_Some (g ra)) (role_orderings tc))
    then Raise IndexError else Ok [].
Proof.
  unfold find_best_assignment.
  generalize (role_orderings tc) as os.
  assert (Hgen : ∀ os acc,
    (∀ ra, ra ∈ os →
           try_ordering (player_name <$> players) opts ra
           = match g ra with None => Ok None | Some _ => Raise IndexError end) →
    foldlM (λ results ra,
              c ← try_ordering (player_name <$> players) opts ra;
              Ok (match c with
                  | Some cand => results ++ [cand]
                  | None => results
                  end)) acc os
    = if decide (Exists (λ ra, is_Some (g ra)) os)
      then Raise IndexError else Ok acc).
  { induction os as [|ra os IH]; intros acc Hos.
    { cbn. by rewrite decide_False by by intros ?%Exists_nil. }
    cbn [foldlM]. rewrite Hos by left.
    destruct (g ra) as [c|] eqn:Hg.
    - rewrite decide_True; [done|]. left. by rewrite Hg.
    - rewrite bind_Ok, bind_Ok, IH by (intros; apply Hos; by right).
      apply decide_ext. rewrite Exists_cons, Hg.
      split; [tauto|]. intros [[? [=]]|?]. done. }
  intros os Hos. by apply Hgen.
Qed.

(** Every candidate of a template comes from one of its orderings. *)
Lemma find_best_assignment_elem (players : list PlayerProfile)
    (opts : gmap string (gmap string (list (string * Q))))
    (tc : list (string * Z)) (results : list Candidate) (c : Candidate) :
  find_best_assignment players opts tc = Ok results → c ∈ results →
  ∃ ra, ra ∈ role_orderings tc ∧
        try_ordering (player_name <$> players) opts ra = Ok (Some c).
Proof.
  unfold find_best_assignment.
  generalize (role_orderings tc) as os.
  assert (Hgen : ∀ os acc,
    foldlM (λ results ra,
              c ← try_ordering (player_name <$> players) opts ra;
              Ok (match c with
                  | Some cand => results ++ [cand]
                  | None => results
                  end)) acc os = Ok results →
    c ∈ results →
    c ∈ acc ∨ ∃ ra, ra ∈ os ∧
      try_ordering (player_name <$> players) opts ra = Ok (Some c)).
  { induction os as [|ra os IH]; intros acc Hf Hc.
    { cbn in Hf. simplify_eq. by left. }
    cbn [foldlM] in Hf.
    destruct (try_ordering _ opts ra) as [[cand|]|e] eqn:Ht; [| |done].
    - rewrite bind_Ok, bind_Ok in Hf.
      destruct (IH _ Hf Hc) as [Hin|(ra' & Hin & Hra')].
      + apply elem_of_app in Hin as [Hin|Hin]; [by left|].
        apply list_elem_of_singleton in Hin as ->.
        right. exists ra. split; [by left|done].
      + right. exists ra'. split; [by right|done].
    - rewrite bind_Ok, bind_Ok in Hf.
      destruct (IH _ Hf Hc) as [Hin|(ra' & Hin & Hra')]; [by left|].
      right. exists ra'. split; [by right|done]. }
  intros os Hf Hc. destruct (Hgen os [] Hf Hc) as [Hin|?]; [|done].
  by apply elem_of_nil in Hin.
Qed.

(** The pool is the concatenation of the five searches, in the order of
    the templates; the third and the fifth search are the same. *)
Lemma all_compositions_inv (players : list PlayerProfile)
    (opts : gmap string (gmap string (list (string * Q))))
    (pool : list Candidate) :
  all_compositions players opts = Ok pool →
  ∃ r1 r2 r3 r4,
    find_best_assignment players opts
      [("Vanguard", 2); ("Duelist", 2); ("Strategist", 1)] = Ok r1 ∧
    find_best_assignment players opts
      [("Vanguard", 1); ("Duelist", 2); ("Strategist", 2)] = Ok r2 ∧
    find_best_assignment players opts
      [("Vanguard", 2); ("Duelist", 1); ("Strategist", 2)] = Ok r3 ∧
    find_best_assignment players opts
      [("Vanguard", 1); ("Duelist", 3); ("Strategist", 1)] = Ok r4 ∧
    pool = r1 ++ r2 ++ r3 ++ r4 ++ r3.
Proof.
  unfold all_compositions, target_comps. cbn [foldlM]. intros Hp.
  destruct (find_best_assignment players opts
              [("Vanguard", 2); ("Duelist", 2); ("Strategist", 1)])
    as [r1|]; [|done].
  destruct (find_best_assignment players opts
              [("Vanguard", 1); ("Duelist", 2); ("Strategist", 2)])
    as [r2|]; [|done].
  destruct (find_best_assignment players opts
              [("Vanguard", 2); ("Duelist", 1); ("Strategist", 2)])
    as [r3|]; [|done].
  destruct (find_best_assignment players opts
              [("Vanguard", 1); ("Duelist", 3); ("Strategist", 1)])
    as [r4|]; [|done].
  cbn in Hp. simplify_eq. exists r1, r2, r3, r4.
  split_and!; [done..|]. by rewrite <- !(assoc_L (++)).
Qed.

(** The roles and the length of the orderings of the five templates. *)
Lemma target_comps_roles (tc : list (string * Z)) (ra : list string) :
  tc ∈ target_comps → ra ∈ role_orderings tc →
  length ra = 5%nat ∧ ∀ r, r ∈ ra → r ∈ role_keys.
Proof.
  intros Htc Hra%role_orderings_Permutation.
  assert (Hall : Forall (λ tc, length (roles_needed tc) = 5%nat
                               ∧ Forall (.∈ role_keys) (roles_needed tc))
                        target_comps) by decide_by_compute.
  rewrite Forall_forall in Hall. destruct (Hall _ Htc) as [Hlen Hroles].
  split; [by rewrite Hra|].
  intros r. rewrite Hra. rewrite Forall_forall in Hroles. apply Hroles.
Qed.

End SearchLoops.

(** ** The candidates of a template *)

Lemma first_available_Some (options : list (string * Q)) (used : gset string)
    (h : string) (s : Q) :
  first_available options used = Some (h, s) → (h ∉ used) ∧ (h, s) ∈ options.
Proof.
  induction options as [|[h' s'] options IH]; [done|].
  cbn. case_decide.
  - intros [= -> ->]. split; [done|by left].
  - intros Hf. destruct (IH Hf). split; [done|by right].
Qed.

(** The invariant of the loop over the players: the heroes of the
    assignment are used, and no two players share one. *)
Lemma assign_players_unique
    (opts : gmap string (gmap string (list (string * Q))))
    (ra : list string) (ps : list (nat * string)) :
  ∀ (a : gmap string (string * string)) (t : Q) (used : gset string)
    (c : Candidate),
  (∀ p h r, a !! p = Some (h, r) → h ∈ used) →
  hero_unique a →
  assign_players opts ra ps a t used = Ok (Some c) →
  hero_unique c.2.
Proof.
  induction ps as [|[i name] ps IH]; intros a t used c Hused Huniq Hrun.
  { cbn in Hrun. by simplify_eq. }
  cbn in Hrun.
  destruct (py_index ra i) as [r|]; [|done].
  rewrite bind_Ok in Hrun.
  destruct (py_getitem opts name) as [po|]; [|done].
  rewrite bind_Ok in Hrun.
  destruct (py_getitem po r) as [options|]; [|done].
  rewrite bind_Ok in Hrun.
  destruct (first_available options used) as [[h s]|] eqn:Hf; [|done].
  apply first_available_Some in Hf as [Hfresh _].
  eapply IH; [| |exact Hrun].
  - intros p h' r'. rewrite lookup_insert. case_decide.
    + intros [= <- <-]. apply elem_of_union_l. by apply elem_of_singleton.
    + intros Hp. apply elem_of_union_r. by eapply Hused.
  - intros p1 p2 h' r1 r2. rewrite !lookup_insert.
    repeat case_decide; simplify_eq; intros H1 H2; simplify_eq; try done.
    + destruct Hfresh. by eapply Hused.
    + destruct Hfresh. by eapply Hused.
    + by eapply Huniq.
Qed.

Lemma py_take_subseteq {A} (n : Z) (l : list A) (x : A) :
  x ∈ py_take n l → x ∈ l.
Proof. unfold py_take. destruct (0 <=? n); apply subseteq_take. Qed.

Lemma py_take_nil {A} (n : Z) : py_take n (@nil A) = [].
Proof. unfold py_take. destruct (0 <=? n); apply take_nil. Qed.

Lemma py_take_nonneg {A} (n : Z) (l : list A) :
  0 ≤ n → py_take n l = take (Z.to_nat n) l.
Proof. intros Hn. unfold py_take. by destruct (Z.leb_spec 0 n); [|lia]. Qed.

Section SearchProperties.
Context `{SetIter}.

(** With at most as many players as the template has roles, and an
    option list for every player and role, no ordering raises. *)
Lemma find_best_assignment_greedy (players : list PlayerProfile)
    (opts : gmap string (gmap string (list (string * Q))))
    (tc : list (string * Z)) :
  (length players ≤ length (roles_needed tc))%nat →
  options_defined opts (player_name <$> players) (roles_needed tc) →
  find_best_assignment players opts tc
  = Ok (omap (greedy_candidate (player_name <$> players) opts)
             (role_orderings tc)).
Proof.
  intros Hlen Hdef. apply find_best_assignment_Ok. intros ra Hin.
  pose proof (role_orderings_Permutation _ _ Hin) as Hp.
  apply try_ordering_greedy.
  - by rewrite length_fmap, Hp.
  - intros name r Hn Hr. eapply options_defined_lookup; [done..|].
    by rewrite <- Hp.
Qed.

(** C3: with at most as many players as the template has roles, and an
    option list for every player and role, the search returns, in the
    order of the orderings, the greedy candidate of every ordering that has
    one.  In such a candidate the players, in their enumeration order,
    each hold the first option of their role whose hero no earlier player
    holds, and the total is the sum of the scores of these options; an
    ordering has no candidate exactly when some player finds every option
    taken, and then it adds nothing to the result. *)
Theorem greedy_first_fit (players : list PlayerProfile)
    (opts : gmap string (gmap string (list (string * Q))))
    (tc : list (string * Z)) :
  let names := player_name <$> players in
  (length players ≤ length (roles_needed tc))%nat →
  options_defined opts names (roles_needed tc) →
  find_best_assignment players opts tc
  = Ok (omap (greedy_candidate names opts) (role_orderings tc)) ∧
  ∀ ra, ra ∈ role_orderings tc →
    match greedy_candidate names opts ra with
    | Some c =>
        ∃ picks,
          length picks = length names ∧
          (∀ i name r h s,
             names !! i = Some name → ra !! i = Some r →
             picks !! i = Some (h, s) →
             ∃ j, role_options opts name r !! j = Some (h, s) ∧
                  (h ∉ (take i picks).*1) ∧
                  ∀ j' y, role_options opts name r !! j' = Some y →
                          (j' < j)%nat → y.1 ∈ (take i picks).*1) ∧
          c.1 = sum_scores 0%Q picks.*2 ∧
          (NoDup names →
           ∀ i name r h s,
             names !! i = Some name → ra !! i = Some r →
             picks !! i = Some (h, s) → c.2 !! name = Some (h, r))
    | None =>
        ∃ i name r picks,
          names !! i = Some name ∧ ra !! i = Some r ∧
          greedy_picks opts [] (take i (zip names ra)) = Some picks ∧
          ∀ y, y ∈ role_options opts name r → y.1 ∈ picks.*1
    end.
Proof.
  intros names Hlen Hdef.
  assert (Hra : ∀ ra, ra ∈ role_orderings tc →
                      (length names ≤ length ra)%nat).
  { intros ra Hp%role_orderings_Permutation.
    unfold names. by rewrite length_fmap, Hp. }
  split.
  - by apply find_best_assignment_greedy.
  - intros ra Hin. specialize (Hra _ Hin). unfold greedy_candidate.
    destruct (greedy_picks opts [] (zip names ra)) as [picks|] eqn:Hg; cbn.
    + destruct (greedy_picks_first_fit _ _ _ _ Hg) as [Hl Hfit].
      rewrite length_zip_with_l in Hl by done.
      exists picks. split_and!; [done| |done|].
      * intros i name r h s Hn Hr Hp.
        apply (Hfit i name r h s); [|done].
        apply lookup_zip_with_Some. by exists name, r.
      * intros Hnd i name r h s Hn Hr Hp.
        apply record_assignment_lookup.
        -- rewrite fst_zip; [done|].
           rewrite length_zip_with, length_fmap. lia.
        -- apply (list_elem_of_lookup_2 _ i).
           apply lookup_zip_with_Some. exists name, (h, r).
           split_and!; [done..|].
           apply lookup_zip_with_Some. exists h, r.
           split_and!; [done| |done].
           by rewrite list_lookup_fmap, Hp.
    + destruct (greedy_picks_None _ _ _ Hg) as (i & name & r & picks & Hn & Hp & Hall).
      apply lookup_zip_with_Some in Hn as (? & ? & [= <- <-] & Hn & Hr).
      by exists i, name, r, picks.
Qed.

(** C4: in every candidate of the search of a template, and so in every
    composition that is returned, no hero is assigned to two different
    players. *)
Theorem no_hero_twice :
  (∀ players opts tc results c,
     find_best_assignment players opts tc = Ok results → c ∈ results →
     hero_unique c.2) ∧
  (∀ players min_games top_n result c,
     find_optimal_compositions players min_games top_n = Ok result →
     c ∈ result → hero_unique c.2).
Proof.
  assert (Hone : ∀ players opts tc results c,
    find_best_assignment players opts tc = Ok results → c ∈ results →
    hero_unique c.2).
  { intros players opts tc results c Hf Hc.
    destruct (find_best_assignment_elem _ _ _ _ _ Hf Hc) as (ra & _ & Hrun).
    eapply assign_players_unique; [| |exact Hrun].
    - intros p h r. by rewrite lookup_empty.
    - intros p1 p2 h r1 r2. by rewrite lookup_empty. }
  split; [exact Hone|].
  intros players mg n result c Hf Hc. unfold find_optimal_compositions in Hf.
  destruct (build_player_options players mg) as [opts|]; [|done].
  rewrite bind_Ok in Hf.
  destruct (all_compositions players opts) as [pool|] eqn:Hpool; [|done].
  rewrite bind_Ok in Hf. simplify_eq.
  apply py_take_subseteq in Hc. rewrite sort_by_score_Permutation in Hc.
  destruct (all_compositions_inv _ _ _ Hpool)
    as (r1 & r2 & r3 & r4 & H1 & H2 & H3 & H4 & ->).
  rewrite !elem_of_app in Hc.
  destruct Hc as [Hc|[Hc|[Hc|[Hc|Hc]]]];
    [eapply (Hone _ _ _ r1)|eapply (Hone _ _ _ r2)|eapply (Hone _ _ _ r3)
    |eapply (Hone _ _ _ r4)|eapply (Hone _ _ _ r3)]; eassumption.
Qed.

(** *** Totality *)

Lemma built_options_defined (players : list PlayerProfile) (mg : Z)
    (opts : gmap string (gmap string (list (string * Q))))
    (tc : list (string * Z)) :
  build_player_options players mg = Ok opts → tc ∈ target_comps →
  options_defined opts (player_name <$> players) (roles_needed tc).
Proof.
  intros Hb Htc.
  destruct (build_player_options_keys players mg) as (po & Hpo & Hk).
  rewrite Hb in Hpo. injection Hpo as <-.
  assert (Hroles : Forall (λ tc, Forall (.∈ role_keys) (roles_needed tc))
                          target_comps) by decide_by_compute.
  rewrite Forall_forall in Hroles. specialize (Hroles _ Htc).
  apply Forall_forall. intros name Hn.
  apply list_elem_of_fmap in Hn as (p & -> & Hp).
  destruct (Hk _ Hp) as (o & Ho & Hr).
  eapply Forall_impl; [exact Hroles|]. intros r Hin. cbn beta in Hin.
  rewrite Ho. cbn. by apply Hr.
Qed.

Lemma target_comps_length (tc : list (string * Z)) :
  tc ∈ target_comps → length (roles_needed tc) = 5%nat.
Proof.
  assert (Hall : Forall (λ tc, length (roles_needed tc) = 5%nat) target_comps)
    by decide_by_compute.
  rewrite Forall_forall in Hall. apply Hall.
Qed.

(** With at most five players every template is searched without an
    exception. *)
Lemma all_compositions_total (players : list PlayerProfile) (mg : Z)
    (opts : gmap string (gmap string (list (string * Q)))) :
  (length players ≤ 5)%nat →
  build_player_options players mg = Ok opts →
  all_compositions players opts
  = Ok (tc ← target_comps;
        omap (greedy_candidate (player_name <$> players) opts)
             (role_orderings tc)).
Proof.
  intros Hlen Hb.
  assert (Hfba : ∀ tc, tc ∈ target_comps →
    find_best_assignment players opts tc
    = Ok (omap (greedy_candidate (player_name <$> players) opts)
               (role_orderings tc))).
  { intros tc Htc. apply find_best_assignment_greedy.
    - by rewrite target_comps_length.
    - by eapply built_options_defined. }
  unfold all_compositions.
  assert (Hgen : ∀ tcs acc,
    (∀ tc, tc ∈ tcs →
       find_best_assignment players opts tc
       = Ok (omap (greedy_candidate (player_name <$> players) opts)
                  (role_orderings tc))) →
    foldlM (λ compositions target,
              comp_results ← find_best_assignment players opts target;
              Ok (compositions ++ comp_results)) acc tcs
    = Ok (acc ++ (tc ← tcs;
                  omap (greedy_candidate (player_name <$> players) opts)
                       (role_orderings tc)))).
  { induction tcs as [|tc tcs IH]; intros acc Htcs.
    { cbn. by rewrite app_nil_r. }
    cbn [foldlM]. rewrite Htcs, bind_Ok, bind_Ok by left.
    rewrite IH by (intros; apply Htcs; by right).
    by rewrite bind_cons, (assoc_L (++)). }
  by rewrite Hgen.
Qed.

(** With more than five players a template either raises or has no
    candidate. *)
Lemma find_best_assignment_six (players : list PlayerProfile) (mg : Z)
    (opts : gmap string (gmap string (list (string * Q))))
    (tc : list (string * Z)) :
  (5 < length players)%nat →
  build_player_options players mg = Ok opts →
  tc ∈ target_comps →
  find_best_assignment players opts tc
  = if decide (Exists (λ ra, is_Some (greedy_candidate
                               (take 5 (player_name <$> players)) opts ra))
                      (role_orderings tc))
    then Raise IndexError else Ok [].
Proof.
  intros Hlen Hb Htc.
  apply (find_best_assignment_overflow players opts tc
           (greedy_candidate (take 5 (player_name <$> players)) opts)).
  intros ra Hra.
  destruct (target_comps_roles _ _ Htc Hra) as [Hl Hroles].
  rewrite <- Hl. apply try_ordering_overflow.
  - rewrite length_fmap. lia.
  - intros name r Hn Hr.
    eapply options_defined_lookup;
      [by eapply built_options_defined|done|].
    by rewrite <- (role_orderings_Permutation _ _ Hra).
Qed.

Lemma all_compositions_six (players : list PlayerProfile) (mg : Z)
    (opts : gmap string (gmap string (list (string * Q)))) :
  (5 < length players)%nat →
  build_player_options players mg = Ok opts →
  all_compositions players opts
  = if decide (Exists (λ tc,
                 Exists (λ ra, is_Some (greedy_candidate
                                 (take 5 (player_name <$> players)) opts ra))
                        (role_orderings tc))
               target_comps)
    then Raise IndexError else Ok [].
Proof.
  intros Hlen Hb.
  assert (Hfba : ∀ tc, tc ∈ target_comps → _)
    by (intros tc; apply (find_best_assignment_six players mg opts tc Hlen Hb)).
  unfold all_compositions.
  revert Hfba. generalize target_comps as tcs.
  induction tcs as [|tc tcs IH]; intros Hfba.
  { cbn. by rewrite decide_False by by intros ?%Exists_nil. }
  cbn [foldlM]. rewrite Hfba by left.
  destruct (decide (Exists _ (role_orderings tc))) as [Hex|Hex].
  - rewrite decide_True; [done|]. by left.
  - rewrite bind_Ok, bind_Ok, app_nil_r, IH by (intros; apply Hfba; by right).
    apply decide_ext. rewrite Exists_cons. tauto.
Qed.

(** With at most five profiles the call returns, and every composition
    assigns at most as many players as there are profiles. *)
Lemma find_optimal_compositions_total (players : list PlayerProfile)
    (min_games top_n : Z) :
  (length players ≤ 5)%nat →
  ∃ result,
    find_optimal_compositions players min_games top_n = Ok result ∧
    ∀ c, c ∈ result → (size c.2 ≤ length players)%nat.
Proof.
  intros Hlen.
  destruct (build_player_options_keys players min_games) as (opts & Hb & _).
  unfold find_optimal_compositions. rewrite Hb, bind_Ok.
  rewrite (all_compositions_total _ min_games) by done.
  rewrite bind_Ok. eexists. split; [done|].
  intros c Hc%py_take_subseteq.
  rewrite sort_by_score_Permutation in Hc.
  apply list_elem_of_bind in Hc as (tc & Hc & Htc).
  apply list_elem_of_omap in Hc as (ra & Hra & Hc).
  unfold greedy_candidate in Hc.
  destruct (greedy_picks opts [] _) as [picks|]; [|done].
  cbn in Hc. injection Hc as <-. cbn.
  etrans; [apply record_assignment_size|].
  rewrite map_size_empty, length_zip_with, length_fmap. lia.
Qed.

(** C10, amended: with at most five profiles the call raises nothing, and
    every composition assigns at most as many players as there are
    profiles (so fewer than five slots for fewer than five profiles); with
    six or more profiles the call raises [IndexError] when in some
    ordering of some template each of the first five players finds an
    unused hero, and otherwise returns no composition. *)
Theorem index_in_bounds (players : list PlayerProfile) (min_games top_n : Z) :
  ((length players ≤ 5)%nat →
   ∃ result,
     find_optimal_compositions players min_games top_n = Ok result ∧
     ∀ c, c ∈ result → (size c.2 ≤ length players)%nat) ∧
  ((5 < length players)%nat →
   (∃ opts, build_player_options players min_games = Ok opts) ∧
   ∀ opts, build_player_options players min_games = Ok opts →
     let reaches_sixth :=
       Exists (λ tc,
          Exists (λ ra, is_Some (greedy_candidate
                          (take 5 (player_name <$> players)) opts ra))
                 (role_orderings tc))
        target_comps in
     (reaches_sixth →
      find_optimal_compositions players min_games top_n = Raise IndexError) ∧
     (¬ reaches_sixth →
      find_optimal_compositions players min_games top_n = Ok [])).
Proof.
  split; intros Hlen; [by apply find_optimal_compositions_total|].
  destruct (build_player_options_keys players min_games) as (opts & Hb & _).
  split; [by exists opts|]. clear opts Hb. intros opts Hb. cbn zeta.
  unfold find_optimal_compositions. rewrite Hb, bind_Ok.
  rewrite (all_compositions_six _ min_games) by done.
  split; intros Hex.
  - by rewrite decide_True.
  - rewrite decide_False by done. rewrite bind_Ok.
    change (sort_by_score []) with (@nil Candidate).
    by rewrite py_take_nil.
Qed.

End SearchProperties.

(** C10, the claim as stated fails: with six profiles the index past the
    ordering need not be reached; when the first player has no hero every
    ordering is abandoned at once and the call returns no composition. *)
Lemma six_players_without_fault :
  length six_newcomers = 6%nat ∧
  find_optimal_compositions six_newcomers 3 5 = Ok [].
Proof. split; vm_compute; reflexivity. Qed.


(** ** The ranked result *)

Section Ranking.
Context `{SetIter}.

(** C2: for a non-negative [top_n] the call returns the first [top_n]
    compositions of the pool of all five templates sorted in descending
    order of total score (5 of them when [top_n] is left out); it returns
    for every squad of at most five players, and the result is empty when
    no template has a candidate. *)
Theorem top_compositions (players : list PlayerProfile) (min_games top_n : Z) :
  0 ≤ top_n →
  ((length players ≤ 5)%nat →
   ∃ result, find_optimal_compositions players min_games top_n = Ok result) ∧
  (∀ result,
     find_optimal_compositions players min_games top_n = Ok result →
     ∃ opts r1 r2 r3 r4 r5 sorted,
       build_player_options players min_games = Ok opts ∧
       Forall2 (λ tc r, find_best_assignment players opts tc = Ok r)
               target_comps [r1; r2; r3; r4; r5] ∧
       sorted ≡ₚ r1 ++ r2 ++ r3 ++ r4 ++ r5 ∧
       descending sorted ∧
       result = take (Z.to_nat top_n) sorted ∧
       (r1 ++ r2 ++ r3 ++ r4 ++ r5 = [] → result = [])) ∧
  find_optimal_compositions_call players (Some min_games) None
  = find_optimal_compositions players min_games 5.
Proof.
  intros Hn. split_and!; [| |done].
  - intros Hlen.
    destruct (find_optimal_compositions_total players min_games top_n Hlen)
      as (result & Hf & _).
    by exists result.
  - intros result Hf. unfold find_optimal_compositions in Hf.
    destruct (build_player_options players min_games) as [opts|]; [|done].
    rewrite bind_Ok in Hf.
    destruct (all_compositions players opts) as [pool|] eqn:Hpool; [|done].
    rewrite bind_Ok in Hf. injection Hf as <-.
    destruct (all_compositions_inv _ _ _ Hpool)
      as (r1 & r2 & r3 & r4 & H1 & H2 & H3 & H4 & ->).
    exists opts, r1, r2, r3, r4, r3,
      (sort_by_score (r1 ++ r2 ++ r3 ++ r4 ++ r3)).
    split_and!; [done| |apply sort_by_score_Permutation
                |apply sort_by_score_descending
                |by apply py_take_nonneg|].
    + unfold target_comps. by repeat constructor.
    + intros ->. change (sort_by_score []) with (@nil Candidate).
      apply py_take_nil.
Qed.


Lemma set_iter_length (l : list (list string)) :
  length (set_iter l) = length (remove_dups l).
Proof.
  apply Permutation_length, NoDup_Permutation.
  - apply set_iter_NoDup.
  - apply NoDup_remove_dups.
  - intros x. by rewrite set_iter_elem, elem_of_remove_dups.
Qed.


End Ranking.

(** ** The theorems on sample squads *)


Lemma sample_six_built :
  build_player_options sample_six 2 = Ok sample_six_options.
Proof.
  unfold sample_six_options.
  by destruct (build_player_options_keys sample_six 2) as (po & -> & _).
Qed.

Lemma greedy_first_fit_witness :
  ∃ results,
    find_best_assignment sample_pair sample_pair_options
      [("Vanguard", 2); ("Duelist", 2); ("Strategist", 1)] = Ok results ∧
    length results = 30%nat.
Proof.
  destruct (greedy_first_fit sample_pair sample_pair_options
              [("Vanguard", 2); ("Duelist", 2); ("Strategist", 1)])
    as [Hf _].
  - vm_compute. lia.
  - decide_by_compute.
  - eexists. split; [exact Hf|]. vm_compute. reflexivity.
Defined.

Lemma no_hero_twice_witness :
  ∃ results,
    find_best_assignment sample_pair sample_pair_options
      [("Vanguard", 1); ("Duelist", 3); ("Strategist", 1)] = Ok results ∧
    length results = 20%nat ∧
    Forall (λ c, hero_unique c.2) results.
Proof.
  pose proof (find_best_assignment_greedy sample_pair sample_pair_options
                [("Vanguard", 1); ("Duelist", 3); ("Strategist", 1)]) as Hf.
  specialize (Hf ltac:(vm_compute; lia) ltac:(decide_by_compute)).
  eexists. split; [exact Hf|]. split; [vm_compute; reflexivity|].
  apply Forall_forall. intros c Hc.
  exact (proj1 no_hero_twice sample_pair sample_pair_options _ _ c Hf Hc).
Defined.

Lemma index_in_bounds_witness :
  (∃ result, find_optimal_compositions sample_pair 2 5 = Ok result) ∧
  find_optimal_compositions sample_six 2 5 = Raise IndexError.
Proof.
  split.
  - destruct (index_in_bounds sample_pair 2 5) as [Hfew _].
    destruct Hfew as (result & Hf & _); [vm_compute; lia|].
    exists result. exact Hf.
  - destruct (index_in_bounds sample_six 2 5) as [_ Hmany].
    destruct Hmany as [_ Hmany]; [vm_compute; lia|].
    apply (Hmany sample_six_options sample_six_built).
    decide_by_compute.
Defined.

Lemma top_compositions_witness :
  ∃ result, find_optimal_compositions sample_squad 2 5 = Ok result.
Proof.
  destruct (top_compositions sample_squad 2 5) as (Hret & _ & _); [lia|].
  apply Hret. vm_compute. lia.
Defined.


(** The pool of the sample pair: 30, 30, 30, 20 and 30 candidates. *)
Example sample_pair_pool :
  length (ok_or [] (all_compositions sample_pair sample_pair_options))
  = 140%nat.
Proof. vm_compute. reflexivity. Qed.


(** The sample squad gets five compositions. *)
Example sample_squad_result :
  length (ok_or [] (find_optimal_compositions sample_squad 2 5)) = 5%nat.
Proof. vm_compute. reflexivity. Qed.

(** * Further properties *)

(** ** The aggregated profile *)

Lemma profile_totals_bounds (matches : MatchData) (hint : string) :
  let p := extract_player_stats matches hint in
  0 ≤ total_wins p ≤ total_games p.
Proof.
  cbn zeta. rewrite extract_player_stats_concat.
  destruct (profile_totals_fold (actual_player_name matches hint)
              (concat matches)) as (_ & -> & ->).
  pose proof (length_filter is_win
    (filter (is_aggregated (actual_player_name matches hint)) (concat matches))).
  lia.
Qed.

(** X1: the profile built from match data counts in [total_games] exactly
    the player's own overview segments that list a hero, and in
    [total_wins] those of them whose result is "win" in any letter case;
    so 0 <= total_wins <= total_games, and the overall win rate is returned
    without an exception. *)
Theorem profile_totals (matches : MatchData) (hint : string) :
  let name := actual_player_name matches hint in
  let p := extract_player_stats matches hint in
  let own := filter (is_aggregated name) (concat matches) in
  player_name p = name ∧
  total_games p = Z.of_nat (length own) ∧
  total_wins p = Z.of_nat (length (filter is_win own)) ∧
  0 ≤ total_wins p ≤ total_games p ∧
  ∃ w, overall_win_rate p = Ok w.
Proof.
  intros name p own.
  pose proof (profile_totals_fold name (concat matches)) as Hinv.
  cbn zeta in Hinv. fold own in Hinv.
  subst p. rewrite extract_player_stats_concat. fold name.
  destruct Hinv as (Hn & Hg & Hw). split_and!; [done..| | |].
  - lia.
  - rewrite Hg, Hw. pose proof (length_filter is_win own). lia.
  - unfold overall_win_rate. rewrite Hg.
    destruct (Z.ltb_spec 0 (Z.of_nat (length own))); [|by eexists].
    rewrite py_div_Z_nonzero by lia. by eexists.
Qed.

(** X2: only the player's own overview segments that list a hero matter:
    the profile is the same as the one aggregated from just these
    segments, in their order. *)
Theorem other_segments_ignored (matches : MatchData) (hint : string) :
  let name := actual_player_name matches hint in
  extract_player_stats matches hint
  = foldl (process_segment name) (mkPlayerProfile name [] 0 0)
          (filter (is_aggregated name) (concat matches)).
Proof.
  intros name. rewrite extract_player_stats_concat. fold name.
  generalize (mkPlayerProfile name [] 0 0).
  induction (concat matches) as [|seg segs IH]; intros p; [done|].
  rewrite filter_cons. cbn [foldl].
  destruct (decide (is_aggregated name seg)) as [Hagg|Hagg].
  - cbn [foldl]. apply IH.
  - rewrite process_segment_not_aggregated by done. apply IH.
Qed.

(** ** Counters of the heroes of a profile *)

Lemma py_sum_acc (a : Z) (l : list Z) : foldl Z.add a l = a + py_sum l.
Proof.
  unfold py_sum. revert a. induction l as [|x l IH]; intros a; cbn; [lia|].
  rewrite (IH (a + x)), (IH (0 + x)). lia.
Qed.

Lemma py_sum_cons (x : Z) (l : list Z) : py_sum (x :: l) = x + py_sum l.
Proof. unfold py_sum at 1. cbn. by rewrite py_sum_acc. Qed.

Lemma py_sum_app (l1 l2 : list Z) : py_sum (l1 ++ l2) = py_sum l1 + py_sum l2.
Proof.
  induction l1 as [|x l1 IH]; [done|].
  cbn [app]. rewrite !py_sum_cons, IH. lia.
Qed.

Lemma assoc_alter_notin {V} (f : V → V) (k : string) (d : list (string * V)) :
  k ∉ d.*1 → assoc_alter f k d = d.
Proof.
  induction d as [|[k' v] d IH]; [done|].
  rewrite fmap_cons, not_elem_of_cons. intros [Hne Hk].
  unfold assoc_alter in *. cbn. rewrite decide_False by done.
  by rewrite IH.
Qed.

Lemma py_sum_assoc_alter (f : HeroStats → Z) (g : HeroStats → HeroStats)
    (k : string) (d : list (string * HeroStats)) (v : HeroStats) :
  NoDup d.*1 → assoc k d = Some v →
  py_sum ((λ x, f x.2) <$> assoc_alter g k d)
  = py_sum ((λ x, f x.2) <$> d) + (f (g v) - f v).
Proof.
  induction d as [|[k' v'] d IH]; [done|].
  rewrite fmap_cons, NoDup_cons. intros [Hk Hnd]. cbn [assoc].
  case_decide as Heq.
  - intros [= ->]. subst k'.
    change (assoc_alter g k ((k, v) :: d))
      with ((if decide (k = k) then (k, g v) else (k, v)) :: assoc_alter g k d).
    rewrite decide_True by done. rewrite assoc_alter_notin by done.
    rewrite !fmap_cons, !py_sum_cons. cbn. lia.
  - intros Ha.
    change (assoc_alter g k ((k', v') :: d))
      with ((if decide (k' = k) then (k', g v') else (k', v'))
            :: assoc_alter g k d).
    rewrite decide_False by done.
    rewrite !fmap_cons, !py_sum_cons, IH by done. lia.
Qed.

Lemma assoc_Some_elem {V} (k : string) (v : V) (d : list (string * V)) :
  assoc k d = Some v → (k, v) ∈ d.
Proof.
  induction d as [|[k' v'] d IH]; [done|].
  cbn. case_decide.
  - intros [= ->]. subst. by left.
  - intros Ha. right. by apply IH.
Qed.

Lemma table_roles_known (hero : string) :
  default "Unknown" (assoc hero HERO_ROLES) ∈ known_roles.
Proof.
  destruct (assoc hero HERO_ROLES) as [r|] eqn:Ha; cbn.
  - apply assoc_Some_elem in Ha.
    assert (Hall : Forall (λ kv, kv.2 ∈ known_roles) HERO_ROLES)
      by decide_by_compute.
    rewrite Forall_forall in Hall. apply (Hall _ Ha).
  - unfold known_roles. rewrite !elem_of_cons. tauto.
Qed.

Lemma aggregate_consistent (seg : Segment) (w : bool) (h : HeroStats) :
  counters_consistent h → counters_consistent (aggregate seg w h).
Proof.
  unfold counters_consistent. cbn.
  destruct w, (default false (seg_isMvp seg)), (default false (seg_isSvp seg));
    cbn; lia.
Qed.

Lemma fold_unique_keys (name : string) (segs : list Segment) :
  NoDup (hero_stats (foldl (process_segment name)
                           (mkPlayerProfile name [] 0 0) segs)).*1.
Proof.
  induction segs as [|s segs IHs] using rev_ind; [constructor|].
  rewrite foldl_app. cbn [foldl]. by apply process_segment_unique_keys.
Qed.

Lemma profile_counters_fold (name : string) (segs : list Segment) :
  let p := foldl (process_segment name) (mkPlayerProfile name [] 0 0) segs in
  (∀ k h, assoc k (hero_stats p) = Some h → counters_consistent h) ∧
  py_sum ((λ x, games_played x.2) <$> hero_stats p) = total_games p ∧
  py_sum ((λ x, wins x.2) <$> hero_stats p) = total_wins p.
Proof.
  induction segs as [|seg segs IH] using rev_ind; [done|].
  cbn zeta in *. rewrite foldl_app. cbn [foldl].
  set (p := foldl (process_segment name) _ segs) in *.
  assert (Hnd : NoDup (hero_stats p).*1) by apply fold_unique_keys.
  destruct IH as (IHc & IHg & IHw).
  destruct (aggregated_or_skipped name seg) as [[hero Hagg]|Hno];
    [|by rewrite process_segment_skip].
  split.
  { intros k h. rewrite (process_segment_lookup _ hero _ _ _ Hagg).
    case_decide; [|by apply IHc]. intros [= <-].
    apply aggregate_consistent.
    destruct (assoc hero (hero_stats p)) as [h0|] eqn:Hh; cbn.
    - by eapply IHc.
    - unfold counters_consistent. cbn. lia. }
  assert (His : is_aggregated name seg)
    by (apply is_aggregated_iff; by exists hero).
  destruct (process_segment_totals name p seg His) as (_ & -> & ->).
  destruct Hagg as (Ht & Hn & Hh). unfold process_segment.
  destruct (decide (seg_type seg ≠ Some "overview")); [done|].
  destruct (decide (lower (default "" (seg_handle seg)) ≠ lower name)); [done|].
  destruct (default [] (seg_heroes seg)) as [|hero0 rest]; [done|].
  cbn in Hh. injection Hh as Hh. rewrite Hh. cbn [hero_stats].
  fold (is_win seg).
  destruct (assoc hero (hero_stats p)) as [h0|] eqn:Ha.
  - rewrite !(py_sum_assoc_alter _ _ _ _ h0) by done.
    rewrite IHg, IHw. cbn. split; lia.
  - assert (Hnew : assoc hero (hero_stats p ++
               [(hero, new_HeroStats hero
                         (default "Unknown" (assoc hero HERO_ROLES)))])
             = Some (new_HeroStats hero
                       (default "Unknown" (assoc hero HERO_ROLES)))).
    { rewrite assoc_app, Ha. cbn. by rewrite decide_True. }
    assert (Hnd' : NoDup (hero_stats p ++
               [(hero, new_HeroStats hero
                         (default "Unknown" (assoc hero HERO_ROLES)))]).*1).
    { rewrite fmap_app. apply NoDup_app.
      split_and!; [done| |apply NoDup_singleton].
      intros k Hk. cbn. rewrite list_elem_of_singleton. intros ->.
      by apply assoc_None in Ha. }
    rewrite !(py_sum_assoc_alter _ _ _ _ _ Hnd' Hnew).
    rewrite !fmap_app, !py_sum_app, IHg, IHw. cbn. split; lia.
Qed.

(** X3: in a profile built from match data every hero entry is filed
    under its own name, carries one of the four role names, has played at
    least one game, and its counters are consistent: games = wins + losses,
    and neither the MVP nor the SVP count exceeds the games played. *)
Theorem hero_counters (matches : MatchData) (hint : string) (k : string)
    (h : HeroStats) :
  (k, h) ∈ hero_stats (extract_player_stats matches hint) →
  hero_name h = k ∧ role h ∈ known_roles ∧
  1 ≤ games_played h ∧ games_played h = wins h + losses h ∧
  0 ≤ wins h ∧ 0 ≤ losses h ∧
  0 ≤ mvp_count h ≤ games_played h ∧ 0 ≤ svp_count h ≤ games_played h.
Proof.
  intros Hin.
  apply assoc_elem in Hin; [|apply extract_player_stats_unique_keys].
  rewrite extract_player_stats_concat in Hin.
  pose proof (aggregation_invariant (actual_player_name matches hint)
                (concat matches) k) as Hinv.
  cbn zeta in Hinv. rewrite Hin in Hinv. destruct Hinv as (Hn & Hr & _ & Hpos).
  destruct (profile_counters_fold (actual_player_name matches hint)
              (concat matches)) as (Hc & _ & _).
  destruct (Hc _ _ Hin) as (? & ? & ? & ? & ?).
  split_and!; try done; try lia.
  rewrite Hr. apply table_roles_known.
Qed.

Lemma hero_counters_witness :
  ∃ h, ("Unknown", h)
         ∈ hero_stats (extract_player_stats [[nameless_segment]] "alice") ∧
       games_played h = wins h + losses h ∧ mvp_count h ≤ games_played h.
Proof.
  assert (∃ h, ("Unknown", h)
                 ∈ hero_stats (extract_player_stats [[nameless_segment]] "alice"))
    as [h Hin] by (eexists; vm_compute; left).
  destruct (hero_counters [[nameless_segment]] "alice" "Unknown" h Hin)
    as (_ & _ & _ & Hg & _ & _ & [_ Hm] & _).
  exists h. split; [exact Hin|]. split; [exact Hg|exact Hm].
Defined.

(** X4: the totals of a profile built from match data are the sums over
    its heroes: the games played per hero add up to [total_games] and the
    wins per hero to [total_wins]. *)
Theorem totals_are_sums (matches : MatchData) (hint : string) :
  let p := extract_player_stats matches hint in
  py_sum ((λ x, games_played x.2) <$> hero_stats p) = total_games p ∧
  py_sum ((λ x, wins x.2) <$> hero_stats p) = total_wins p.
Proof.
  cbn zeta. rewrite extract_player_stats_concat.
  by destruct (profile_counters_fold (actual_player_name matches hint)
                 (concat matches)) as (_ & ? & ?).
Qed.

(** ** The range of the performance score *)

Lemma inject_Z_pos (z : Z) : 0 < z → (0 < inject_Z z)%Q.
Proof. intros Hz. unfold Qlt. cbn. lia. Qed.

Lemma Qdiv_nonneg (a b : Q) : (0 <= a)%Q → (0 < b)%Q → (0 <= a / b)%Q.
Proof.
  intros Ha Hb. apply Qle_shift_div_l; [done|]. by rewrite Qmult_0_l.
Qed.

Lemma capped_term_range (x : Q) (c : Q) :
  (0 <= x)%Q → (0 < c)%Q → (0 <= Qmin x c / c * 30 <= 30)%Q.
Proof.
  intros Hx Hc. split.
  - apply Qmult_le_0_compat; [|done].
    apply Qdiv_nonneg; [|done].
    apply Q.min_glb; [done|by apply Qlt_le_weak].
  - assert (Qmin x c / c <= 1)%Q as Hle.
    { apply Qle_shift_div_r; [done|]. rewrite Qmult_1_l. apply Q.le_min_r. }
    set (t := (Qmin x c / c)%Q) in *. clearbody t. lra.
Qed.

Lemma win_rate_value_range (h : HeroStats) :
  0 ≤ wins h ≤ games_played h → (0 <= win_rate_value h <= 1)%Q.
Proof.
  intros Hw. unfold win_rate_value.
  destruct (Z.ltb_spec 0 (games_played h)) as [Hg|Hg]; [|done].
  split.
  - apply Qdiv_nonneg; [|by apply inject_Z_pos]. unfold Qle. cbn. lia.
  - apply Qle_shift_div_r; [by apply inject_Z_pos|].
    unfold Qle. cbn. lia.
Qed.

Lemma per_min_value_nonneg (total : Q) (h : HeroStats) :
  (0 <= total)%Q → (0 <= per_min_value total h)%Q.
Proof.
  intros Ht. unfold per_min_value.
  destruct (Z.ltb_spec 0 (total_time_played_ms h)) as [Hg|Hg]; [|done].
  apply Qdiv_nonneg; [done|].
  apply Qlt_shift_div_l; [done|]. rewrite Qmult_0_l. by apply inject_Z_pos.
Qed.

Lemma role_term_range (h : HeroStats) (d e b : Q) :
  (0 <= d)%Q → (0 <= e)%Q → (0 <= b)%Q → (0 <= role_term h d e b <= 30)%Q.
Proof.
  intros Hd He Hb.
  assert (Hcap : ∀ x c, (0 <= x)%Q → (0 < c)%Q →
                        (0 <= Qmin (x / c) 1 * 30 <= 30)%Q).
  { intros x c Hx Hc.
    pose proof (Qdiv_nonneg _ _ Hx Hc) as Hy.
    assert (0 <= Qmin (x / c) 1)%Q as H0 by (apply Q.min_glb; [done|lra]).
    pose proof (Q.le_min_r (x / c) 1) as H1.
    set (t := Qmin (x / c) 1) in *. clearbody t. split; lra. }
  unfold role_term. repeat case_decide; by apply Hcap.
Qed.

(** X5: for a [HeroStats] with non-negative totals, at most as many wins
    as games and at most one MVP and one SVP award per game, the
    performance score is returned without an exception and lies between 0
    and 110: at most 40 for the win rate, 30 for the capped KDA, 30 for the
    role term and 10 for the awards. *)
Theorem performance_score_range (h : HeroStats) :
  0 ≤ wins h ≤ games_played h →
  0 ≤ total_kills h + total_assists h →
  (0 <= total_damage h)%Q → (0 <= total_healing h)%Q →
  (0 <= total_damage_blocked h)%Q →
  0 ≤ mvp_count h ≤ games_played h → 0 ≤ svp_count h ≤ games_played h →
  ∃ s, performance_score h = Ok s ∧ (0 <= s <= 110)%Q.
Proof.
  intros Hw Hk Hd He Hb Hm Hs. exists (score h).
  split; [apply performance_score_ok|].
  unfold score, score_formula.
  pose proof (win_rate_value_range h Hw) as [Hw0 Hw1].
  assert (Hkda : (0 <= kda_value h)%Q).
  { unfold kda_value. apply Qdiv_nonneg; [unfold Qle; cbn; lia|].
    apply inject_Z_pos. lia. }
  pose proof (capped_term_range (kda_value h) 5 Hkda ltac:(done)) as [Hk0 Hk1].
  pose proof (role_term_range h _ _ _
                (per_min_value_nonneg _ h Hd) (per_min_value_nonneg _ h He)
                (per_min_value_nonneg _ h Hb)) as [Hr0 Hr1].
  assert (Hbonus : (0 <= inject_Z (mvp_count h + svp_count h)
                         / inject_Z (Z.max (games_played h) 1) <= 2)%Q).
  { split.
    - apply Qdiv_nonneg; [unfold Qle; cbn; lia|]. apply inject_Z_pos. lia.
    - apply Qle_shift_div_r; [apply inject_Z_pos; lia|].
      unfold Qle. cbn. lia. }
  destruct Hbonus as [Hb0 Hb1].
  set (w := win_rate_value h) in *.
  set (k := (Qmin (kda_value h) 5 / 5 * 30)%Q) in *.
  set (r := role_term h _ _ _) in *.
  set (m := (inject_Z (mvp_count h + svp_count h)
             / inject_Z (Z.max (games_played h) 1))%Q) in *.
  clearbody w k r m. split; lra.
Qed.

Lemma performance_score_range_witness :
  ∃ s, performance_score sample_thor = Ok s ∧ (0 <= s <= 110)%Q.
Proof.
  apply (performance_score_range sample_thor);
    try (vm_compute; split; discriminate); vm_compute; discriminate.
Defined.

(** ** The profile queries *)

(** X6: [get_best_heroes_by_role] never raises; it returns every hero of
    the role with at least [min_games] games exactly once, nothing else,
    and in descending order of performance score. *)
Theorem best_heroes_ranked (p : PlayerProfile) (r : string) (min_games : Z) :
  ∃ best,
    get_best_heroes_by_role p r min_games = Ok best ∧
    best ≡ₚ filter (λ x, role x.2 = r ∧ min_games ≤ games_played x.2)
                   (hero_stats p) ∧
    ∀ i j a b, (i < j)%nat → best !! i = Some a → best !! j = Some b →
      ∃ sa sb, performance_score a.2 = Ok sa ∧ performance_score b.2 = Ok sb ∧
               (sb <= sa)%Q.
Proof.
  eexists. split; [apply get_best_heroes_by_role_ok|].
  split; [apply ranked_Permutation|].
  intros i j a b Hij Ha Hb. exists (score a.2), (score b.2).
  rewrite !performance_score_ok. split_and!; [done..|].
  by eapply ranked_descending.
Qed.

(** X7: for [n >= 0], [get_top_heroes] never raises and returns
    [min(n, q)] heroes, where [q] is the number of heroes with at least
    [min_games] games; together with the heroes left out they are these
    [q] heroes, and no hero left out scores more than a hero returned. *)
Theorem top_heroes_best (p : PlayerProfile) (n min_games : Z) :
  0 ≤ n →
  ∃ top rest,
    get_top_heroes p n min_games = Ok top ∧
    top ++ rest ≡ₚ filter (λ x, min_games ≤ games_played x.2) (hero_stats p) ∧
    length top = (Z.to_nat n `min` length (top ++ rest))%nat ∧
    ∀ a b, a ∈ top → b ∈ rest →
      ∃ sa sb, performance_score a.2 = Ok sa ∧ performance_score b.2 = Ok sb ∧
               (sb <= sa)%Q.
Proof.
  intros Hn.
  set (l := ranked (filter (λ x, min_games ≤ games_played x.2) (hero_stats p))).
  exists (take (Z.to_nat n) l), (drop (Z.to_nat n) l).
  rewrite take_drop. split_and!.
  - rewrite get_top_heroes_ok. by rewrite py_take_nonneg.
  - apply ranked_Permutation.
  - by rewrite length_take.
  - intros a b Ha Hb. exists (score a.2), (score b.2).
    rewrite !performance_score_ok. split_and!; [done..|].
    apply elem_of_take in Ha as (i & Hi & Hlt).
    apply list_elem_of_lookup in Hb as (j & Hj).
    rewrite lookup_drop in Hj.
    eapply (ranked_descending _ i (Z.to_nat n + j)); [lia|done..].
Qed.

Lemma top_heroes_best_witness :
  ∃ top, get_top_heroes duelist_main 5 2 = Ok top ∧ length top = 5%nat.
Proof.
  destruct (top_heroes_best duelist_main 5 2) as (top & rest & Ht & Hp & Hl & _);
    [lia|].
  exists top. split; [exact Ht|].
  rewrite Hl. apply Permutation_length in Hp. rewrite Hp.
  vm_compute. reflexivity.
Defined.

(** X8: the two queries agree, and raising [min_games] only removes
    heroes: the ranking of a role is the overall ranking (a
    [get_top_heroes] with [n] at least the number of heroes) restricted to
    that role, and the ranking for a larger [min_games] is the ranking for
    the smaller one without the heroes below it, the others in the same
    order. *)
Theorem rankings_agree (p : PlayerProfile) (r : string) (n mg mg' : Z) :
  Z.of_nat (length (hero_stats p)) ≤ n → mg ≤ mg' →
  ∃ top best,
    get_top_heroes p n mg = Ok top ∧
    get_best_heroes_by_role p r mg = Ok best ∧
    best = filter (λ x, role x.2 = r) top ∧
    get_best_heroes_by_role p r mg'
    = Ok (filter (λ x, mg' ≤ games_played x.2) best).
Proof.
  intros Hn Hmg. eexists _, _.
  split; [apply get_top_heroes_ok|].
  split; [apply get_best_heroes_by_role_ok|].
  split.
  - rewrite py_take_nonneg by lia. rewrite take_ge.
    + by rewrite ranked_filter, list_filter_filter.
    + rewrite ranked_Permutation.
      etrans; [apply length_filter|]. lia.
  - rewrite get_best_heroes_by_role_ok, ranked_filter, list_filter_filter.
    do 2 f_equal. apply list_filter_iff. intros x. split.
    + intros [? ?]. split_and!; [done..|lia].
    + intros (? & ? & ?). by split.
Qed.

Lemma rankings_agree_witness :
  ∃ best, get_best_heroes_by_role duelist_main "Duelist" 2 = Ok best ∧
          get_best_heroes_by_role duelist_main "Duelist" 11
          = Ok (filter (λ x, 11 ≤ games_played x.2) best).
Proof.
  destruct (rankings_agree duelist_main "Duelist" 6 2 11)
    as (top & best & _ & Hb & _ & Hb'); [vm_compute; discriminate|lia|].
  exists best. split; [exact Hb|exact Hb'].
Defined.

(** ** The returned compositions *)

Lemma record_assignment_elem (a : gmap string (string * string))
    (l : list (string * (string * string))) (k : string) (v : string * string) :
  record_assignment a l !! k = Some v → (k, v) ∈ l ∨ a !! k = Some v.
Proof.
  revert a. induction l as [|[k0 v0] l IH]; intros a Hl; [by right|].
  cbn in Hl. destruct (IH _ Hl) as [Hin|Ha]; [left; by right|].
  rewrite lookup_insert in Ha. case_decide; [|by right].
  simplify_eq. left. by left.
Qed.

(** The options of a player, when the names of the players are
    distinct. *)
Lemma build_player_options_lookup (players : list PlayerProfile) (mg : Z)
    (opts : gmap string (gmap string (list (string * Q)))) (p : PlayerProfile) :
  NoDup (player_name <$> players) →
  build_player_options players mg = Ok opts → p ∈ players →
  ∃ o, build_options p mg = Ok o ∧ opts !! player_name p = Some o.
Proof.
  unfold build_player_options.
  assert (Hkeep : ∀ (name : string) (l : list PlayerProfile) po1,
    foldlM (λ po p, options ← build_options p mg;
                    Ok (<[player_name p := options]> po)) po1 l = Ok opts →
    name ∉ player_name <$> l →
    opts !! name = po1 !! name).
  { intros name. induction l as [|q' l IHl]; intros po1 Hf Hn.
    { cbn in Hf. by simplify_eq. }
    cbn [foldlM] in Hf.
    destruct (build_options_keys q' mg) as (o' & Ho' & _).
    rewrite Ho', bind_Ok, bind_Ok in Hf.
    rewrite fmap_cons, not_elem_of_cons in Hn. destruct Hn as [Hne Hn].
    rewrite (IHl _ Hf Hn). by rewrite lookup_insert_ne. }
  generalize (∅ : gmap string (gmap string (list (string * Q)))) as po0.
  induction players as [|q players IH]; intros po0 Hnd Hb Hp.
  { by apply elem_of_nil in Hp. }
  rewrite fmap_cons in Hnd. apply NoDup_cons in Hnd as [Hq Hnd].
  cbn [foldlM] in Hb.
  destruct (build_options_keys q mg) as (o & Ho & _).
  rewrite Ho, bind_Ok, bind_Ok in Hb.
  apply elem_of_cons in Hp as [->|Hp]; [|by eapply IH].
  exists o. split; [done|].
  rewrite (Hkeep _ _ _ Hb Hq). apply lookup_insert_eq.
Qed.

Lemma sort_by_score_replicate (n : nat) (c : Candidate) :
  sort_by_score (replicate n c) = replicate n c.
Proof.
  unfold sort_by_score. rewrite fmap_replicate.
  assert (Hs : sort_desc (replicate n (c.1, c)) = replicate n (c.1, c)).
  { induction n as [|n IH]; [done|].
    cbn [replicate sort_desc]. rewrite IH.
    destruct n as [|n]; [done|]. cbn [replicate insert_desc].
    rewrite (proj2 (Qltb_ge c.1 c.1)); [done|]. apply Qle_refl. }
  by rewrite Hs, fmap_replicate.
Qed.

Lemma greedy_picks_empty_options
    (opts : gmap string (gmap string (list (string * Q))))
    (nrs : list (string * string)) (i : nat) (name r : string) :
  ∀ earlier,
  nrs !! i = Some (name, r) → role_options opts name r = [] →
  greedy_picks opts earlier nrs = None.
Proof.
  revert i. induction nrs as [|[name0 r0] nrs IH]; intros i earlier Hi He;
    [done|].
  cbn. destruct i as [|i]; cbn in Hi.
  - simplify_eq. by rewrite He.
  - destruct (list_find _ (role_options opts name0 r0)) as [[j pick]|]; [|done].
    cbn. by rewrite (IH i).
Qed.

Section Compositions.
Context `{SetIter}.

(** Where a returned composition comes from. *)
Lemma composition_origin (players : list PlayerProfile) (mg n : Z)
    (result : list Candidate) (c : Candidate) :
  find_optimal_compositions players mg n = Ok result → c ∈ result →
  ∃ opts tc ra picks,
    build_player_options players mg = Ok opts ∧
    (length players ≤ 5)%nat ∧
    tc ∈ target_comps ∧ ra ∈ role_orderings tc ∧
    greedy_picks opts [] (zip (player_name <$> players) ra) = Some picks ∧
    c = (sum_scores 0%Q picks.*2,
         record_assignment ∅
           (zip (player_name <$> players) (zip picks.*1 ra))).
Proof.
  intros Hf Hc. unfold find_optimal_compositions in Hf.
  destruct (build_player_options players mg) as [opts|] eqn:Hb; [|done].
  rewrite bind_Ok in Hf.
  destruct (decide (length players ≤ 5)%nat) as [Hlen|Hlen].
  - rewrite (all_compositions_total _ mg), bind_Ok in Hf by done.
    remember (tc ← target_comps;
              omap (greedy_candidate (player_name <$> players) opts)
                   (role_orderings tc)) as pool eqn:Hpool.
    injection Hf as <-. apply py_take_subseteq in Hc.
    rewrite sort_by_score_Permutation in Hc. subst pool.
    apply list_elem_of_bind in Hc as (tc & Hc & Htc).
    apply list_elem_of_omap in Hc as (ra & Hra & Hc).
    unfold greedy_candidate in Hc.
    destruct (greedy_picks opts [] _) as [picks|] eqn:Hg; [|done].
    cbn in Hc. injection Hc as <-.
    by exists opts, tc, ra, picks.
  - rewrite (all_compositions_six _ mg) in Hf by (done || lia).
    case_decide; [done|]. rewrite bind_Ok in Hf. injection Hf as <-.
    change (sort_by_score []) with (@nil Candidate) in Hc.
    rewrite py_take_nil in Hc. by apply elem_of_nil in Hc.
Qed.

(** X9: a call without players still returns compositions: for
    [top_n >= 0] the result is [min(top_n, 140)] copies of the empty
    composition with score 0, one for every ordering of every template. *)
Theorem empty_squad (min_games top_n : Z) :
  0 ≤ top_n →
  find_optimal_compositions [] min_games top_n
  = Ok (replicate (Z.to_nat top_n `min` 140) (0%Q, ∅)).
Proof.
  intros Hn. unfold find_optimal_compositions.
  change (build_player_options [] min_games) with
    (Ok (∅ : gmap string (gmap string (list (string * Q))))).
  rewrite bind_Ok.
  rewrite (all_compositions_total [] min_games) by (done || (cbn; lia)).
  rewrite bind_Ok, py_take_nonneg by done.
  assert (Hpool : (tc ← target_comps;
                   omap (greedy_candidate (player_name <$> []) ∅)
                        (role_orderings tc))
                  = replicate 140 ((0%Q, ∅) : Candidate)).
  { assert (Hone : ∀ os : list (list string),
      omap (greedy_candidate (player_name <$> []) ∅) os
      = replicate (length os) ((0%Q, ∅) : Candidate)).
    { induction os as [|ra os IH]; [done|]. cbn. by rewrite <- IH. }
    unfold target_comps. rewrite !bind_cons, !Hone.
    change (@nil (list (string * Z)) ≫= _) with (@nil Candidate).
    unfold role_orderings. rewrite !set_iter_length, app_nil_r.
    rewrite <- !replicate_add. f_equal. }
  rewrite Hpool, sort_by_score_replicate. by rewrite take_replicate.
Qed.

(** X10: with distinct player names, every returned composition assigns
    every player and nobody else, and the roles it gives to the players,
    in their enumeration order, are the first roles of a rearrangement of
    one of the five templates (all of it for five players). *)
Theorem composition_roles (players : list PlayerProfile) (min_games top_n : Z)
    (result : list Candidate) (c : Candidate) :
  NoDup (player_name <$> players) →
  find_optimal_compositions players min_games top_n = Ok result →
  c ∈ result →
  ∃ tc ra,
    tc ∈ target_comps ∧ ra ≡ₚ roles_needed tc ∧
    (length players ≤ length ra)%nat ∧
    (∀ name, is_Some (c.2 !! name) ↔ name ∈ player_name <$> players) ∧
    ∀ i name, (player_name <$> players) !! i = Some name →
              ∃ h r, ra !! i = Some r ∧ c.2 !! name = Some (h, r).
Proof.
  intros Hnd Hf Hc.
  destruct (composition_origin _ _ _ _ _ Hf Hc)
    as (opts & tc & ra & picks & Hb & Hlen & Htc & Hra & Hg & ->).
  destruct (target_comps_roles _ _ Htc Hra) as [Hl _].
  destruct (greedy_picks_first_fit _ _ _ _ Hg) as [Hlp _].
  rewrite length_zip_with, length_fmap in Hlp.
  exists tc, ra. split_and!; [done|by apply role_orderings_Permutation|lia| |].
  - intros name. cbn. split.
    + intros [v Hv]. apply record_assignment_elem in Hv as [Hv|Hv]; [|done].
      by apply elem_of_zip_l in Hv.
    + intros Hin. apply list_elem_of_lookup in Hin as [i Hi].
      pose proof (lookup_lt_Some _ _ _ Hi) as Hlt. rewrite length_fmap in Hlt.
      destruct (lookup_lt_is_Some_2 ra i) as [r Hr]; [lia|].
      destruct (lookup_lt_is_Some_2 picks i) as [[h s] Hp]; [lia|].
      exists (h, r). apply record_assignment_lookup.
      * rewrite fst_zip; [done|].
        rewrite length_zip_with, !length_fmap. lia.
      * apply (list_elem_of_lookup_2 _ i), lookup_zip_with_Some.
        exists name, (h, r). split_and!; [done..|].
        apply lookup_zip_with_Some. exists h, r. split_and!; [done| |done].
        by rewrite list_lookup_fmap, Hp.
  - intros i name Hi. cbn.
    pose proof (lookup_lt_Some _ _ _ Hi) as Hlt. rewrite length_fmap in Hlt.
    destruct (lookup_lt_is_Some_2 ra i) as [r Hr]; [lia|].
    destruct (lookup_lt_is_Some_2 picks i) as [[h s] Hp]; [lia|].
    exists h, r. split; [done|]. apply record_assignment_lookup.
    + rewrite fst_zip; [done|].
      rewrite length_zip_with, !length_fmap. lia.
    + apply (list_elem_of_lookup_2 _ i), lookup_zip_with_Some.
      exists name, (h, r). split_and!; [done..|].
      apply lookup_zip_with_Some. exists h, r. split_and!; [done| |done].
      by rewrite list_lookup_fmap, Hp.
Qed.

(** The heroes of an option list of a known role are heroes of the player
    in that role with enough games. *)
Lemma option_list_qualified (p : PlayerProfile) (mg : Z) (r h : string) (s : Q)
    (o : gmap string (list (string * Q))) (ol : list (string * Q)) :
  NoDup (hero_stats p).*1 → r ∈ role_keys →
  build_options p mg = Ok o → o !! r = Some ol → (h, s) ∈ ol →
  ∃ stats, (h, stats) ∈ hero_stats p ∧ role stats = r ∧
           mg ≤ games_played stats.
Proof.
  intros Hnd Hr Hb Ho Hin.
  destruct (build_options_lookup p mg Hnd r Hr) as (o' & Hb' & Hl).
  rewrite Hb in Hb'. injection Hb' as <-. rewrite Ho in Hl.
  injection Hl as ->.
  apply list_elem_of_fmap in Hin as ([h' stats] & [= -> ->] & Hin).
  exists stats. apply elem_of_app in Hin as [Hin|Hin].
  - apply subseteq_take, role_ranking_elem in Hin as [[? ?] ?]. done.
  - apply list_elem_of_filter in Hin as [[Hrole _] Hin].
    apply subseteq_take, global_ranking_elem in Hin as [? ?]. done.
Qed.

(** X11: with distinct player names and one entry per hero name in every
    profile, every assignment of a returned composition gives the player a
    hero of their own profile, in the role that hero has, one of the three
    known roles, and with at least [min_games] games played. *)
Theorem assigned_heroes_qualified (players : list PlayerProfile)
    (min_games top_n : Z) (result : list Candidate) (c : Candidate)
    (pname h r : string) :
  NoDup (player_name <$> players) →
  (∀ p, p ∈ players → NoDup (hero_stats p).*1) →
  find_optimal_compositions players min_games top_n = Ok result →
  c ∈ result → c.2 !! pname = Some (h, r) →
  r ∈ role_keys ∧
  ∃ p stats, p ∈ players ∧ player_name p = pname ∧
             (h, stats) ∈ hero_stats p ∧ role stats = r ∧
             min_games ≤ games_played stats.
Proof.
  intros Hnd Hkeys Hf Hc Ha.
  destruct (composition_origin _ _ _ _ _ Hf Hc)
    as (opts & tc & ra & picks & Hb & Hlen & Htc & Hra & Hg & ->).
  destruct (target_comps_roles _ _ Htc Hra) as [Hl Hroles].
  cbn in Ha. apply record_assignment_elem in Ha as [Ha|Ha]; [|done].
  apply list_elem_of_lookup in Ha as [i Hi].
  apply lookup_zip_with_Some in Hi as (? & [h' r'] & [= <- <- <-] & Hn & Hi).
  apply lookup_zip_with_Some in Hi as (? & ? & [= <- <-] & Hp & Hr).
  rewrite list_lookup_fmap in Hp.
  destruct (picks !! i) as [[h' s]|] eqn:Hpi; [|done].
  cbn in Hp. injection Hp as ->.
  assert (Hrk : r ∈ role_keys) by by eapply Hroles, list_elem_of_lookup_2.
  split; [done|].
  destruct (greedy_picks_first_fit _ _ _ _ Hg) as [_ Hfit].
  destruct (Hfit i pname r h s) as (j & Hj & _); [|done|].
  { apply lookup_zip_with_Some. by exists pname, r. }
  rewrite list_lookup_fmap in Hn.
  destruct (players !! i) as [p|] eqn:Hpl; [|done].
  cbn in Hn. injection Hn as <-.
  apply list_elem_of_lookup_2 in Hpl.
  destruct (build_player_options_lookup _ _ _ _ Hnd Hb Hpl) as (o & Ho & Hop).
  destruct (build_options_keys p min_games) as (o' & Ho' & Hk).
  rewrite Ho in Ho'. injection Ho' as <-.
  destruct (Hk r Hrk) as [ol Hol].
  rewrite (role_options_lookup _ _ _ _ _ Hop Hol) in Hj.
  apply list_elem_of_lookup_2 in Hj.
  destruct (option_list_qualified p min_games r h s o ol) as (stats & ? & ? & ?);
    [by apply Hkeys|done..|].
  by exists p, stats.
Qed.

Lemma omap_all_None {A B} (f : A → option B) (l : list A) :
  (∀ x, x ∈ l → f x = None) → omap f l = [].
Proof.
  induction l as [|x l IH]; intros Hf; [done|].
  cbn. rewrite Hf by left. apply IH. intros y Hy. apply Hf. by right.
Qed.

(** A player without a hero of a known role with enough games has empty
    option lists. *)
Lemma no_qualified_hero_no_option (p : PlayerProfile) (mg : Z) (r : string)
    (o : gmap string (list (string * Q))) :
  NoDup (hero_stats p).*1 → r ∈ role_keys →
  (∀ x, x ∈ hero_stats p → role x.2 ∈ role_keys → games_played x.2 < mg) →
  build_options p mg = Ok o → o !! r = Some [].
Proof.
  intros Hnd Hr Hno Hb.
  destruct (build_options_keys p mg) as (o' & Ho' & Hk).
  rewrite Hb in Ho'. injection Ho' as <-.
  destruct (Hk r Hr) as [ol Hol]. rewrite Hol. f_equal.
  destruct ol as [|[h s] ol]; [done|]. exfalso.
  destruct (option_list_qualified p mg r h s o _ Hnd Hr Hb Hol)
    as (stats & Hin & Hrole & Hg); [by left|].
  specialize (Hno _ Hin). cbn in Hno. rewrite Hrole in Hno.
  specialize (Hno Hr). lia.
Qed.

(** X12: with distinct player names, if one of the first five players has
    no hero of a known role with at least [min_games] games, the call
    returns the empty list (also when more than five players are given):
    every ordering is abandoned at that player or before. *)
Theorem player_without_heroes (players : list PlayerProfile)
    (min_games top_n : Z) (i : nat) (p : PlayerProfile) :
  NoDup (player_name <$> players) →
  players !! i = Some p → (i < 5)%nat →
  NoDup (hero_stats p).*1 →
  (∀ x, x ∈ hero_stats p → role x.2 ∈ role_keys →
        games_played x.2 < min_games) →
  find_optimal_compositions players min_games top_n = Ok [].
Proof.
  intros Hnd Hi Hi5 Hkeys Hno.
  destruct (build_player_options_keys players min_games) as (opts & Hb & _).
  destruct (build_player_options_lookup _ _ _ p Hnd Hb) as (o & Ho & Hop);
    [by eapply list_elem_of_lookup_2|].
  assert (Hstuck : ∀ names tc ra,
    names !! i = Some (player_name p) →
    tc ∈ target_comps → ra ∈ role_orderings tc →
    greedy_candidate names opts ra = None).
  { intros names tc ra Hn Htc Hra.
    destruct (target_comps_roles _ _ Htc Hra) as [Hl Hroles].
    destruct (lookup_lt_is_Some_2 ra i) as [r Hr]; [lia|].
    unfold greedy_candidate.
    rewrite (greedy_picks_empty_options opts _ i (player_name p) r); [done| |].
    - apply lookup_zip_with_Some. by exists (player_name p), r.
    - eapply role_options_lookup; [done|].
      eapply no_qualified_hero_no_option; [done| |done..].
      by eapply Hroles, list_elem_of_lookup_2. }
  assert (Hname : (player_name <$> players) !! i = Some (player_name p))
    by by rewrite list_lookup_fmap, Hi.
  unfold find_optimal_compositions. rewrite Hb, bind_Ok.
  destruct (decide (length players ≤ 5)%nat) as [Hlen|Hlen].
  - rewrite (all_compositions_total _ min_games), bind_Ok by done.
    assert (Hpool : (tc ← target_comps;
                     omap (greedy_candidate (player_name <$> players) opts)
                          (role_orderings tc)) = []).
    { generalize (λ tc, Hstuck (player_name <$> players) tc).
      generalize target_comps as tcs.
      induction tcs as [|tc tcs IH]; intros Hs; [done|].
      rewrite bind_cons, IH, app_nil_r by (intros; eapply Hs; [done|by right|done]).
      apply omap_all_None. intros ra Hra. by eapply Hs; [|left|]. }
    rewrite Hpool. change (sort_by_score []) with (@nil Candidate).
    by rewrite py_take_nil.
  - rewrite (all_compositions_six _ min_games) by (done || lia).
    rewrite decide_False.
    + rewrite bind_Ok. change (sort_by_score []) with (@nil Candidate).
      by rewrite py_take_nil.
    + intros Hex. apply Exists_exists in Hex as (tc & Htc & Hex).
      apply Exists_exists in Hex as (ra & Hra & [c Hsome]).
      rewrite (Hstuck _ tc ra) in Hsome; [done| |done..].
      by rewrite lookup_take_lt.
Qed.

End Compositions.

Lemma empty_squad_witness :
  find_optimal_compositions [] 3 2 = Ok [(0%Q, ∅); (0%Q, ∅)].
Proof. apply (empty_squad 3 2). lia. Defined.

Lemma composition_roles_witness :
  ∃ result,
    find_optimal_compositions sample_pair 2 5 = Ok result ∧
    length result = 5%nat ∧
    Forall (λ c : Candidate, is_Some (c.2 !! "ann") ∧ is_Some (c.2 !! "bo"))
           result.
Proof.
  destruct (find_optimal_compositions_total sample_pair 2 5) as (result & Hf & _);
    [vm_compute; lia|].
  exists result. split; [exact Hf|]. split.
  - assert (length (ok_or [] (find_optimal_compositions sample_pair 2 5))
            = 5%nat) as Hl by (vm_compute; reflexivity).
    rewrite Hf in Hl. exact Hl.
  - apply Forall_forall. intros c Hc.
    destruct (composition_roles sample_pair 2 5 result c)
      as (tc & ra & _ & _ & _ & Hdom & _);
      [decide_by_compute|exact Hf|exact Hc|].
    split; apply Hdom; decide_by_compute.
Defined.

Lemma assigned_heroes_qualified_witness :
  ∃ result,
    find_optimal_compositions sample_pair 2 5 = Ok result ∧
    Forall (λ c : Candidate,
              ∀ pname h r, c.2 !! pname = Some (h, r) → r ∈ role_keys)
           result.
Proof.
  destruct (find_optimal_compositions_total sample_pair 2 5) as (result & Hf & _);
    [vm_compute; lia|].
  exists result. split; [exact Hf|].
  apply Forall_forall. intros c Hc pname h r Ha.
  destruct (assigned_heroes_qualified sample_pair 2 5 result c pname h r)
    as [Hr _]; [decide_by_compute| |exact Hf|exact Hc|exact Ha|exact Hr].
  apply Forall_forall. decide_by_compute.
Defined.

Lemma player_without_heroes_witness :
  find_optimal_compositions sample_with_newcomer 2 5 = Ok [].
Proof.
  apply (player_without_heroes sample_with_newcomer 2 5 0
           (mkPlayerProfile "zed" [] 0 0)).
  - decide_by_compute.
  - reflexivity.
  - lia.
  - constructor.
  - intros x Hx. by apply elem_of_nil in Hx.
Defined.

(** ** Role coverage *)

Lemma role_ranking_nil (p : PlayerProfile) (r : string) (mg : Z) :
  role_ranking p r mg = [] ↔ ¬ plays_role r mg p.
Proof.
  unfold role_ranking, plays_role. split.
  - intros Hnil Hex. apply Exists_exists in Hex as (x & Hx & Hp).
    assert (x ∈ ranked (filter (λ x, role x.2 = r ∧ mg ≤ games_played x.2)
                          (hero_stats p))) as Hin.
    { rewrite ranked_Permutation. apply list_elem_of_filter. by split. }
    rewrite Hnil in Hin. by apply elem_of_nil in Hin.
  - intros Hno. apply Permutation_nil_r. rewrite ranked_Permutation.
    destruct (filter _ _) as [|x l] eqn:Hf; [done|]. exfalso. apply Hno.
    assert (x ∈ filter (λ x, role x.2 = r ∧ mg ≤ games_played x.2)
                  (hero_stats p)) as Hin by (rewrite Hf; left).
    apply list_elem_of_filter in Hin as [Hp Hx].
    apply Exists_exists. by exists x.
Qed.

Lemma coverage_step_ok (p : PlayerProfile)
    (coverage : gmap string (Z * list string)) (r : string)
    (entry : Z * list string) :
  coverage !! lower r = Some entry →
  coverage_step p coverage r
  = Ok (if decide (plays_role r 3 p)
        then <[lower r := (entry.1 + 1, entry.2 ++ [player_name p])]> coverage
        else coverage).
Proof.
  intros Hk. unfold coverage_step.
  rewrite get_best_heroes_by_role_ok, bind_Ok.
  pose proof (role_ranking_nil p r 3) as Hnil. unfold role_ranking in Hnil.
  destruct (ranked _) as [|x l].
  - rewrite decide_False; [done|]. by apply Hnil.
  - rewrite decide_True.
    + by rewrite (py_getitem_Some _ _ _ Hk), bind_Ok.
    + destruct (decide (plays_role r 3 p)) as [|Hn]; [done|].
      by apply Hnil in Hn.
Qed.

Lemma coverage_player (p : PlayerProfile)
    (coverage : gmap string (Z * list string)) :
  (∀ r, r ∈ role_keys → is_Some (coverage !! lower r)) →
  ∃ coverage',
    foldlM (coverage_step p) coverage role_keys = Ok coverage' ∧
    (∀ r, r ∈ role_keys →
          coverage' !! lower r = bump r p <$> coverage !! lower r) ∧
    (∀ k, k ∉ lower <$> role_keys → coverage' !! k = coverage !! k).
Proof.
  intros Hdef.
  destruct (Hdef "Vanguard") as [e1 H1]; [apply elem_of_role_keys; tauto|].
  destruct (Hdef "Duelist") as [e2 H2]; [apply elem_of_role_keys; tauto|].
  destruct (Hdef "Strategist") as [e3 H3]; [apply elem_of_role_keys; tauto|].
  unfold role_keys. cbn [foldlM].
  rewrite (coverage_step_ok _ _ _ _ H1), bind_Ok.
  set (c1 := if decide (plays_role "Vanguard" 3 p) then _ else _).
  assert (c1 !! lower "Vanguard" = Some (bump "Vanguard" p e1) ∧
          ∀ k, k ≠ lower "Vanguard" → c1 !! k = coverage !! k) as [G1 O1].
  { subst c1. unfold bump. destruct (decide (plays_role "Vanguard" 3 p)).
    - split; [apply lookup_insert_eq|]. intros k Hk. by apply lookup_insert_ne.
    - done. }
  clearbody c1.
  rewrite (coverage_step_ok _ c1 _ e2), bind_Ok by (by rewrite O1).
  set (c2 := if decide (plays_role "Duelist" 3 p) then _ else _).
  assert (c2 !! lower "Duelist" = Some (bump "Duelist" p e2) ∧
          ∀ k, k ≠ lower "Duelist" → c2 !! k = c1 !! k) as [G2 O2].
  { subst c2. unfold bump. destruct (decide (plays_role "Duelist" 3 p)).
    - split; [apply lookup_insert_eq|]. intros k Hk. by apply lookup_insert_ne.
    - split; [by rewrite O1|done]. }
  clearbody c2.
  rewrite (coverage_step_ok _ c2 _ e3) by (by rewrite O2, O1).
  set (c3 := if decide (plays_role "Strategist" 3 p) then _ else _).
  assert (c3 !! lower "Strategist" = Some (bump "Strategist" p e3) ∧
          ∀ k, k ≠ lower "Strategist" → c3 !! k = c2 !! k) as [G3 O3].
  { subst c3. unfold bump. destruct (decide (plays_role "Strategist" 3 p)).
    - split; [apply lookup_insert_eq|]. intros k Hk. by apply lookup_insert_ne.
    - split; [by rewrite O2, O1|done]. }
  clearbody c3.
  exists c3. split; [done|]. split.
  - intros r Hr. apply elem_of_role_keys in Hr as [-> | [-> | ->]].
    + by rewrite O3, O2, G1, H1.
    + by rewrite O3, G2, H2.
    + by rewrite G3, H3.
  - intros k Hk. rewrite O3, O2, O1; [done|..];
      intros ->; apply Hk; unfold role_keys; cbn;
      rewrite !elem_of_cons; tauto.
Qed.

Lemma build_role_coverage_fold (players : list PlayerProfile) :
  ∃ coverage,
    build_role_coverage players = Ok coverage ∧
    (∀ r, r ∈ role_keys →
          coverage !! lower r
          = Some (Z.of_nat (length (role_players r players)),
                  role_players r players)) ∧
    (∀ k, k ∉ lower <$> role_keys → coverage !! k = None).
Proof.
  unfold build_role_coverage.
  induction players as [|p players IH] using rev_ind.
  - exists empty_coverage. split; [done|]. split.
    + intros r Hr. by apply elem_of_role_keys in Hr as [-> | [-> | ->]].
    + intros k Hk. unfold empty_coverage.
      rewrite !lookup_insert_ne; [done|..];
        intros <-; apply Hk; unfold role_keys; cbn;
        rewrite !elem_of_cons; tauto.
  - destruct IH as (cov & Hcov & Hin & Hout).
    rewrite foldlM_app, Hcov, bind_Ok. cbn [foldlM].
    destruct (coverage_player p cov) as (cov' & -> & Hin' & Hout').
    { intros r Hr. rewrite Hin by done. by eexists. }
    exists cov'. split; [done|]. split.
    + intros r Hr. rewrite Hin', Hin by done. cbn. unfold bump, role_players.
      rewrite filter_app, fmap_app, length_app, filter_cons, filter_nil.
      destruct (decide (plays_role r 3 p)); cbn.
      * do 2 f_equal. lia.
      * rewrite !app_nil_r. do 2 f_equal. lia.
    + intros k Hk. by rewrite Hout', Hout.
Qed.

(** X13: [build_role_coverage] never raises. Under each of the keys
    "vanguard", "duelist" and "strategist" the result holds the names of the
    players who have a hero of that role with at least 3 games, in squad
    order, and [count] is the number of those names; a player counts once
    per role however many heroes of it they play. There is no other key. *)
Theorem role_coverage_counts (players : list PlayerProfile) :
  ∃ coverage,
    build_role_coverage players = Ok coverage ∧
    (∀ r, r ∈ role_keys →
          coverage !! lower r
          = Some (Z.of_nat (length (role_players r players)),
                  role_players r players)) ∧
    (∀ k, is_Some (coverage !! k) →
          k = "vanguard" ∨ k = "duelist" ∨ k = "strategist").
Proof.
  destruct (build_role_coverage_fold players) as (cov & Hcov & Hin & Hout).
  exists cov. split; [done|]. split; [done|].
  intros k [v Hk].
  destruct (decide (k ∈ lower <$> role_keys)) as [Hel|Hn].
  - unfold role_keys in Hel. cbn in Hel.
    rewrite !elem_of_cons, elem_of_nil in Hel. tauto.
  - rewrite Hout in Hk by done. done.
Qed.

(** ** Role recommendations *)

Lemma average_top2_ok (heroes : list (string * HeroStats)) :
  heroes ≠ [] → average_top2 heroes = Ok (avg_value heroes).
Proof.
  intros Hne. unfold average_top2, avg_value.
  rewrite (traverse_Ok _ (λ x, score x.2))
    by (intros; apply performance_score_ok).
  rewrite bind_Ok. apply py_div_Z_nonzero.
  destruct heroes; [done|]. cbn [length]. lia.
Qed.

Lemma role_scores_step (p : PlayerProfile) (scores : list (string * Q))
    (r : string) :
  (heroes ← get_best_heroes_by_role p r 2;
   match heroes with
   | [] => Ok scores
   | _ :: _ => avg_score ← average_top2 heroes;
               Ok (scores ++ [(r, avg_score)])
   end)
  = Ok (scores ++ option_list (role_score_of p r)).
Proof.
  rewrite get_best_heroes_by_role_ok, bind_Ok.
  unfold role_score_of, role_ranking.
  destruct (ranked _) as [|x l] eqn:Hr; [by rewrite app_nil_r|].
  by rewrite average_top2_ok, bind_Ok.
Qed.

Lemma role_scores_ok (p : PlayerProfile) :
  role_scores p = Ok (omap (role_score_of p) role_keys).
Proof.
  unfold role_scores, role_keys. cbn [foldlM].
  rewrite role_scores_step, bind_Ok, role_scores_step, bind_Ok.
  rewrite role_scores_step, bind_Ok. cbn [foldlM]. f_equal. cbn.
  by destruct (role_score_of p "Vanguard"), (role_score_of p "Duelist"),
    (role_score_of p "Strategist").
Qed.

Lemma sort_by_key_Permutation {A} (f : A → Q) (l : list A) :
  snd <$> sort_desc ((λ x, (f x, x)) <$> l) ≡ₚ l.
Proof.
  rewrite sort_desc_Permutation, <- list_fmap_compose.
  by rewrite list_fmap_id.
Qed.

Lemma role_score_of_Some (p : PlayerProfile) (r : string) (x : string * Q) :
  role_score_of p r = Some x ↔
  plays_role r 2 p ∧ x = (r, avg_value (role_ranking p r 2)).
Proof.
  unfold role_score_of. pose proof (role_ranking_nil p r 2) as Hnil.
  destruct (role_ranking p r 2) as [|y l] eqn:Hr.
  - split; [done|]. intros [Hp _]. by apply Hnil in Hp.
  - split.
    + intros [= <-]. split; [|done].
      destruct (decide (plays_role r 2 p)) as [|Hn]; [done|].
      by apply Hnil in Hn.
    + by intros [_ ->].
Qed.

Lemma role_scores_elem (p : PlayerProfile) (x : string * Q) :
  x ∈ omap (role_score_of p) role_keys ↔
  x.1 ∈ role_keys ∧ plays_role x.1 2 p ∧
  x.2 = avg_value (role_ranking p x.1 2).
Proof.
  rewrite list_elem_of_omap. split.
  - intros (r & Hr & [Hp ->]%role_score_of_Some). done.
  - intros (Hr & Hp & Hx). exists x.1. split; [done|].
    apply role_score_of_Some. split; [done|]. destruct x; cbn in *. by subst.
Qed.

Lemma role_scores_NoDup (p : PlayerProfile) :
  NoDup (omap (role_score_of p) role_keys).*1.
Proof.
  unfold role_keys. cbn.
  pose proof (role_score_of_Some p "Vanguard") as H1.
  pose proof (role_score_of_Some p "Duelist") as H2.
  pose proof (role_score_of_Some p "Strategist") as H3.
  destruct (role_score_of p "Vanguard") as [x1|];
    [destruct (H1 x1) as [[_ ->] _]; [done|]|];
    (destruct (role_score_of p "Duelist") as [x2|];
     [destruct (H2 x2) as [[_ ->] _]; [done|]|]);
    (destruct (role_score_of p "Strategist") as [x3|];
     [destruct (H3 x3) as [[_ ->] _]; [done|]|]);
    cbn; decide_by_compute.
Qed.

Lemma top_hero_exists (p : PlayerProfile) (r : string) (mg : Z) :
  plays_role r mg p → ∃ best, head (global_ranking p mg) = Some best.
Proof.
  intros (x & Hx & _ & Hg)%Exists_exists.
  assert (x ∈ global_ranking p mg) as Hin.
  { unfold global_ranking. rewrite ranked_Permutation.
    apply list_elem_of_filter. by split. }
  destruct (global_ranking p mg) as [|best l]; [by apply elem_of_nil in Hin|].
  by exists best.
Qed.

(** X14: the role recommendation of a player never raises (no division by
    zero, no index out of range). A role has a score exactly when the player
    has a hero of it with at least 2 games, and the score is the mean of the
    performance scores of the role's best two heroes (of the only one).
    Nothing is reported exactly when no role has a score. Otherwise the
    primary role has the highest role score, a secondary role is reported
    exactly when a second role has a score and it has the highest score among
    the other roles, and the best hero is the first of the player's ranking
    of heroes with at least 2 games. *)
Theorem role_recommendation (p : PlayerProfile) :
  ∃ scores report,
    role_scores p = Ok scores ∧ role_report p = Ok report ∧
    (∀ x, x ∈ scores ↔
          x.1 ∈ role_keys ∧ plays_role x.1 2 p ∧
          x.2 = avg_value (role_ranking p x.1 2)) ∧
    (report = None ↔ ∀ r, r ∈ role_keys → ¬ plays_role r 2 p) ∧
    ∀ rep, report = Some rep →
      rr_primary rep ∈ scores ∧
      (∀ x, x ∈ scores → (x.2 <= (rr_primary rep).2)%Q) ∧
      (rr_secondary rep = None ↔ length scores = 1%nat) ∧
      (∀ sec, rr_secondary rep = Some sec →
              sec ∈ scores ∧ sec.1 ≠ (rr_primary rep).1 ∧
              ∀ x, x ∈ scores → x.1 ≠ (rr_primary rep).1 →
                   (x.2 <= sec.2)%Q) ∧
      ∃ best, head (global_ranking p 2) = Some best ∧
              rr_best_hero rep = Some (best.1, role best.2).
Proof.
  unfold role_report. rewrite role_scores_ok, bind_Ok.
  pose proof (role_scores_elem p) as Hel.
  pose proof (role_scores_NoDup p) as Hnd.
  set (scores := omap (role_score_of p) role_keys) in *.
  exists scores.
  pose proof (sort_by_key_Permutation snd scores) as Hperm.
  pose proof (sort_by_key_descending snd scores) as Hdesc.
  set (sorted_roles := snd <$> sort_desc ((λ x, (x.2, x)) <$> scores)) in *.
  clearbody sorted_roles. clearbody scores.
  destruct scores as [|x0 rest] eqn:Hscores.
  { exists None. split; [done|]. split; [done|]. split; [done|].
    split; [|done]. split; [|done]. intros _ r Hr Hp.
    apply (elem_of_nil (r, avg_value (role_ranking p r 2))).
    by apply Hel. }
  rewrite <- Hscores in *.
  assert (x0 ∈ scores) as Hx0 by (rewrite Hscores; left).
  destruct (top_hero_exists p x0.1 2) as [best Hbest]; [by apply Hel|].
  assert (∀ prim others, sorted_roles = prim :: others →
            prim ∈ scores ∧ ∀ x, x ∈ scores → (x.2 <= prim.2)%Q) as Hprim.
  { intros prim others ->. split; [rewrite <- Hperm; left|].
    intros x [i Hi]%(elem_of_Permutation_proper _ _ _ Hperm)%list_elem_of_lookup.
    destruct i as [|i]; [cbn in Hi; simplify_eq; apply Qle_refl|].
    by apply (Hdesc 0%nat (S i) prim x); [lia|..]. }
  assert (∀ prim sec,
    get_top_heroes p 1 2 ≫= (λ top, Ok (Some (mkRoleReport prim sec
       ((λ x : string * HeroStats, (x.1, role x.2)) <$> head top))))
    = Ok (Some (mkRoleReport prim sec (Some (best.1, role best.2)))))
    as Htop.
  { intros prim sec. rewrite get_top_heroes_ok, bind_Ok.
    fold (global_ranking p 2).
    destruct (global_ranking p 2) as [|b l]; [done|].
    cbn in Hbest. by simplify_eq. }
  assert ((∀ r, r ∈ role_keys → ¬ plays_role r 2 p) → False) as Hsome.
  { intros Hno. apply (Hno x0.1); by apply Hel. }
  destruct sorted_roles as [|prim [|sec others]] eqn:Hsorted.
  - apply Permutation_nil_l in Hperm. by rewrite Hscores in Hperm.
  - cbn [py_index lookup list_lookup length Nat.ltb Nat.leb]. rewrite !bind_Ok.
    rewrite Htop. eexists. split; [done|]. split; [done|].
    split; [done|]. split; [split; [done|by intros ?%Hsome]|].
    intros rep [= <-]. cbn.
    destruct (Hprim _ _ eq_refl) as [Hp1 Hp2].
    split; [done|]. split; [done|].
    split; [split; [|done]; intros _; by rewrite <- Hperm|].
    split; [done|]. by exists best.
  - cbn [py_index lookup list_lookup length Nat.ltb Nat.leb fmap Res_fmap].
    rewrite !bind_Ok.
    rewrite Htop. eexists. split; [done|]. split; [done|].
    split; [done|]. split; [split; [done|by intros ?%Hsome]|].
    intros rep [= <-]. cbn.
    destruct (Hprim _ _ eq_refl) as [Hp1 Hp2].
    split; [done|]. split; [done|].
    split; [split; [done|]; intros Hlen; by rewrite <- Hperm in Hlen|].
    split; [|by exists best].
    intros ? [= <-]. split; [rewrite <- Hperm; right; left|].
    rewrite <- Hperm in Hnd. cbn in Hnd.
    apply NoDup_cons in Hnd as [Hnotin _]. split.
    + intros Heq. apply Hnotin. rewrite <- Heq. left.
    + intros x [i Hi]%(elem_of_Permutation_proper _ _ _ Hperm)%list_elem_of_lookup Hne.
      destruct i as [|[|i]]; cbn in Hi; simplify_eq; [apply Qle_refl|].
      by apply (Hdesc 1%nat (S (S i)) sec x); [lia|..].
Qed.

(** ** Squad summary *)

Section FrontendFacts.
Context `{PyRound}.

Lemma percentage_ok (w g : Z) :
  ∃ q, percentage w g = Ok q ∧ (g ≤ 0 → q = 0%Q).
Proof.
  unfold percentage. destruct (Z.ltb_spec 0 g) as [Hg|Hg].
  - rewrite py_div_Z_nonzero, bind_Ok by lia. eexists. split; [done|]. lia.
  - by exists 0%Q.
Qed.

Lemma py_sum_le {A} (f g : A → Z) (l : list A) :
  (∀ x, x ∈ l → f x ≤ g x) → py_sum (f <$> l) ≤ py_sum (g <$> l).
Proof.
  induction l as [|x l IH]; intros Hle; [done|].
  rewrite !fmap_cons, !py_sum_cons.
  pose proof (Hle x ltac:(left)).
  assert (py_sum (f <$> l) ≤ py_sum (g <$> l))
    by (apply IH; intros; apply Hle; by right).
  lia.
Qed.

Lemma py_sum_nonneg {A} (f : A → Z) (l : list A) :
  (∀ x, x ∈ l → 0 ≤ f x) → 0 ≤ py_sum (f <$> l).
Proof.
  intros Hf. etrans; [|apply (py_sum_le (λ _, 0) f l Hf)].
  clear Hf. induction l as [|x l IH]; [done|].
  rewrite fmap_cons, py_sum_cons. lia.
Qed.

(** The awards of an extracted profile never exceed its games. *)
Lemma profile_awards_bounds (matches : MatchData) (hint : string) :
  let p := extract_player_stats matches hint in
  0 ≤ py_sum ((λ x, mvp_count x.2) <$> hero_stats p) ≤ total_games p ∧
  0 ≤ py_sum ((λ x, svp_count x.2) <$> hero_stats p) ≤ total_games p.
Proof.
  cbn zeta.
  pose proof (extract_player_stats_unique_keys matches hint) as Hnd.
  rewrite extract_player_stats_concat in *.
  destruct (profile_counters_fold (actual_player_name matches hint)
              (concat matches)) as (Hc & <- & _).
  cbn zeta in Hc.
  set (p := foldl _ _ _) in *. clearbody p.
  assert (∀ x, x ∈ hero_stats p → counters_consistent x.2) as Hall.
  { intros [k h] Hin. apply (Hc k). by apply assoc_elem. }
  split; (split; [apply py_sum_nonneg|apply py_sum_le]);
    intros x Hx; destruct (Hall x Hx) as (? & ? & ? & ? & ?); lia.
Qed.

(** X15: [build_squad_summary] never raises; the win rate is 0 for a squad
    without games, and [playerCount] is the number of profiles. For
    profiles built by [extract_player_stats] the totals of wins, MVP awards
    and SVP awards each lie between 0 and the total of games. *)
Theorem squad_summary_bounds (players : list PlayerProfile) :
  ∃ s, build_squad_summary players = Ok s ∧
    ss_playerCount s = Z.of_nat (length players) ∧
    ss_totalGames s = py_sum (total_games <$> players) ∧
    ss_totalWins s = py_sum (total_wins <$> players) ∧
    (ss_totalGames s ≤ 0 → ss_winRate s = 0%Q) ∧
    ((∀ p, p ∈ players →
           ∃ matches hint, p = extract_player_stats matches hint) →
     0 ≤ ss_totalWins s ≤ ss_totalGames s ∧
     0 ≤ ss_totalMvps s ≤ ss_totalGames s ∧
     0 ≤ ss_totalSvps s ≤ ss_totalGames s).
Proof.
  unfold build_squad_summary.
  destruct (percentage_ok (py_sum (total_wins <$> players))
              (py_sum (total_games <$> players))) as (q & -> & Hz).
  rewrite bind_Ok. eexists. split; [done|]. cbn.
  split; [done|]. split; [done|]. split; [done|]. split; [done|].
  intros Hex. split_and!.
  - apply py_sum_nonneg. intros p (m & h & ->)%Hex.
    pose proof (profile_totals_bounds m h) as Hb. cbn zeta in Hb. lia.
  - apply py_sum_le. intros p (m & h & ->)%Hex.
    pose proof (profile_totals_bounds m h) as Hb. cbn zeta in Hb. lia.
  - apply py_sum_nonneg. intros p (m & h & ->)%Hex.
    pose proof (profile_awards_bounds m h) as Hb. cbn zeta in Hb. lia.
  - apply py_sum_le. intros p (m & h & ->)%Hex.
    pose proof (profile_awards_bounds m h) as Hb. cbn zeta in Hb. lia.
  - apply py_sum_nonneg. intros p (m & h & ->)%Hex.
    pose proof (profile_awards_bounds m h) as Hb. cbn zeta in Hb. lia.
  - apply py_sum_le. intros p (m & h & ->)%Hex.
    pose proof (profile_awards_bounds m h) as Hb. cbn zeta in Hb. lia.
Qed.

(** ** Leaderboard *)

Lemma overall_win_rate_ok (p : PlayerProfile) :
  ∃ q, overall_win_rate p = Ok q.
Proof.
  unfold overall_win_rate. destruct (Z.ltb_spec 0 (total_games p)).
  - rewrite py_div_Z_nonzero by lia. by eexists.
  - by eexists.
Qed.

Lemma minutes_ok (t : Z) :
  ∃ m, (if 0 <? t then py_div (inject_Z t) 60000 else Ok 1%Q) = Ok m ∧
       ¬ (m == 0)%Q.
Proof.
  destruct (Z.ltb_spec 0 t) as [Ht|Ht].
  - rewrite py_div_nonzero by Qnonzero. eexists. split; [done|].
    intros E. pose proof (inject_Z_pos _ Ht) as Hpos.
    assert (0 < inject_Z t / 60000)%Q as Hlt.
    { apply Qlt_shift_div_l; [done|]. by rewrite Qmult_0_l. }
    rewrite E in Hlt. by apply Qlt_irrefl in Hlt.
  - exists 1%Q. split; [done|]. Qnonzero.
Qed.

Lemma leaderboard_rows_ok (lb : Leaderboard) (p : PlayerProfile) :
  ∃ lb', leaderboard_rows lb p = Ok lb' ∧
    let new := if decide (total_games p = 0) then [] else [player_name p] in
    wr_name <$> lb_winRate lb' = (wr_name <$> lb_winRate lb) ++ new ∧
    kr_name <$> lb_kda lb' = (kr_name <$> lb_kda lb) ++ new ∧
    tr_name <$> lb_damage lb' = (tr_name <$> lb_damage lb) ++ new ∧
    tr_name <$> lb_healing lb' = (tr_name <$> lb_healing lb) ++ new ∧
    tr_name <$> lb_blocked lb' = (tr_name <$> lb_blocked lb) ++ new ∧
    (Forall (λ r, wr_games r ≠ 0) (lb_winRate lb) →
     Forall (λ r, wr_games r ≠ 0) (lb_winRate lb')).
Proof.
  unfold leaderboard_rows. destruct (decide (total_games p = 0)) as [|Hg].
  { exists lb. split; [done|]. cbn. by rewrite !app_nil_r. }
  destruct (minutes_ok (py_sum (total_time_played_ms <$> (hero_stats p).*2)))
    as (m & -> & Hm).
  destruct (overall_win_rate_ok p) as [w ->].
  rewrite !bind_Ok, py_max_Zmax, py_div_Z_nonzero, bind_Ok by lia.
  rewrite !(py_div_nonzero _ m), !bind_Ok by done.
  eexists. split; [done|]. cbn. rewrite !fmap_app. cbn.
  split_and!; try done.
  intros Hall. apply Forall_app. split; [done|]. by apply Forall_singleton.
Qed.

Lemma leaderboard_fold (players : list PlayerProfile) :
  ∃ lb, foldlM leaderboard_rows (mkLeaderboard [] [] [] [] []) players = Ok lb ∧
    wr_name <$> lb_winRate lb = active_players players ∧
    kr_name <$> lb_kda lb = active_players players ∧
    tr_name <$> lb_damage lb = active_players players ∧
    tr_name <$> lb_healing lb = active_players players ∧
    tr_name <$> lb_blocked lb = active_players players ∧
    Forall (λ r, wr_games r ≠ 0) (lb_winRate lb).
Proof.
  induction players as [|p players IH] using rev_ind.
  { eexists. split; [done|]. cbn. split_and!; done. }
  destruct IH as (lb & Hlb & H1 & H2 & H3 & H4 & H5 & H6).
  rewrite foldlM_app, Hlb, bind_Ok. cbn [foldlM].
  destruct (leaderboard_rows_ok lb p)
    as (lb' & -> & G1 & G2 & G3 & G4 & G5 & G6).
  exists lb'. split; [done|].
  assert (active_players (players ++ [p])
          = active_players players
            ++ (if decide (total_games p = 0) then [] else [player_name p]))
    as ->.
  { unfold active_players. rewrite filter_app, fmap_app. f_equal.
    rewrite filter_cons, filter_nil.
    destruct (decide (total_games p ≠ 0)), (decide (total_games p = 0)); done. }
  rewrite G1, G2, G3, G4, G5, H1, H2, H3, H4, H5. split_and!; try done.
  by apply G6.
Qed.

Lemma sort_rows_Permutation {A} (value : A → Q) (rows : list A) :
  sort_rows value rows ≡ₚ rows.
Proof. apply sort_by_key_Permutation. Qed.

Lemma sort_rows_descending {A} (value : A → Q) (rows : list A) :
  descending_by value (sort_rows value rows).
Proof. intros i j a b. apply sort_by_key_descending. Qed.

(** X16: [build_leaderboard] never raises, whatever the profiles hold. Each
    of the five boards lists exactly the players whose [total_games] is
    not 0, each once per occurrence in the squad, in descending order of
    the board's value; no row of the win-rate board has 0 games. *)
Theorem leaderboard_boards (players : list PlayerProfile) :
  ∃ lb, build_leaderboard players = Ok lb ∧
    wr_name <$> lb_winRate lb ≡ₚ active_players players ∧
    kr_name <$> lb_kda lb ≡ₚ active_players players ∧
    tr_name <$> lb_damage lb ≡ₚ active_players players ∧
    tr_name <$> lb_healing lb ≡ₚ active_players players ∧
    tr_name <$> lb_blocked lb ≡ₚ active_players players ∧
    descending_by wr_value (lb_winRate lb) ∧
    descending_by kr_value (lb_kda lb) ∧
    descending_by tr_value (lb_damage lb) ∧
    descending_by tr_value (lb_healing lb) ∧
    descending_by tr_value (lb_blocked lb) ∧
    Forall (λ r, wr_games r ≠ 0) (lb_winRate lb).
Proof.
  unfold build_leaderboard.
  destruct (leaderboard_fold players)
    as (lb & -> & H1 & H2 & H3 & H4 & H5 & H6).
  rewrite bind_Ok. eexists. split; [done|]. cbn.
  rewrite <- H1 at 1. rewrite <- H2 at 1. rewrite <- H3 at 1.
  rewrite <- H4 at 1. rewrite <- H5.
  split_and!; try (by rewrite sort_rows_Permutation);
    try apply sort_rows_descending.
Qed.

(** ** Hero statistics across players *)

Lemma percentage_value_ok (w g : Z) :
  percentage w g = Ok (percentage_value w g).
Proof.
  unfold percentage, percentage_value. destruct (Z.ltb_spec 0 g); [|done].
  by rewrite py_div_Z_nonzero, bind_Ok by lia.
Qed.

Lemma foldlM_fmap {A B C} (f : A → C → Res A) (g : B → C) (a : A)
    (l : list B) :
  foldlM f a (g <$> l) = foldlM (λ a x, f a (g x)) a l.
Proof.
  revert a. induction l as [|x l IH]; intros a; [done|].
  cbn. destruct (f a (g x)); [apply IH|done].
Qed.

Lemma foldlM_pairs {A} (f : PlayerProfile → A → string * HeroStats → Res A)
    (a : A) (players : list PlayerProfile) :
  foldlM (λ a p, foldlM (f p) a (hero_stats p)) a players
  = foldlM (λ a px, f px.1 a px.2) a (hero_pairs players).
Proof.
  revert a. induction players as [|p players IH]; intros a; [done|].
  unfold hero_pairs. cbn [foldlM mbind list_bind]. fold (hero_pairs players).
  rewrite foldlM_app, foldlM_fmap. cbn.
  destruct (foldlM (f p) a (hero_stats p)); [apply IH|done].
Qed.

Lemma lower_role_default (r : string) :
  (if decide (r ≠ "Unknown") then lower r else "unknown") = lower r.
Proof. case_decide as Hr; [done|]. by subst. Qed.

Lemma pairs_of_snoc (k : string)
    (pairs : list (PlayerProfile * (string * HeroStats)))
    (p : PlayerProfile) (x : string * HeroStats) :
  pairs_of k (pairs ++ [(p, x)])
  = pairs_of k pairs ++ (if decide (x.1 = k) then [(p, x)] else []).
Proof.
  unfold pairs_of. rewrite filter_app, filter_cons, filter_nil. cbn.
  by destruct (decide (x.1 = k)).
Qed.

Lemma pairs_of_nil (k : string)
    (pairs : list (PlayerProfile * (string * HeroStats))) :
  k ∉ (λ px, px.2.1) <$> pairs → pairs_of k pairs = [].
Proof.
  intros Hk. unfold pairs_of.
  destruct (filter _ pairs) as [|px l] eqn:Hf; [done|].
  assert (px ∈ filter (λ px, px.2.1 = k) pairs) as Hin by (rewrite Hf; left).
  apply list_elem_of_filter in Hin as [Hp Hin]. exfalso. apply Hk.
  apply list_elem_of_fmap. by exists px.
Qed.

Lemma accumulated_other (pairs : list (PlayerProfile * (string * HeroStats)))
    (p : PlayerProfile) (x : string * HeroStats) (k : string) (d : HeroData) :
  k ≠ x.1 → accumulated pairs k d → accumulated (pairs ++ [(p, x)]) k d.
Proof.
  intros Hk. unfold accumulated. rewrite pairs_of_snoc.
  rewrite decide_False by done. by rewrite app_nil_r.
Qed.

Lemma hero_data_add_inv (pairs : list (PlayerProfile * (string * HeroStats)))
    (hd : list (string * HeroData)) (p : PlayerProfile)
    (x : string * HeroStats) :
  NoDup hd.*1 →
  (∀ k, k ∈ hd.*1 ↔ k ∈ (λ px, px.2.1) <$> pairs) →
  (∀ k d, assoc k hd = Some d → accumulated pairs k d) →
  ∃ hd', hero_data_add p hd x = Ok hd' ∧
    NoDup hd'.*1 ∧
    (∀ k, k ∈ hd'.*1 ↔ k ∈ (λ px, px.2.1) <$> (pairs ++ [(p, x)])) ∧
    (∀ k d, assoc k hd' = Some d → accumulated (pairs ++ [(p, x)]) k d).
Proof.
  intros Hnd Hkeys Hacc. unfold hero_data_add.
  rewrite win_rate_ok, bind_Ok, performance_score_ok, bind_Ok.
  eexists. split; [done|]. rewrite assoc_alter_keys.
  destruct (assoc x.1 hd) as [d0|] eqn:Hx.
  - assert (x.1 ∈ hd.*1) as Hin.
    { apply dec_stable. intros Hn. apply assoc_None in Hn. congruence. }
    split; [done|]. split.
    { intros k. rewrite fmap_app, elem_of_app, <- Hkeys. cbn.
      rewrite list_elem_of_singleton. split; [tauto|].
      intros [? | ->]; done. }
    intros k d. rewrite assoc_alter_lookup.
    destruct (decide (k = x.1)) as [->|Hk];
      [|intros Hd; apply accumulated_other; [done|by apply Hacc]].
    rewrite Hx. intros [= <-].
    destruct (Hacc _ _ Hx) as (Hn & Hg & Hw & Hp & Hr & px & Hh & Hrole).
    unfold accumulated. rewrite pairs_of_snoc, decide_True by done. cbn.
    rewrite !fmap_app, !py_sum_app. cbn.
    split_and!; try done; try lia.
    + by rewrite Hp.
    + exists px. split; [|done].
      destruct (pairs_of x.1 pairs); [done|]. done.
  - apply assoc_None in Hx.
    assert (pairs_of x.1 pairs = []) as Hnil
      by (apply pairs_of_nil; by rewrite <- Hkeys).
    split.
    { rewrite fmap_app. cbn. apply NoDup_app. split; [done|].
      split; [|apply NoDup_singleton].
      intros k Hk ->%list_elem_of_singleton. done. }
    split.
    { intros k. rewrite !fmap_app, !elem_of_app, <- Hkeys. done. }
    intros k d. rewrite assoc_alter_lookup, assoc_app.
    destruct (decide (k = x.1)) as [->|Hk].
    + apply assoc_None in Hx. rewrite Hx. cbn. rewrite decide_True by done.
      cbn. intros [= <-].
      unfold accumulated. rewrite pairs_of_snoc, Hnil.
      destruct (decide (x.1 = x.1)); [|done].
      cbn. split_and!; try done; try lia.
      exists (p, x). split; [done|]. cbn. apply lower_role_default.
    + destruct (assoc k hd) as [d'|] eqn:Hd.
      * intros [= <-]. apply accumulated_other; [done|by apply Hacc].
      * cbn. by rewrite decide_False.
Qed.

Lemma hero_data_fold (pairs : list (PlayerProfile * (string * HeroStats))) :
  ∃ hd, foldlM (λ a px, hero_data_add px.1 a px.2) [] pairs = Ok hd ∧
    NoDup hd.*1 ∧
    (∀ k, k ∈ hd.*1 ↔ k ∈ (λ px, px.2.1) <$> pairs) ∧
    (∀ k d, assoc k hd = Some d → accumulated pairs k d).
Proof.
  induction pairs as [|[p x] pairs IH] using rev_ind.
  { exists []. split; [done|]. split; [apply NoDup_nil_2|]. by split. }
  destruct IH as (hd & Hhd & Hnd & Hkeys & Hacc).
  rewrite foldlM_app, Hhd, bind_Ok. cbn [foldlM].
  destruct (hero_data_add_inv pairs hd p x Hnd Hkeys Hacc)
    as (hd' & Hadd & ?). cbn [fst snd]. rewrite Hadd, bind_Ok.
  by exists hd'.
Qed.

Lemma hero_pairs_keys (players : list PlayerProfile) (k : string) :
  k ∈ (λ px, px.2.1) <$> hero_pairs players ↔
  ∃ p, p ∈ players ∧ k ∈ (hero_stats p).*1.
Proof.
  unfold hero_pairs. rewrite list_elem_of_fmap. split.
  - intros ([p x] & -> & Hin). apply list_elem_of_bind in Hin as (q & Hx & Hq).
    apply list_elem_of_fmap in Hx as (y & [= -> ->] & Hy).
    exists q. split; [done|]. apply list_elem_of_fmap. by exists y.
  - intros (p & Hp & Hk). apply list_elem_of_fmap in Hk as (x & -> & Hx).
    exists (p, x). split; [done|]. apply list_elem_of_bind. exists p.
    split; [|done]. apply list_elem_of_fmap. by exists x.
Qed.

Lemma finished_names (hd : list (string * HeroData))
    (pairs : list (PlayerProfile * (string * HeroStats))) :
  NoDup hd.*1 →
  (∀ k d, assoc k hd = Some d → accumulated pairs k d) →
  hd_name <$> ((λ kv, finished kv.2) <$> hd) = hd.*1.
Proof.
  intros Hnd Hacc. rewrite <- list_fmap_compose.
  apply list_fmap_ext. intros i [k d] Hi. cbn.
  apply list_elem_of_lookup_2 in Hi.
  by destruct (Hacc k d (assoc_elem _ _ _ Hnd Hi)).
Qed.

(** X17: [build_hero_stats] never raises. The result has one entry per
    hero name found in some player's [hero_stats], in descending order of
    [totalGames]. An entry's [totalGames] and [totalWins] are the sums of the
    games and wins of every player's entry for that hero; its [players]
    hold one row per such entry, with the player's name and games, in
    descending order of the row's [performanceScore]; its [winRate] is set,
    and is 0 without games; its role is the lower-cased role of the first
    such entry. *)
Theorem hero_stats_totals (players : list PlayerProfile) :
  ∃ result, build_hero_stats players = Ok result ∧
    NoDup (hd_name <$> result) ∧
    (∀ name, name ∈ hd_name <$> result ↔
             ∃ p, p ∈ players ∧ name ∈ (hero_stats p).*1) ∧
    descending_by (λ data, inject_Z (hd_totalGames data)) result ∧
    ∀ data, data ∈ result →
      let entries := pairs_of (hd_name data) (hero_pairs players) in
      hd_totalGames data = py_sum ((λ px, games_played px.2.2) <$> entries) ∧
      hd_totalWins data = py_sum ((λ px, wins px.2.2) <$> entries) ∧
      (λ row, (hp_name row, hp_gamesPlayed row)) <$> hd_players data
      ≡ₚ (λ px, (player_name px.1, games_played px.2.2)) <$> entries ∧
      descending_by hp_performanceScore (hd_players data) ∧
      (∃ q, hd_winRate data = Some q ∧ (hd_totalGames data ≤ 0 → q = 0%Q)) ∧
      ∃ px, head entries = Some px ∧ hd_role data = lower (role px.2.2).
Proof.
  unfold build_hero_stats. rewrite foldlM_pairs.
  destruct (hero_data_fold (hero_pairs players))
    as (hd & -> & Hnd & Hkeys & Hacc).
  rewrite bind_Ok.
  rewrite (traverse_Ok _ (λ kv, finished kv.2)), bind_Ok
    by (intros; unfold finish_hero; by rewrite percentage_value_ok).
  eexists. split; [done|].
  pose proof (sort_rows_Permutation
    (λ data, inject_Z (hd_totalGames data)) ((λ kv, finished kv.2) <$> hd))
    as Hperm.
  pose proof (sort_rows_descending
    (λ data, inject_Z (hd_totalGames data)) ((λ kv, finished kv.2) <$> hd))
    as Hdesc.
  set (result := sort_rows _ _) in *. clearbody result.
  assert (hd_name <$> result ≡ₚ hd.*1) as Hnames
    by (by rewrite Hperm, (finished_names _ _ Hnd Hacc)).
  split; [by rewrite Hnames|]. split.
  { intros name. by rewrite Hnames, Hkeys, hero_pairs_keys. }
  split; [done|].
  intros data Hin. rewrite Hperm in Hin.
  apply list_elem_of_fmap in Hin as ([k d] & -> & Hin). cbn.
  destruct (Hacc k d (assoc_elem _ _ _ Hnd Hin))
    as (-> & Hg & Hw & Hp & _ & Hrole).
  split_and!; try done.
  - rewrite sort_rows_Permutation, Hp, <- list_fmap_compose. done.
  - apply sort_rows_descending.
  - eexists. split; [done|]. intros Hle. unfold percentage_value.
    destruct (Z.ltb_spec 0 (hd_totalGames d)); [lia|done].
Qed.

(** ** Player data *)

Lemma data_role_scores_ok (p : PlayerProfile) :
  data_role_scores p
  = Ok [("vanguard", data_role_score p "Vanguard");
        ("duelist", data_role_score p "Duelist");
        ("strategist", data_role_score p "Strategist")].
Proof.
  assert (∀ scores r,
    (heroes ← get_best_heroes_by_role p r 2;
     match heroes with
     | [] => Ok (dict_set (lower r) 0%Q scores)
     | _ :: _ =>
         avg_score ← average_top2 heroes;
         Ok (dict_set (lower r) (py_round avg_score 1) scores)
     end) = Ok (dict_set (lower r) (data_role_score p r) scores)) as Hstep.
  { intros scores r. rewrite get_best_heroes_by_role_ok, bind_Ok.
    unfold data_role_score, role_ranking.
    destruct (ranked _) as [|x l] eqn:Hr; [done|].
    by rewrite average_top2_ok, bind_Ok. }
  unfold data_role_scores, role_keys. cbn [foldlM].
  by rewrite Hstep, bind_Ok, Hstep, bind_Ok, Hstep, bind_Ok.
Qed.

Lemma top_hero_row_ok (x : string * HeroStats) :
  top_hero_row x = Ok (top_hero_row_value x).
Proof.
  unfold top_hero_row, avg_damage_per_min, avg_healing_per_min,
    avg_blocked_per_min.
  by rewrite win_rate_ok, bind_Ok, kda_ok, bind_Ok, performance_score_ok,
    bind_Ok, !per_min_ok, !bind_Ok.
Qed.

Lemma breakdown_row_ok (x : string * HeroStats) :
  breakdown_row x = Ok (breakdown_row_value x).
Proof.
  unfold breakdown_row.
  by rewrite win_rate_ok, bind_Ok, kda_ok, bind_Ok, performance_score_ok,
    bind_Ok.
Qed.

Lemma assoc_alter_compose {V} (f g : V → V) (k : string)
    (d : list (string * V)) :
  assoc_alter f k (assoc_alter g k d) = assoc_alter (λ v, f (g v)) k d.
Proof.
  unfold assoc_alter. rewrite <- list_fmap_compose.
  apply list_fmap_ext. intros i [k' v] _. cbn.
  destruct (decide (k' = k)) as [->|]; cbn; [by rewrite decide_True|].
  by rewrite decide_False.
Qed.

Lemma assoc_alter_ext {V} (f g : V → V) (k : string) (d : list (string * V)) :
  (∀ v, f v = g v) → assoc_alter f k d = assoc_alter g k d.
Proof.
  intros Hfg. unfold assoc_alter. apply list_fmap_ext.
  intros i [k' v] _. cbn. case_decide; [by rewrite Hfg|done].
Qed.

Lemma breakdown_append_ok (r : string) (x : string * HeroStats)
    (hb : list (string * list BreakdownRow)) (rows : list BreakdownRow) :
  assoc (lower r) hb = Some rows →
  breakdown_append r hb x
  = Ok (assoc_alter (λ rows, rows ++ [breakdown_row_value x]) (lower r) hb).
Proof.
  intros Hk. unfold breakdown_append.
  by rewrite Hk, breakdown_row_ok, bind_Ok.
Qed.

Lemma breakdown_loop (r : string) (heroes : list (string * HeroStats))
    (hb : list (string * list BreakdownRow)) :
  is_Some (assoc (lower r) hb) →
  foldlM (breakdown_append r) hb heroes
  = Ok (assoc_alter (λ rows, rows ++ (breakdown_row_value <$> heroes))
          (lower r) hb).
Proof.
  revert hb. induction heroes as [|x heroes IH]; intros hb [rows Hk].
  { cbn. f_equal. unfold assoc_alter. rewrite <- (list_fmap_id hb) at 1.
    apply list_fmap_ext. intros i [k v] _. cbn.
    case_decide; [by rewrite app_nil_r|done]. }
  cbn [foldlM]. rewrite (breakdown_append_ok _ _ _ _ Hk), bind_Ok.
  rewrite IH by (rewrite assoc_alter_lookup, decide_True, Hk by done;
                 by eexists).
  rewrite assoc_alter_compose. f_equal. apply assoc_alter_ext.
  intros v. by rewrite <- app_assoc.
Qed.

Lemma data_hero_breakdown_ok (p : PlayerProfile) :
  data_hero_breakdown p
  = Ok [("vanguard", breakdown_row_value <$> role_ranking p "Vanguard" 1);
        ("duelist", breakdown_row_value <$> role_ranking p "Duelist" 1);
        ("strategist", breakdown_row_value <$> role_ranking p "Strategist" 1)].
Proof.
  unfold data_hero_breakdown, role_keys. cbn [foldlM].
  rewrite !get_best_heroes_by_role_ok. fold (role_ranking p "Vanguard" 1).
  fold (role_ranking p "Duelist" 1). fold (role_ranking p "Strategist" 1).
  rewrite bind_Ok, breakdown_loop, bind_Ok by (by eexists).
  rewrite bind_Ok, breakdown_loop, bind_Ok by (by eexists).
  rewrite bind_Ok, breakdown_loop, bind_Ok by (by eexists).
  done.
Qed.

(** X18: [build_player_data] never raises (no index, key or division
    fault) and carries the profile's name and totals. [roleScores] has the
    keys "vanguard", "duelist", "strategist" in this order, with score 0 for
    a role without a hero with at least 2 games. No primary role is
    reported exactly when no role score is positive; otherwise it is a role
    of highest score. A secondary role is reported only with a primary
    one, differs from it, has a positive score and the highest score among
    the other roles. [topHeroes] are the first 5 heroes of the ranking of
    heroes with at least 2 games, with their lower-cased roles, games and
    awards, and [heroBreakdown] lists under each role's key its heroes with
    at least 1 game, with their games, in ranking order. *)
Theorem player_data_report (p : PlayerProfile) :
  ∃ d, build_player_data p = Ok d ∧
    pd_name d = player_name p ∧
    pd_totalGames d = total_games p ∧ pd_totalWins d = total_wins p ∧
    (pd_roleScores d).*1 = ["vanguard"; "duelist"; "strategist"] ∧
    (∀ r, r ∈ role_keys → ¬ plays_role r 2 p →
          assoc (lower r) (pd_roleScores d) = Some 0%Q) ∧
    (pd_primaryRole d = None ↔
     ∀ x, x ∈ pd_roleScores d → (x.2 <= 0)%Q) ∧
    (∀ r, pd_primaryRole d = Some r →
          ∃ s, (r, s) ∈ pd_roleScores d ∧ (0 < s)%Q ∧
               ∀ x, x ∈ pd_roleScores d → (x.2 <= s)%Q) ∧
    (∀ r, pd_secondaryRole d = Some r →
          pd_primaryRole d ≠ None ∧ pd_primaryRole d ≠ Some r ∧
          ∃ s, (r, s) ∈ pd_roleScores d ∧ (0 < s)%Q ∧
               ∀ x, x ∈ pd_roleScores d → pd_primaryRole d ≠ Some x.1 →
                    (x.2 <= s)%Q) ∧
    (λ t, (th_name t, th_role t, th_gamesPlayed t, th_mvpCount t,
           th_svpCount t)) <$> pd_topHeroes d
    = (λ x, (x.1, lower (role x.2), games_played x.2, mvp_count x.2,
             svp_count x.2)) <$> py_take 5 (global_ranking p 2) ∧
    (length (pd_topHeroes d) ≤ 5)%nat ∧
    (pd_heroBreakdown d).*1 = ["vanguard"; "duelist"; "strategist"] ∧
    (∀ r, r ∈ role_keys →
          ∃ rows, assoc (lower r) (pd_heroBreakdown d) = Some rows ∧
                  (λ b, (br_name b, br_gamesPlayed b)) <$> rows
                  = (λ x, (x.1, games_played x.2)) <$> role_ranking p r 1).
Proof.
  unfold build_player_data. rewrite data_role_scores_ok, bind_Ok.
  set (scores := [("vanguard", _); ("duelist", _); ("strategist", _)]).
  assert (NoDup scores.*1) as Hnd by (cbn; decide_by_compute).
  assert (length scores = 3%nat) as Hlen by done.
  assert (∀ r, r ∈ role_keys → ¬ plays_role r 2 p →
               assoc (lower r) scores = Some 0%Q) as Hzero.
  { intros r Hr Hno. apply role_ranking_nil in Hno.
    apply elem_of_role_keys in Hr as [-> | [-> | ->]]; cbn;
      unfold data_role_score; by rewrite Hno. }
  assert (scores.*1 = ["vanguard"; "duelist"; "strategist"]) as Hkeys by done.
  pose proof (sort_rows_Permutation snd scores) as Hperm.
  pose proof (sort_rows_descending snd scores) as Hdesc.
  destruct (sort_rows snd scores) as [|a [|b rest]] eqn:Hs;
    [by apply Permutation_length in Hperm
    |by apply Permutation_length in Hperm|].
  cbn [py_index lookup list_lookup length Nat.ltb Nat.leb].
  rewrite !bind_Ok, get_top_heroes_ok, bind_Ok.
  rewrite (traverse_Ok _ top_hero_row_value), bind_Ok
    by (intros; apply top_hero_row_ok).
  rewrite data_hero_breakdown_ok, bind_Ok.
  destruct (overall_win_rate_ok p) as [w ->]. rewrite bind_Ok.
  eexists. split; [done|]. cbn.
  split; [done|]. split; [done|]. split; [done|].
  fold scores. split; [done|]. split; [done|]. clearbody scores.
  assert (∀ x, x ∈ scores → (x.2 <= a.2)%Q) as Hmax.
  { intros x [i Hi]%(elem_of_Permutation_proper _ _ _ Hperm)%list_elem_of_lookup.
    destruct i as [|i]; [cbn in Hi; simplify_eq; apply Qle_refl|].
    by apply (Hdesc 0%nat (S i) a x); [lia|..]. }
  assert (∀ x, x ∈ scores → x.1 ≠ a.1 → (x.2 <= b.2)%Q) as Hsec.
  { intros x [i Hi]%(elem_of_Permutation_proper _ _ _ Hperm)%list_elem_of_lookup
      Hne.
    destruct i as [|[|i]]; cbn in Hi; simplify_eq; [apply Qle_refl|].
    by apply (Hdesc 1%nat (S (S i)) b x); [lia|..]. }
  assert (a ∈ scores) as Ha by (rewrite <- Hperm; left).
  assert (b ∈ scores) as Hb by (rewrite <- Hperm; right; left).
  assert (b.1 ≠ a.1) as Hab.
  { rewrite <- Hperm in Hnd. cbn in Hnd.
    apply NoDup_cons in Hnd as [Hnotin _]. intros Heq. apply Hnotin.
    rewrite <- Heq. left. }
  pose proof (Hmax b Hb) as Hba.
  split_and!.
  - destruct (Qltb 0 a.2) eqn:Ea.
    + apply Qltb_lt in Ea. split; [done|]. intros Hall.
      pose proof (Hall a Ha). lra.
    + apply Qltb_ge in Ea. split; [|done]. intros _ x Hx.
      pose proof (Hmax x Hx). lra.
  - intros r. destruct (Qltb 0 a.2) eqn:Ea; [|done]. intros [= <-].
    apply Qltb_lt in Ea. exists a.2. by destruct a.
  - intros r. destruct (Qltb 0 b.2) eqn:Eb; [|done]. intros [= <-].
    apply Qltb_lt in Eb.
    assert (Qltb 0 a.2 = true) as -> by (apply Qltb_lt; lra).
    split; [done|]. split; [by intros [= ?]|].
    exists b.2. split; [by destruct b|]. split; [done|].
    intros x Hx Hne. apply Hsec; [done|]. intros Heq. apply Hne.
    by rewrite Heq.
  - by rewrite <- list_fmap_compose.
  - rewrite length_fmap. unfold py_take. cbn.
    rewrite length_take. lia.
  - done.
  - intros r Hr. apply elem_of_role_keys in Hr as [-> | [-> | ->]];
      (eexists; split; [reflexivity|]; by rewrite <- list_fmap_compose).
Qed.

End FrontendFacts.
